(** * ritual-card: the avatar relay and the card generator page

    A shallow embedding of the three source files of the repository:

    - [src/unnamed/part_000]: the route handler [GET] of the avatar relay
      ([/api/img?url=...]), module [Relay];
    - [src/app/page.js], first document (lines 1-783): the page whose iOS
      delivery uses the Web Share API or a pre-opened popup, module
      [PageShare];
    - [src/unnamed/part_001]: the page whose iOS delivery writes a data URL
      into a pre-opened tab ("v3"), module [PageTab];
    - [src/app/page.js], second document (from line 783): the page whose iOS
      delivery shows an in-page overlay ("v4"), module [PageOverlay].

    The handler [generateCard] is the same text in the three page documents
    and is embedded once.  So are the helpers [roleConfig] and [fmtNum], but
    for their literals outside ASCII, and the status messages of the export
    differ in the same way: page.js holds these literals as UTF-8 text,
    part_001 holds them encoded twice (the bytes of the UTF-8 text read as
    Windows-1252 and encoded as UTF-8 again, the bytes that Windows-1252
    does not define being lost).  A literal is embedded with the bytes of
    the document it is taken from; the card subtree is embedded once, with
    the table of page.js, and no statement reads an emoji.

    JavaScript strings are modelled by [string], read as the UTF-8 encoding
    of the text.  A surrogate without its pair has no UTF-8 encoding; it is
    held as the three bytes of the generalized encoding, [ED], then a byte
    of [A0..BF], then a byte of [80..BF], which no UTF-8 text contains. *)

From Stdlib Require Import Bool Arith ZArith Lia List String Ascii.
From Stdlib Require Import Numbers.DecimalString QArith.
From Stdlib Require Floats.SpecFloat.
Import ListNotations.

Close Scope Q_scope.
Local Open Scope string_scope.
Local Open Scope list_scope.

Set Warnings "-register-all".

(** ** String primitives of the platform *)

Module Js.

(** [s.endsWith(suffix)] *)
Definition endsWith (s suffix : string) : bool :=
  (String.length suffix <=? String.length s)%nat
  && String.eqb
       (substring (String.length s - String.length suffix)
                  (String.length suffix) s)
       suffix.

(** [a || b] on a nullable string. *)
Definition or_str (a : option string) (b : string) : string :=
  match a with
  | Some (String c r) => String c r
  | _ => b
  end.

(** [String(n)] for a non-negative integer. *)
Definition string_of_nat (n : nat) : string :=
  NilZero.string_of_uint (Nat.to_uint n).

End Js.

(** ** The avatar relay ([src/unnamed/part_000]) *)

Module Relay.

(** The incoming request.  [req.url] is the serialized URL of a [Request],
    so [new URL(req.url)] on line 4 cannot throw; the request is
    represented by the query pairs of that URL, in order. *)
Record Request := { searchParams : list (string * string) }.

(** [searchParams.get(name)]: the first value of [name], or [null]. *)
Fixpoint params_get (name : string) (ps : list (string * string))
  : option string :=
  match ps with
  | [] => None
  | (k, v) :: rest => if String.eqb k name then Some v else params_get name rest
  end.

(** What the server-side [fetch] can do. *)
Record Upstream := {
  up_ok : bool;                      (* upstream.ok *)
  up_status : nat;                   (* upstream.status *)
  up_content_type : option string;   (* upstream.headers.get("content-type") *)
  up_arrayBuffer : option (list Byte.byte)  (* None: arrayBuffer() rejects *)
}.

Inductive FetchResult :=
| FetchRejects
| FetchResolves (u : Upstream).

(** The [init] argument of the one [fetch] call of the handler. *)
Record FetchCall := {
  fc_url : string;
  fc_headers : list (string * string);
  fc_cache : string
}.

Inductive Body :=
| Text (s : string)
| Bytes (b : list Byte.byte).

(** [new Response(body, { status, headers })]; [resp_headers] are the
    headers of the init object. *)
Record Response := {
  resp_status : nat;
  resp_headers : list (string * string);
  resp_body : Body
}.

Definition text_response (msg : string) (st : nat) : Response :=
  {| resp_status := st; resp_headers := []; resp_body := Text msg |}.

(** [searchParams.get("url")] of the request, and a header of a
    response. *)
Definition url_param (req : Request) : option string :=
  params_get "url" (searchParams req).

Definition header (name : string) (r : Response) : option string :=
  params_get name (resp_headers r).

Definition allowedHosts : list string :=
  [ "pbs.twimg.com"; "abs.twimg.com"; "twimg.com";
    "video.twimg.com"; "ton.twimg.com" ].

(** [allowedHosts.has(host)] *)
Definition has (host : string) : bool :=
  existsb (String.eqb host) allowedHosts.

(** Lines 27-28. *)
Definition isAllowed (host : string) : bool :=
  has host
  || existsb (fun h => String.eqb host h || Js.endsWith host ("." ++ h))
             allowedHosts.

Section Handler.

(** [new URL(u).hostname], [None] when the constructor throws. *)
Variable hostname : string -> option string.
(** The outcome of [fetch(url, ...)]. *)
Variable fetch : string -> FetchResult.

Definition fetch_init (url : string) : FetchCall :=
  {| fc_url := url;
     fc_headers :=
       [ ("user-agent", "Mozilla/5.0 (compatible; RitualCardBot/1.0)");
         ("accept", "image/avif,image/webp,image/apng,image/*,*/*;q=0.8") ];
     fc_cache := "no-store" |}.

(** The handler: the response and the upstream fetches it performed. *)
Definition GET (req : Request) : Response * list FetchCall :=
  match url_param req with
  | None | Some "" =>                                   (* [!url] *)
      (text_response "Missing url param" 400, [])
  | Some url =>
    match hostname url with
    | None => (text_response "Invalid url" 400, [])
    | Some host =>
      if negb (isAllowed host) then
        (text_response "Host not allowed" 403, [])
      else
        (* the [try] block of lines 34-64; both awaits can reject *)
        match fetch url with
        | FetchRejects =>
            (text_response "Proxy failed" 500, [fetch_init url])
        | FetchResolves upstream =>
          if negb (up_ok upstream) then
            (text_response
               ("Upstream error: " ++ Js.string_of_nat (up_status upstream))
               502,
             [fetch_init url])
          else
            let contentType :=
              Js.or_str (up_content_type upstream) "image/jpeg" in
            match up_arrayBuffer upstream with
            | None => (text_response "Proxy failed" 500, [fetch_init url])
            | Some arrayBuffer =>
              ({| resp_status := 200;
                  resp_headers :=
                    [ ("content-type", contentType);
                      ("cache-control",
                       "public, max-age=3600, s-maxage=3600");
                      ("access-control-allow-origin", "*") ];
                  resp_body := Bytes arrayBuffer |},
               [fetch_init url])
            end
        end
    end
  end.

End Handler.

(** A reader for absolute URLs of the shape [scheme://host/rest], used to
    run the handler on concrete requests. *)
Fixpoint upto_delim (s : string) : string :=
  match s with
  | "" => ""
  | String c r =>
      if (Ascii.eqb c "/" || Ascii.eqb c "?" || Ascii.eqb c "#")%bool then ""
      else String c (upto_delim r)
  end.

Fixpoint after_scheme (s : string) : option string :=
  match s with
  | "" => None
  | String c r =>
      if prefix "://" s then Some (substring 3 (String.length s - 3) s)
      else after_scheme r
  end.

Definition simple_hostname (u : string) : option string :=
  match after_scheme u with
  | Some rest =>
      match upto_delim rest with
      | "" => None
      | h => Some h
      end
  | None => None
  end.

End Relay.

(** ** JavaScript values and the string methods the pages call *)

Module JsVal.

(** A value as [JSON.parse] produces it, plus [undefined].  An object is
    the list of its own properties; a parsed object has distinct keys.
    Numbers are rationals (only their truthiness is looked at). *)
Inductive t :=
| Undefined
| Null
| Bool (b : bool)
| Num (q : Q)
| Str (s : string)
| Arr (items : list t)
| Obj (fields : list (string * t)).

(** ToBoolean *)
Definition truthy (v : t) : bool :=
  match v with
  | Undefined | Null => false
  | Bool b => b
  | Num q => negb (Z.eqb (Qnum q) 0)
  | Str s => negb (String.eqb s "")
  | Arr _ | Obj _ => true
  end.

Fixpoint lookup (k : string) (fields : list (string * t)) : t :=
  match fields with
  | [] => Undefined
  | (k', v) :: rest => if String.eqb k' k then v else lookup k rest
  end.

(** [v.k] for a non-nullish [v] and a name [k] that no prototype defines
    ([user], [name], [avatar_url], ...): the own property of an object,
    [undefined] on anything else. *)
Definition prop (v : t) (k : string) : t :=
  match v with
  | Obj fields => lookup k fields
  | _ => Undefined
  end.

(** [v?.k] *)
Definition opt_prop (v : t) (k : string) : t :=
  match v with
  | Undefined | Null => Undefined
  | _ => prop v k
  end.

(** [a || b] *)
Definition or (a b : t) : t := if truthy a then a else b.

(** [a && b] *)
Definition and (a b : t) : t := if truthy a then b else a.

(** [a ?? b] *)
Definition coalesce (a b : t) : t :=
  match a with
  | Undefined | Null => b
  | _ => a
  end.

End JsVal.

Module JsString.

(** [s.replace(pattern, replacement)] with a string pattern: the first
    occurrence only.  (The replacements used by the pages contain no
    ["$"].) *)
Fixpoint replace (pattern replacement s : string) : string :=
  if prefix pattern s then
    replacement
    ++ substring (String.length pattern)
                 (String.length s - String.length pattern) s
  else
    match s with
    | "" => ""
    | String c r => String c (replace pattern replacement r)
    end.

Definition byte_is (c : ascii) (n : nat) : bool := Nat.eqb (nat_of_ascii c) n.

(** White space and line terminators of one, two and three UTF-8 bytes:
    U+0009..U+000D, U+0020; U+00A0; U+1680, U+2000..U+200A, U+2028,
    U+2029, U+202F, U+205F, U+3000, U+FEFF. *)
Definition ws1 (a : ascii) : bool :=
  let n := nat_of_ascii a in
  ((9 <=? n) && (n <=? 13) || (n =? 32))%nat.

Definition ws2 (a b : ascii) : bool :=
  byte_is a 194 && byte_is b 160.

Definition ws3 (a b c : ascii) : bool :=
  let n := nat_of_ascii c in
  (byte_is a 225 && byte_is b 154 && byte_is c 128)
  || (byte_is a 226 && byte_is b 128
      && ((128 <=? n) && (n <=? 138) || (n =? 168) || (n =? 169) || (n =? 175))%nat)
  || (byte_is a 226 && byte_is b 129 && byte_is c 159)
  || (byte_is a 227 && byte_is b 128 && byte_is c 128)
  || (byte_is a 239 && byte_is b 187 && byte_is c 191).

(** Drop the white space at the front of a byte list; [w2] and [w3]
    receive the bytes in the order they appear in the list. *)
Fixpoint drop_ws (w2 : ascii -> ascii -> bool)
         (w3 : ascii -> ascii -> ascii -> bool) (l : list ascii)
  : list ascii :=
  match l with
  | [] => []
  | a :: r1 =>
      if ws1 a then drop_ws w2 w3 r1
      else
        match r1 with
        | b :: r2 =>
            if w2 a b then drop_ws w2 w3 r2
            else
              match r2 with
              | c :: r3 => if w3 a b c then drop_ws w2 w3 r3 else l
              | [] => l
              end
        | [] => l
        end
  end.

Definition trimStart_bytes : list ascii -> list ascii := drop_ws ws2 ws3.

Definition trimEnd_bytes (l : list ascii) : list ascii :=
  rev (drop_ws (fun a b => ws2 b a) (fun a b c => ws3 c b a) (rev l)).

(** [s.trim()] *)
Definition trim (s : string) : string :=
  string_of_list_ascii
    (trimEnd_bytes (trimStart_bytes (list_ascii_of_string s))).

Definition hex_digit (n : nat) : ascii :=
  ascii_of_nat (if (n <? 10)%nat then 48 + n else 55 + n).

(** The characters [encodeURIComponent] leaves alone:
    [A-Z a-z 0-9 - _ . ! ~ * ' ( )]. *)
Definition unreserved (c : ascii) : bool :=
  let n := nat_of_ascii c in
  ((65 <=? n) && (n <=? 90) || (97 <=? n) && (n <=? 122)
   || (48 <=? n) && (n <=? 57)
   || (n =? 45) || (n =? 95) || (n =? 46) || (n =? 33) || (n =? 126)
   || (n =? 42) || (n =? 39) || (n =? 40) || (n =? 41))%nat.

(** A surrogate that opens no pair: the byte [ED] followed by a byte from
    [A0] on. *)
Definition lone_surrogate (c : ascii) (r : string) : bool :=
  byte_is c 237
  && match r with
     | String d _ => (160 <=? nat_of_ascii d)%nat
     | "" => false
     end.

Definition escape (c : ascii) (rest : string) : string :=
  if unreserved c then String c rest
  else
    let n := nat_of_ascii c in
    String "%" (String (hex_digit (n / 16)) (String (hex_digit (n mod 16)) rest)).

(** [encodeURIComponent(s)]: every byte of the UTF-8 text that is not
    unreserved becomes [%XX]; [None] is the [URIError] thrown for a text
    that holds a surrogate without its pair. *)
Fixpoint encodeURIComponent (s : string) : option string :=
  match s with
  | "" => Some ""
  | String c r =>
      if lone_surrogate c r then None
      else
        match encodeURIComponent r with
        | Some rest => Some (escape c rest)
        | None => None
        end
  end.

End JsString.

(** ** Numbers: binary64 division and [toFixed(1)] *)

Module Number.

Import SpecFloat.

Definition prec : Z := 53.
Definition emax : Z := 1024.

(** The Number whose value is the integer [n] (exact for
    [|n| <= 2^53]). *)
Definition of_Z (n : Z) : spec_float := binary_normalize prec emax n 0 false.

(** [x / y] *)
Definition div (x y : spec_float) : spec_float := SFdiv prec emax x y.

(** The integer [t] for which [t / 10 - |x|] is as close to zero as
    possible, the larger one when there are two (step 10.a of
    [Number.prototype.toFixed] with one fraction digit). *)
Definition tenths (m : positive) (e : Z) : Z :=
  match e with
  | Zneg k => (20 * Zpos m + 2 ^ Zpos k) / 2 ^ (Zpos k + 1)
  | _ => 10 * Zpos m * 2 ^ e
  end.

(** The decimal numeral of an integer. *)
Definition string_of_Z (n : Z) : string :=
  NilZero.string_of_int (Z.to_int n).

(** [10^21 <= m * 2^e]: from there on [toFixed] hands over to
    [Number::toString] (step 9 of [Number.prototype.toFixed]). *)
Definition exponential (m : positive) (e : Z) : bool :=
  match e with
  | Zneg k => (10 ^ 21 * 2 ^ Zpos k <=? Zpos m)%Z
  | _ => (10 ^ 21 <=? Zpos m * 2 ^ e)%Z
  end.

(** The magnitude of a Number that holds an integer. *)
Definition integer (x : spec_float) : Z :=
  match x with
  | S754_finite _ m (Zneg k) => Zpos m / 2 ^ Zpos k
  | S754_finite _ m e => Zpos m * 2 ^ e
  | _ => 0
  end.

(** [Number::toString] for a Number whose value is the positive integer
    [v].  Step 5 takes integers [n], [k] and [s] with [k >= 1] and
    [10^(k-1) <= s < 10^k] such that [s * 10^(n-k)] reads back as the Number
    and [k] is as small as possible; of several [s], the one nearest to
    [v], and of two equally near, the even one.  [shortest v p] looks for
    [s] at the power [p = n - k], from the highest power down: at each
    power the only candidates are the two multiples of [10^p] around
    [v]. *)
Definition reads_back (v c : Z) (p : nat) : bool :=
  (0 <? c)%Z && SFeqb (of_Z (c * 10 ^ Z.of_nat p)) (of_Z v).

Definition nearer (v lo : Z) (p : nat) : Z :=
  match (2 * (v - lo * 10 ^ Z.of_nat p) ?= 10 ^ Z.of_nat p)%Z with
  | Lt => lo
  | Gt => lo + 1
  | Eq => if Z.even lo then lo else lo + 1
  end.

Fixpoint shortest (v : Z) (p : nat) : Z * nat :=
  let lo := (v / 10 ^ Z.of_nat p)%Z in
  let found :=
    match reads_back v lo p, reads_back v (lo + 1) p with
    | true, true => Some (nearer v lo p)
    | true, false => Some lo
    | false, true => Some (lo + 1)%Z
    | false, false => None
    end in
  match found, p with
  | Some s, _ => (s, p)
  | None, S p' => shortest v p'
  | None, O => (v, O)
  end.

Fixpoint zeros (p : nat) : string :=
  match p with
  | O => ""
  | S p' => String "0" (zeros p')
  end.

(** Steps 6 to 10 for an integer: up to 21 digits, the digits of [s]
    followed by zeros; beyond, the first digit, the others after a point,
    and the exponent. *)
Definition digits (v : Z) : string :=
  let '(s, p) := shortest v (String.length (string_of_Z v)) in
  let ds := string_of_Z s in
  let n := (String.length ds + p)%nat in
  if (n <=? 21)%nat then ds ++ zeros p
  else
    match ds with
    | String d "" => String d ("e+" ++ Js.string_of_nat (n - 1))
    | String d rest =>
        String d ("." ++ rest ++ "e+" ++ Js.string_of_nat (n - 1))
    | "" => ""
    end.

(** [String(x)] for a Number that holds an integer. *)
Definition toString_integer (x : spec_float) : string :=
  match x with
  | S754_nan => "NaN"
  | S754_infinity s => if s then "-Infinity" else "Infinity"
  | S754_zero _ => "0"
  | S754_finite s _ _ => (if s then "-" else "") ++ digits (integer x)
  end.

(** [String(x)] for the Number [x] nearest to the integer [n].  Up to
    [2^53] the Number is [n] itself and none of its digits can be spared:
    a numeral that reads back as [n] equals [n]. *)
Definition toString_Z (n : Z) : string :=
  if (Z.abs n <=? 2 ^ 53)%Z then string_of_Z n
  else toString_integer (of_Z n).

(** [x.toFixed(1)]: below [10^21] the tenths of [x] with the point before
    the last digit, from [10^21] on [String(x)]. *)
Definition toFixed1 (x : spec_float) : string :=
  match x with
  | S754_nan => "NaN"
  | S754_infinity s => if s then "-Infinity" else "Infinity"
  | S754_zero _ => "0.0"
  | S754_finite s m e =>
      (if s then "-" else "")
      ++ (if exponential m e then digits (Zpos m * 2 ^ e)
          else
            let t := tenths m e in
            string_of_Z (t / 10) ++ "." ++ string_of_Z (t mod 10))
  end.

(** The two halves of [binary_round_aux] at binary64, for a positive
    result: shifting to 53 digits and rounding to nearest (ties to even),
    then renormalizing the rounded mantissa. *)
Definition shift_round (q e' : Z) (l : location) : Z * Z :=
  let '(mrs, e) := shr_fexp 53 1024 q e' l in
  (round_nearest_even (shr_m mrs) (loc_of_shr_record mrs), e).

Definition renormalize (m0 e0 : Z) : spec_float :=
  let '(mrs, e) := shr_fexp 53 1024 m0 e0 loc_Exact in
  match shr_m mrs with
  | Z0 => S754_zero false
  | Zpos m => if (e <=? 1024 - 53)%Z then S754_finite false m e
              else S754_infinity false
  | _ => S754_nan
  end.

End Number.

(** ** Sequencing with exceptions

    The body of a [try] block: a computation over a store [S] that either
    completes with a value or throws; what it wrote to the store before
    throwing stays written. *)

Module Exec.

Definition M (S A : Type) : Type := S -> option A * S.

Definition ret {S A} (a : A) : M S A := fun s => (Some a, s).

Definition bind {S A B} (m : M S A) (k : A -> M S B) : M S B :=
  fun s =>
    match m s with
    | (Some a, s') => k a s'
    | (None, s') => (None, s')
    end.

Definition throw {S A} : M S A := fun s => (None, s).

Definition modify {S} (f : S -> S) : M S unit := fun s => (Some tt, f s).

Definition get {S} : M S S := fun s => (Some s, s).

(** [if (c) body] *)
Definition when {S} (c : bool) (body : M S unit) : M S unit :=
  if c then body else ret tt.

(** [try { body } catch { handler }] *)
Definition try_catch {S A} (body handler : M S A) : M S A :=
  fun s =>
    match body s with
    | (Some a, s') => (Some a, s')
    | (None, s') => handler s'
    end.

(** [try { body } finally { cleanup }] for a [cleanup] that completes. *)
Definition finally {S A} (body : M S A) (cleanup : S -> S) : M S A :=
  fun s => let '(r, s') := body s in (r, cleanup s').

(** The store a computation leaves behind. *)
Definition exec {S A} (m : M S A) (s : S) : S := snd (m s).

(** [m] leaves [P] true of the store, whether it completes or throws. *)
Definition keeps {S} (P : S -> Prop) {A} (m : M S A) : Prop :=
  forall s, P s -> P (snd (m s)).

(** From a store satisfying [P], [m] completes in a store satisfying [Q]
    or throws in a store satisfying [E]. *)
Definition triple {S A} (P : S -> Prop) (m : M S A)
           (Q : A -> S -> Prop) (E : S -> Prop) : Prop :=
  forall s, P s ->
    match m s with
    | (Some a, s') => Q a s'
    | (None, s') => E s'
    end.

End Exec.

Declare Scope exec_scope.
Delimit Scope exec_scope with exec.
Notation "x <- m ;; k" := (Exec.bind m (fun x => k))
  (at level 61, m at next level, right associativity) : exec_scope.
Notation "m ;; k" := (Exec.bind m (fun _ => k))
  (at level 61, right associativity) : exec_scope.

(** ** What the three page documents share *)

Module Card.

(** Lines 21-28 and 801-808 of page.js.  Lines 24-31 of part_001 hold the
    same table with other bytes for each emoji, see [PageTab.roleConfig]. *)
Record RoleCfg := {
  stars : nat;
  rarity : string;
  emoji : string;
  color : string;
  colorDark : string
}.

Definition roleConfig : list (string * RoleCfg) :=
  [ ("Initiate",
     {| stars := 1; rarity := "INITIATE"; emoji := "🌱";
        color := "#2ECC71"; colorDark := "#1A7A3A" |});
    ("Ritty Bitty",
     {| stars := 2; rarity := "COMMON"; emoji := "🐱";
        color := "#88BBFF"; colorDark := "#4488CC" |});
    ("Ritty",
     {| stars := 3; rarity := "RARE"; emoji := "🕯️";
        color := "#AA66FF"; colorDark := "#553399" |});
    ("Mage",
     {| stars := 3; rarity := "MAGE"; emoji := "🔮";
        color := "#CC44FF"; colorDark := "#6622AA" |});
    ("Ritualist",
     {| stars := 4; rarity := "EPIC"; emoji := "🔥";
        color := "#FF8833"; colorDark := "#CC4400" |});
    ("Radiant Ritualist",
     {| stars := 5; rarity := "LEGENDARY"; emoji := "✦";
        color := "#FFD700"; colorDark := "#996600" |}) ].

Fixpoint role_lookup (role : string) (table : list (string * RoleCfg))
  : option RoleCfg :=
  match table with
  | [] => None
  | (k, c) :: rest => if String.eqb k role then Some c else role_lookup role rest
  end.

(** [cfg = selectedRole ? roleConfig[selectedRole] : null] *)
Definition cfg (selectedRole : string) : option RoleCfg :=
  if String.eqb selectedRole "" then None
  else role_lookup selectedRole roleConfig.

(** The argument of [fmtNum]: [null], [undefined], or the Number nearest
    to the integer [n] ([n] itself up to [2^53]). *)
Inductive Count :=
| CNull
| CUndefined
| CInt (n : Z).

(** [fmtNum], with the literal of its first line: lines 47-52 and 825-830
    of page.js, lines 48-53 of part_001.  The two comparisons are made on
    the Number; since [1e6] and [1e3] are Numbers and rounding is monotone,
    they come out as on [n]. *)
Definition fmtNum_with (dash : string) (n : Count) : string :=
  match n with
  | CNull | CUndefined => dash
  | CInt n =>
      if (1000000 <=? n)%Z then
        Number.toFixed1 (Number.div (Number.of_Z n) (Number.of_Z 1000000)) ++ "M"
      else if (1000 <=? n)%Z then
        Number.toFixed1 (Number.div (Number.of_Z n) (Number.of_Z 1000)) ++ "K"
      else Number.toString_Z n
  end.

(** [fmtNum] of page.js (both documents): line 48 returns the dash
    U+2014. *)
Definition fmtNum : Count -> string := fmtNum_with "—".

(** The profile record of [useState] (lines 202-205). *)
Record Profile := {
  username : string;
  displayName : JsVal.t;
  avatarUrl : JsVal.t;
  bio : JsVal.t;
  followers : JsVal.t;
  following : JsVal.t;
  tweets : JsVal.t
}.

Definition initialProfile : Profile :=
  {| username := "";
     displayName := JsVal.Str "USERNAME";
     avatarUrl := JsVal.Str "";
     bio := JsVal.Str "Stay Ritualized";
     followers := JsVal.Null;
     following := JsVal.Null;
     tweets := JsVal.Null |}.

(** The component state.  The seven hooks below are declared by the three
    documents alike; [extra] holds the hooks only some of them declare
    ([exportStatus], [iosSaveDataURL]). *)
Record State (X : Type) := mkState {
  handle : string;
  selectedRole : string;
  loading : bool;
  exporting : bool;
  error : string;
  profile : Profile;
  showCard : bool;
  extra : X
}.
Arguments mkState {X}.
Arguments handle {X}.
Arguments selectedRole {X}.
Arguments loading {X}.
Arguments exporting {X}.
Arguments error {X}.
Arguments profile {X}.
Arguments showCard {X}.
Arguments extra {X}.

Definition initialState {X} (x : X) : State X :=
  mkState "" "" false false "" initialProfile false x.

Section Setters.
Context {X : Type}.

Definition setHandle (v : string) (s : State X) : State X :=
  mkState v (selectedRole s) (loading s) (exporting s) (error s)
          (profile s) (showCard s) (extra s).
Definition setSelectedRole (v : string) (s : State X) : State X :=
  mkState (handle s) v (loading s) (exporting s) (error s)
          (profile s) (showCard s) (extra s).
Definition setLoading (v : bool) (s : State X) : State X :=
  mkState (handle s) (selectedRole s) v (exporting s) (error s)
          (profile s) (showCard s) (extra s).
Definition setExporting (v : bool) (s : State X) : State X :=
  mkState (handle s) (selectedRole s) (loading s) v (error s)
          (profile s) (showCard s) (extra s).
Definition setError (v : string) (s : State X) : State X :=
  mkState (handle s) (selectedRole s) (loading s) (exporting s) v
          (profile s) (showCard s) (extra s).
Definition setProfile (v : Profile) (s : State X) : State X :=
  mkState (handle s) (selectedRole s) (loading s) (exporting s) (error s)
          v (showCard s) (extra s).
Definition setShowCard (v : bool) (s : State X) : State X :=
  mkState (handle s) (selectedRole s) (loading s) (exporting s) (error s)
          (profile s) v (extra s).
Definition setExtra (v : X) (s : State X) : State X :=
  mkState (handle s) (selectedRole s) (loading s) (exporting s) (error s)
          (profile s) (showCard s) v.
End Setters.

(** *** generateCard (lines 215-247 of part_001; 115-162 and 1065-1097
    of page.js) *)

(** What [fetch] and [res.json()] can do. *)
Inductive JsonResult :=
| JsonRejects
| JsonResolves (data : JsVal.t).

Inductive FetchResult :=
| FetchRejects
| FetchResolves (ok : bool) (json : JsonResult).

Local Open Scope exec_scope.

(** The locals of lines 223-224, kept in a [Profile]. *)
Definition locals (username : string) : Profile :=
  {| username := username;
     displayName := JsVal.Str username;
     avatarUrl := JsVal.Str "";
     bio := JsVal.Str "Stay Ritualized";
     followers := JsVal.Null;
     following := JsVal.Null;
     tweets := JsVal.Null |}.

Definition assign_displayName (v : JsVal.t) : Exec.M Profile unit :=
  Exec.modify (fun l =>
    Build_Profile (username l) v (avatarUrl l) (bio l)
                  (followers l) (following l) (tweets l)).
Definition assign_avatarUrl (v : JsVal.t) : Exec.M Profile unit :=
  Exec.modify (fun l =>
    Build_Profile (username l) (displayName l) v (bio l)
                  (followers l) (following l) (tweets l)).
Definition assign_bio (v : JsVal.t) : Exec.M Profile unit :=
  Exec.modify (fun l =>
    Build_Profile (username l) (displayName l) (avatarUrl l) v
                  (followers l) (following l) (tweets l)).
Definition assign_counts (a b c : JsVal.t) : Exec.M Profile unit :=
  Exec.modify (fun l =>
    Build_Profile (username l) (displayName l) (avatarUrl l) (bio l) a b c).

(** Lines 232-240, for [u = data.user]. *)
Definition read_user (u : JsVal.t) : Exec.M Profile unit :=
  l <- Exec.get ;;
  assign_displayName
    (JsVal.or (JsVal.prop u "name") (JsVal.Str (username l))) ;;
  assign_avatarUrl
    (JsVal.or
       (JsVal.or
          (JsVal.or
             (JsVal.or (JsVal.prop u "avatar_url")
                       (JsVal.prop u "profile_image_url_https"))
             (JsVal.prop u "profile_image_url"))
          (JsVal.and (JsVal.prop u "avatar")
                     (JsVal.prop (JsVal.prop u "avatar") "url")))
       (JsVal.Str "")) ;;
  l <- Exec.get ;;
  (* lines 235-236: both tests read the same variable; the second one is
     reached with a string in it *)
  Exec.when (JsVal.truthy (avatarUrl l))
    (match avatarUrl l with
     | JsVal.Str a =>
         let a' := JsString.replace "_normal" "_400x400" a in
         assign_avatarUrl (JsVal.Str a') ;;
         Exec.when (JsVal.truthy (JsVal.Str a'))
           (match JsString.encodeURIComponent a' with
            | Some e => assign_avatarUrl (JsVal.Str ("/api/img?url=" ++ e))
            | None => Exec.throw                              (* URIError *)
            end)
     | _ => Exec.throw            (* [avatarUrl.replace] is not a function *)
     end) ;;
  l <- Exec.get ;;
  assign_bio
    (JsVal.or (JsVal.or (JsVal.prop u "description") (JsVal.prop u "bio"))
              (bio l)) ;;
  assign_counts
    (JsVal.coalesce
       (JsVal.coalesce (JsVal.prop u "followers_count") (JsVal.prop u "followers"))
       JsVal.Null)
    (JsVal.coalesce
       (JsVal.coalesce (JsVal.prop u "following_count") (JsVal.prop u "friends_count"))
       JsVal.Null)
    (JsVal.coalesce
       (JsVal.coalesce (JsVal.prop u "statuses_count") (JsVal.prop u "tweet_count"))
       JsVal.Null).

(** The [try] block of lines 226-242. *)
Definition try_block (r : FetchResult) : Exec.M Profile unit :=
  match r with
  | FetchRejects => Exec.throw
  | FetchResolves ok json =>
      Exec.when (negb ok) Exec.throw ;;            (* "not found" *)
      match json with
      | JsonRejects => Exec.throw
      | JsonResolves data =>
          Exec.when (JsVal.truthy (JsVal.opt_prop data "user"))
                    (read_user (JsVal.prop data "user"))
      end
  end.

(** Lines 223-244: the record handed to [setProfile]. *)
Definition resolveProfile (username : string) (r : FetchResult) : Profile :=
  Exec.exec (Exec.try_catch (try_block r) (Exec.ret tt)) (locals username).

(** Line 217. *)
Definition normalizeHandle (handle : string) : string :=
  JsString.trim (JsString.replace "@" "" handle).

Definition profileUrl (username : string) : string :=
  "https://api.fxtwitter.com/" ++ username.

(** Shapes of the raw handle: a text without ["@"], and white space, that
    is a sequence of the characters [trim] removes. *)
Fixpoint no_at (s : string) : bool :=
  match s with
  | "" => true
  | String c r => negb (Ascii.eqb c "@") && no_at r
  end.

Inductive blank : list ascii -> Prop :=
| blank_nil : blank []
| blank_1 a l : JsString.ws1 a = true -> blank l -> blank (a :: l)
| blank_2 a b l : JsString.ws2 a b = true -> blank l -> blank (a :: b :: l)
| blank_3 a b c l :
    JsString.ws3 a b c = true -> blank l -> blank (a :: b :: c :: l).

Section GenerateCard.
Context {X : Type}.

(** Lines 216-221, up to the [fetch]: the state after the synchronous
    part and, when the lookup is issued, the handle it is issued for. *)
Definition generateCard_begin (s : State X) : State X * option string :=
  let s := setError "" s in
  let username := normalizeHandle (handle s) in
  if String.eqb username "" then
    (setError "Please enter your X/Twitter username" s, None)
  else if String.eqb (selectedRole s) "" then
    (setError "Please select your role" s, None)
  else (setLoading true s, Some username).

(** Lines 223-246, resumed with the outcome of the lookup in the state
    [s] of that moment. *)
Definition generateCard_settle (username : string) (r : FetchResult)
           (s : State X) : State X :=
  setLoading false
    (setShowCard true (setProfile (resolveProfile username r) s)).

(** One whole call with nothing else happening in between: the final
    state and the URLs fetched. *)
Definition generateCard (fetch : string -> FetchResult) (s : State X)
  : State X * list string :=
  match generateCard_begin s with
  | (s', None) => (s', [])
  | (s', Some username) =>
      (generateCard_settle username (fetch (profileUrl username)) s',
       [profileUrl username])
  end.
End GenerateCard.

(** *** The card subtree (lines 430-505 of part_001), as far as it
    depends on the role and the profile *)

Inductive Avatar :=
| AvatarImg (src : JsVal.t)
| AvatarPlaceholder (emoji : string).

Record CardView := {
  badge : string;              (* {cfg.rarity} *)
  cardName : JsVal.t;          (* {profile.displayName} *)
  avatar : Avatar;
  sideHandle : string;         (* @{profile.username} *)
  starsRow : list string;      (* one <Star color> per star *)
  bioText : JsVal.t            (* {profile.bio || "Stay Ritualized"} *)
}.

(** [showCard && cfg && (...)] *)
Definition renderCard {X} (s : State X) : option CardView :=
  if showCard s then
    match cfg (selectedRole s) with
    | Some c =>
        Some {| badge := rarity c;
                cardName := displayName (profile s);
                avatar :=
                  if JsVal.truthy (avatarUrl (profile s))
                  then AvatarImg (avatarUrl (profile s))
                  else AvatarPlaceholder (emoji c);
                sideHandle := "@" ++ username (profile s);
                starsRow := repeat (color c) (stars c);
                bioText :=
                  JsVal.or (bio (profile s)) (JsVal.Str "Stay Ritualized") |}
    | None => None
    end
  else None.

(** [stageRef.current] is set while the card subtree is mounted. *)
Definition stageMounted {X} (s : State X) : bool :=
  match renderCard s with Some _ => true | None => false end.

(** *** What the statements about the record and the form speak of *)

(** The address line 236 builds for the avatar, when
    [encodeURIComponent] returns. *)
Definition relayed (src : string) : option string :=
  match JsString.encodeURIComponent src with
  | Some e => Some ("/api/img?url=" ++ e)%string
  | None => None
  end.

(** Lines 481-488: the followers block is rendered when
    [profile.followers !== null], and hands [profile.followers] to
    [fmtNum]. *)
Definition followersStat (p : Profile) : option JsVal.t :=
  match followers p with
  | JsVal.Null => None
  | v => Some v
  end.

(** Line 371: the form is rendered when [!showCard]. *)
Definition formShown {X} (s : State X) : bool := negb (showCard s).

(** What the [try] block keeps true of the locals of lines 223-224. *)
Definition sound (u : string) (l : Profile) : Prop :=
  username l = u
  /\ JsVal.truthy (displayName l) = true
  /\ JsVal.truthy (bio l) = true
  /\ followers l <> JsVal.Undefined
  /\ following l <> JsVal.Undefined
  /\ tweets l <> JsVal.Undefined.

(** The hooks an export has no reason to write. *)
Definition formData {X} (s : State X)
  : string * string * bool * string * Profile * bool :=
  (handle s, selectedRole s, loading s, error s, profile s, showCard s).

End Card.

(** ** The browser as the export code sees it *)

Module Browser.

Definition Blob := list Byte.byte.

(** [htmlToImage.toBlob] *)
Inductive BlobResult :=
| BlobThrows
| BlobNull
| BlobOk (blob : Blob).

(** The documents written into the pre-opened tab. *)
Inductive Page :=
| LoadingPage
| ImagePage (dataURL filename : string)
| FailedPage.

(** When [closed] is read on the pre-opened window. *)
Inductive Moment := AfterOpen | AfterAwaits.

Inductive Callback :=
| ClearExportStatus                     (* () => setExportStatus("") *)
| Revoke (url : string)                 (* () => URL.revokeObjectURL(url) *)
| RemoveThenRevokeIn (ms : N) (url : string).
    (* () => { a.remove(); setTimeout(() => URL.revokeObjectURL(url), ms) } *)

(** What an export does to the browser, in order. *)
Inductive Effect :=
| WindowOpen (url target : string)
| DocumentWrite (page : Page)           (* on the pre-opened window *)
| Navigate (url : string)               (* its location.href = url *)
| WindowClose                           (* its close() *)
| ToBlob (pixelRatio : nat)
| CreateObjectURL (url : string)
| AnchorClick (href download : string)
| Share (filename : string)
| Alert (msg : string)
| ConsoleError
| SetTimeout (ms : N) (cb : Callback)
| RequestAnimationFrame (cb : Callback).

(** The answers of the browser during one export.  [window_open] is
    [false] when the synchronous [window.open] gives no window ([null],
    or an exception where the caller catches it); [write_ok] tells
    whether [document.open/write/close] on the pre-opened window goes
    through. *)
Record t := {
  ios : bool;
  window_open : bool;
  closed : Moment -> bool;
  write_ok : Page -> bool;
  toBlob : nat -> BlobResult;
  readAsDataURL : Blob -> option string;
  createObjectURL : Blob -> string;
  canShare : bool;
  share : bool                          (* navigator.share resolves *)
}.

(** The component state together with the effects performed so far. *)
Record World (X : Type) := mkWorld {
  ui : Card.State X;
  trace : list Effect
}.
Arguments mkWorld {X}.
Arguments ui {X}.
Arguments trace {X}.

(** A world in which nothing has been done yet. *)
Definition fresh {X} (s : Card.State X) : World X := mkWorld s [].

Section World.
Context {X : Type}.

Definition emit (e : Effect) : Exec.M (World X) unit :=
  Exec.modify (fun w => mkWorld (ui w) (trace w ++ [e])).

Definition update (f : Card.State X -> Card.State X) : Exec.M (World X) unit :=
  Exec.modify (fun w => mkWorld (f (ui w)) (trace w)).

Local Open Scope exec_scope.

Definition call_toBlob (b : t) (pixelRatio : nat)
  : Exec.M (World X) (option Blob) :=
  emit (ToBlob pixelRatio) ;;
  match toBlob b pixelRatio with
  | BlobThrows => Exec.throw
  | BlobNull => Exec.ret None
  | BlobOk blob => Exec.ret (Some blob)
  end.

(** renderCardBlob (lines 96-117 of part_001, 873-894 of page.js). *)
Definition renderCardBlob (b : t) : Exec.M (World X) Blob :=
  first <- Exec.try_catch (call_toBlob b 3) (Exec.ret None) ;;
  match first with
  | Some blob => Exec.ret blob                   (* [if (blob) return blob] *)
  | None =>
      blob <- call_toBlob b 2 ;;
      match blob with
      | None => Exec.throw                       (* "Image export returned null" *)
      | Some blob => Exec.ret blob
      end
  end.

(** anchorDownload (lines 120-134 of part_001, 897-911 of page.js). *)
Definition anchorDownload (b : t) (blob : Blob) (filename : string)
  : Exec.M (World X) unit :=
  let url := createObjectURL b blob in
  emit (CreateObjectURL url) ;;
  emit (AnchorClick url filename) ;;
  emit (RequestAnimationFrame (RemoveThenRevokeIn 10000%N url)).

(** blobToDataURL *)
Definition blobToDataURL (b : t) (blob : Blob) : Exec.M (World X) string :=
  match readAsDataURL b blob with
  | Some dataURL => Exec.ret dataURL
  | None => Exec.throw
  end.

(** [await waitForImages(stageRef.current)]: the per-image failures are
    caught inside; a [null] root throws. *)
Definition waitForImages : Exec.M (World X) unit :=
  w <- Exec.get ;;
  Exec.when (negb (Card.stageMounted (ui w))) Exec.throw.

End World.

(** [ritual-card-${profile.username || "card"}.png] *)
Definition filename_of {X} (s : Card.State X) : string :=
  "ritual-card-"
  ++ (if String.eqb (Card.username (Card.profile s)) "" then "card"
      else Card.username (Card.profile s))
  ++ ".png".

(** The object URLs a trace creates, and those whose revocation it
    schedules. *)
Fixpoint created (tr : list Effect) : list string :=
  match tr with
  | [] => []
  | CreateObjectURL u :: rest => u :: created rest
  | _ :: rest => created rest
  end.

Fixpoint revoked (tr : list Effect) : list string :=
  match tr with
  | [] => []
  | SetTimeout _ (Revoke u) :: rest => u :: revoked rest
  | RequestAnimationFrame (RemoveThenRevokeIn _ u) :: rest => u :: revoked rest
  | _ :: rest => revoked rest
  end.

(** The pixel ratios of the rasterizations of a trace, in order. *)
Fixpoint rasterizations (tr : list Effect) : list nat :=
  match tr with
  | [] => []
  | ToBlob r :: rest => r :: rasterizations rest
  | _ :: rest => rasterizations rest
  end.

Definition opens_window (e : Effect) : bool :=
  match e with WindowOpen _ _ => true | _ => false end.

Definition closes_window (e : Effect) : bool :=
  match e with WindowClose => true | _ => false end.

(** *** Reading a trace *)

(** The world after further effects. *)
Definition did {X} (w : World X) (effects : list Effect) : World X :=
  mkWorld (ui w) (trace w ++ effects).

(** A rasterization that yields no bytes: [toBlob] throws or resolves to
    [null]. *)
Definition failed (r : BlobResult) : Prop := forall blob, r <> BlobOk blob.

(** The pixel ratios renderCardBlob asks for: the first attempt and, when
    it fails, the retry. *)
Definition attempts (b : t) : list nat :=
  match toBlob b 3 with BlobOk _ => [3] | _ => [3; 2] end.

(** A computation that rasterizes nothing. *)
Definition still {X A} (m : Exec.M (World X) A) : Prop :=
  forall r, Exec.keeps (fun w => rasterizations (trace w) = r) m.

(** Object URLs: whatever is created is scheduled for revocation. *)
Definition balanced {X} (w : World X) : Prop :=
  created (trace w) = revoked (trace w).

(** No window is closed. *)
Definition none_closed {X} (w : World X) : Prop :=
  existsb closes_window (trace w) = false.

(** No window is opened. *)
Definition none_opened {X} (w : World X) : Prop :=
  existsb opens_window (trace w) = false.

(** The anchors a trace clicks: address and file name. *)
Fixpoint anchorClicks (tr : list Effect) : list (string * string) :=
  match tr with
  | [] => []
  | AnchorClick href download :: rest => (href, download) :: anchorClicks rest
  | _ :: rest => anchorClicks rest
  end.

(** Effects on a window other than the page's own. *)
Definition touches_window (e : Effect) : bool :=
  match e with
  | WindowOpen _ _ | DocumentWrite _ | Navigate _ | WindowClose => true
  | _ => false
  end.

(** No window has been touched. *)
Definition windowless {X} (w : World X) : Prop :=
  existsb touches_window (trace w) = false.

(** No object URL has been created and no anchor clicked. *)
Definition urlless {X} (w : World X) : Prop :=
  created (trace w) = [] /\ anchorClicks (trace w) = [].

(** The rasterizations so far are [R]. *)
Definition rastered {X} (R : list nat) (w : World X) : Prop :=
  rasterizations (trace w) = R.

(** The hooks of the form are [c]. *)
Definition form_is {X} (c : string * string * bool * string * Card.Profile * bool)
           (w : World X) : Prop :=
  Card.formData (ui w) = c.

(** The bytes renderCardBlob returns. *)
Definition rendered (b : t) : option Blob :=
  match toBlob b 3 with
  | BlobOk blob => Some blob
  | _ => match toBlob b 2 with BlobOk blob => Some blob | _ => None end
  end.

(** The steps of an anchor download of [blob] under the name [f]. *)
Definition anchorSteps (b : t) (blob : Blob) (f : string) : list Effect :=
  [ CreateObjectURL (createObjectURL b blob);
    AnchorClick (createObjectURL b blob) f;
    RequestAnimationFrame (RemoveThenRevokeIn 10000%N (createObjectURL b blob)) ].

End Browser.

(** ** The page of [src/unnamed/part_001] ("v3"): pre-opened tab *)

Module PageTab.

Import Card Browser.
Local Open Scope exec_scope.

(** [roleConfig] of this document (lines 24-31): the table of page.js
    with other bytes for each emoji. *)
Definition roleConfig : list (string * RoleCfg) :=
  [ ("Initiate",
     {| stars := 1; rarity := "INITIATE"; emoji := "ðŸŒ±";
        color := "#2ECC71"; colorDark := "#1A7A3A" |});
    ("Ritty Bitty",
     {| stars := 2; rarity := "COMMON"; emoji := "ðŸ±";
        color := "#88BBFF"; colorDark := "#4488CC" |});
    ("Ritty",
     {| stars := 3; rarity := "RARE"; emoji := "ðŸ•¯ï¸";
        color := "#AA66FF"; colorDark := "#553399" |});
    ("Mage",
     {| stars := 3; rarity := "MAGE"; emoji := "ðŸ”®";
        color := "#CC44FF"; colorDark := "#6622AA" |});
    ("Ritualist",
     {| stars := 4; rarity := "EPIC"; emoji := "ðŸ”¥";
        color := "#FF8833"; colorDark := "#CC4400" |});
    ("Radiant Ritualist",
     {| stars := 5; rarity := "LEGENDARY"; emoji := "ï¿½ï¿½";
        color := "#FFD700"; colorDark := "#996600" |}) ].

(** [fmtNum] of this document: line 49 returns the dash U+2014 encoded
    twice. *)
Definition fmtNum : Count -> string := fmtNum_with "â€”".

(** The hook only this document and the next declare: [exportStatus].
    The status messages below are the bytes of lines 302-343. *)
Definition State := Card.State string.
Definition World := Browser.World string.

Definition initial : State := initialState "".

Definition setExportStatus (v : string) (s : State) : State := setExtra v s.
Definition exportStatus (s : State) : string := extra s.

(** reset (lines 249-258); [window.scrollTo] is left out. *)
Definition reset (s : State) : State :=
  setProfile initialProfile
    (setExportStatus ""
       (setError ""
          (setSelectedRole "" (setHandle "" (setShowCard false s))))).

(** What the closure keeps across the awaits. *)
Record Task := {
  task_ios : bool;
  task_filename : string;
  task_preTab : bool                    (* [preTab] is a window *)
}.

(** fillTabWithImage (lines 141-192). *)
Definition fillTabWithImage (b : Browser.t) (tab : bool)
           (dataURL filename : string) : Exec.M World unit :=
  if negb tab || closed b AfterAwaits then
    emit (WindowOpen dataURL "_blank")
  else if write_ok b (ImagePage dataURL filename) then
    emit (DocumentWrite (ImagePage dataURL filename))
  else emit (Navigate dataURL).

(** download, lines 263-302: what runs before the first [await] once the
    guard of line 261 is passed. *)
Definition download_sync (b : Browser.t) (filename : string)
  : Exec.M World Task :=
  preTab <- (if ios b then
               emit (WindowOpen "about:blank" "_blank") ;;
               let preTab := window_open b in
               Exec.when (preTab && negb (closed b AfterOpen)
                          && write_ok b LoadingPage)
                         (emit (DocumentWrite LoadingPage)) ;;
               Exec.ret preTab
             else Exec.ret false) ;;
  update (setExporting true) ;;
  update (setExportStatus "Renderingâ€¦") ;;
  Exec.ret {| task_ios := ios b; task_filename := filename;
              task_preTab := preTab |}.

(** Lines 261-302: the guard and the synchronous part. *)
Definition download_begin (b : Browser.t) (w : World) : World * option Task :=
  if negb (stageMounted (ui w)) || exporting (ui w) then (w, None)
  else
    let '(r, w') := download_sync b (filename_of (ui w)) w in (w', r).

(** Lines 304-347: the [try] / [catch] / [finally] after the first
    [await], run in the state of the moment it resumes. *)
Definition download_try (b : Browser.t) (t : Task) : Exec.M World unit :=
  waitForImages ;;
  update (setExportStatus "Exporting imageâ€¦") ;;
  blob <- renderCardBlob b ;;
  if task_ios t then
    update (setExportStatus "Preparing imageâ€¦") ;;
    dataURL <- blobToDataURL b blob ;;
    fillTabWithImage b (task_preTab t) dataURL (task_filename t) ;;
    update (setExportStatus "Long-press the image to save it âœ“")
  else
    update (setExportStatus "Downloadingâ€¦") ;;
    anchorDownload b blob (task_filename t) ;;
    update (setExportStatus "Downloaded! âœ“").

Definition download_catch (b : Browser.t) (t : Task) : Exec.M World unit :=
  emit ConsoleError ;;
  Exec.when (task_preTab t && negb (closed b AfterAwaits)
             && write_ok b FailedPage)
            (emit (DocumentWrite FailedPage)) ;;
  update (setExportStatus "Export failed â€” tap to retry").

Definition download_finally (w : World) : World :=
  mkWorld (setExporting false (ui w))
          (trace w ++ [SetTimeout 5000%N ClearExportStatus]).

Definition download_resume (b : Browser.t) (t : Task) : Exec.M World unit :=
  Exec.finally (Exec.try_catch (download_try b t) (download_catch b t))
               download_finally.

(** One whole export with nothing else happening in between. *)
Definition download (b : Browser.t) (w : World) : World :=
  match download_begin b w with
  | (w', None) => w'
  | (w', Some t) => Exec.exec (download_resume b t) w'
  end.

(** What the synchronous part does to the tab it opens. *)
Definition tabOpening (b : Browser.t) : list Effect :=
  WindowOpen "about:blank" "_blank"
  :: (if window_open b && negb (closed b AfterOpen) && write_ok b LoadingPage
      then [DocumentWrite LoadingPage] else []).

(** Where fillTabWithImage puts the image. *)
Definition tabFilling (b : Browser.t) (dataURL filename : string) : Effect :=
  if negb (window_open b) || closed b AfterAwaits then
    WindowOpen dataURL "_blank"
  else if write_ok b (ImagePage dataURL filename) then
    DocumentWrite (ImagePage dataURL filename)
  else Navigate dataURL.

End PageTab.

(** ** The page of [src/app/page.js], second document ("v4"): overlay *)

Module PageOverlay.

Import Card Browser.
Local Open Scope exec_scope.

(** The hooks of lines 1046 and 1050. *)
Record Extra := {
  exportStatus : string;
  iosSaveDataURL : option string
}.

Definition State := Card.State Extra.
Definition World := Browser.World Extra.

Definition initial : State :=
  initialState {| exportStatus := ""; iosSaveDataURL := None |}.

Definition setExportStatus (v : string) (s : State) : State :=
  setExtra {| exportStatus := v;
              iosSaveDataURL := iosSaveDataURL (extra s) |} s.
Definition setIosSaveDataURL (v : option string) (s : State) : State :=
  setExtra {| exportStatus := exportStatus (extra s);
              iosSaveDataURL := v |} s.

(** reset (lines 1099-1109); [window.scrollTo] is left out. *)
Definition reset (s : State) : State :=
  setProfile initialProfile
    (setIosSaveDataURL None
       (setExportStatus ""
          (setError ""
             (setSelectedRole "" (setHandle "" (setShowCard false s)))))).

Record Task := {
  task_ios : bool;
  task_filename : string
}.

(** download, lines 1114-1118: what runs before the first [await] once
    the guard of line 1112 is passed. *)
Definition download_sync (b : Browser.t) (filename : string)
  : Exec.M World Task :=
  update (setExporting true) ;;
  update (setExportStatus "Rendering…") ;;
  Exec.ret {| task_ios := ios b; task_filename := filename |}.

(** Lines 1112-1118: the guard and the synchronous part. *)
Definition download_begin (b : Browser.t) (w : World) : World * option Task :=
  if negb (stageMounted (ui w)) || exporting (ui w) then (w, None)
  else
    let '(r, w') := download_sync b (filename_of (ui w)) w in (w', r).

(** Lines 1120-1146. *)
Definition download_try (b : Browser.t) (t : Task) : Exec.M World unit :=
  waitForImages ;;
  update (setExportStatus "Exporting image…") ;;
  blob <- renderCardBlob b ;;
  if task_ios t then
    update (setExportStatus "Preparing…") ;;
    dataURL <- blobToDataURL b blob ;;
    update (setIosSaveDataURL (Some dataURL)) ;;
    update (setExportStatus "Hold the image to save ✓")
  else
    update (setExportStatus "Downloading…") ;;
    anchorDownload b blob (task_filename t) ;;
    update (setExportStatus "Downloaded! ✓").

Definition download_catch : Exec.M World unit :=
  emit ConsoleError ;;
  update (setExportStatus "Export failed — try again").

Definition download_finally (w : World) : World :=
  mkWorld (setExporting false (ui w))
          (trace w ++ [SetTimeout 4000%N ClearExportStatus]).

Definition download_resume (b : Browser.t) (t : Task) : Exec.M World unit :=
  Exec.finally (Exec.try_catch (download_try b t) download_catch)
               download_finally.

Definition download (b : Browser.t) (w : World) : World :=
  match download_begin b w with
  | (w', None) => w'
  | (w', Some t) => Exec.exec (download_resume b t) w'
  end.

(** The data URL the overlay shows, if any. *)
Definition overlayURL (w : World) : option string :=
  iosSaveDataURL (extra (ui w)).

End PageOverlay.

(** ** The page of [src/app/page.js], first document: share sheet or
    pre-opened popup *)

Module PageShare.

Import Card Browser.
Local Open Scope exec_scope.

(** This document declares the seven shared hooks only. *)
Definition State := Card.State unit.
Definition World := Browser.World unit.

Definition initial : State := initialState tt.

(** reset (lines 164-179); [window.scrollTo] is left out. *)
Definition reset (s : State) : State :=
  setProfile initialProfile
    (setError "" (setSelectedRole "" (setHandle "" (setShowCard false s)))).

(** What the closure keeps across the awaits; [fileName] on line 203 is
    built from the [profile] of the render the handler belongs to. *)
Record Task := {
  task_ios : bool;
  task_popup : bool;                    (* [popup] is a window *)
  task_fileName : string
}.

(** download, lines 185-189: what runs before the first [await] once the
    test of line 182 is passed.  [window.open] returns [null] when the
    popup is blocked. *)
Definition download_sync (b : Browser.t) (fileName : string)
  : Exec.M World Task :=
  popup <- (if ios b then
              emit (WindowOpen "" "_blank") ;; Exec.ret (window_open b)
            else Exec.ret false) ;;
  update (setExporting true) ;;
  Exec.ret {| task_ios := ios b; task_popup := popup;
              task_fileName := fileName |}.

(** Lines 182-191: the test of the stage and the synchronous part. *)
Definition download_begin (b : Browser.t) (w : World) : World * option Task :=
  if negb (stageMounted (ui w)) then (w, None)
  else
    let '(r, w') := download_sync b (filename_of (ui w)) w in (w', r).

(** [popup?.close()] *)
Definition close_popup (t : Task) : Exec.M World unit :=
  Exec.when (task_popup t) (emit WindowClose).

(** Lines 213-229: hand the object URL to the popup or to an anchor. *)
Definition deliver (b : Browser.t) (t : Task) (blob : Blob)
  : Exec.M World unit :=
  let url := createObjectURL b blob in
  emit (CreateObjectURL url) ;;
  if task_ios t && task_popup t then
    emit (Navigate url) ;;
    emit (SetTimeout 60000%N (Revoke url))
  else
    emit (AnchorClick url (task_fileName t)) ;;
    emit (SetTimeout 2000%N (Revoke url)).

(** Lines 191-229, after the first [await]. *)
Definition download_try (b : Browser.t) (t : Task) : Exec.M World unit :=
  waitForImages ;;
  blob <- call_toBlob b 3 ;;
  match blob with
  | None => Exec.throw                             (* "Blob failed" *)
  | Some blob =>
      if canShare b then
        emit (Share (task_fileName t)) ;;
        Exec.when (negb (share b)) Exec.throw ;;
        close_popup t
      else deliver b t blob
  end.

Definition download_catch (t : Task) : Exec.M World unit :=
  emit ConsoleError ;;
  close_popup t ;;
  emit (Alert "Export failed on iOS. Try again.").

Definition download_finally (w : World) : World :=
  mkWorld (setExporting false (ui w)) (trace w).

Definition download_resume (b : Browser.t) (t : Task) : Exec.M World unit :=
  Exec.finally (Exec.try_catch (download_try b t) (download_catch t))
               download_finally.

Definition download (b : Browser.t) (w : World) : World :=
  match download_begin b w with
  | (w', None) => w'
  | (w', Some t) => Exec.exec (download_resume b t) w'
  end.

(** What the synchronous part opens. *)
Definition shareOpening (b : Browser.t) : list Effect :=
  if ios b then [WindowOpen "" "_blank"] else [].

(** How an object URL is handed over. *)
Definition shareHandover (b : Browser.t) (blob : Blob) (f : string)
  : list Effect :=
  CreateObjectURL (createObjectURL b blob)
  :: (if ios b && window_open b then
        [ Navigate (createObjectURL b blob);
          SetTimeout 60000%N (Revoke (createObjectURL b blob)) ]
      else
        [ AnchorClick (createObjectURL b blob) f;
          SetTimeout 2000%N (Revoke (createObjectURL b blob)) ]).

End PageShare.

(** ** Handlers interleaved

    The handlers of a page run one at a time; an [async] handler gives way
    at its first [await] and resumes later, other handlers running in
    between.  A session keeps the exports and profile lookups that are
    suspended. *)

Module Session.

Import Card Browser.

Section Page.
Context {X Task : Type}.
Variable download_begin : Browser.t -> World X -> World X * option Task.
Variable download_resume : Browser.t -> Task -> Exec.M (World X) unit.
Variable reset : State X -> State X.
(** The timer set by [finally], and the close button of the overlay. *)
Variable clearStatus : State X -> State X.
Variable closeOverlay : State X -> State X.

Record Sys := mkSys {
  world : World X;
  exports : list Task;              (* exports in flight *)
  lookups : list string             (* handles being looked up *)
}.

Inductive Event :=
| Typed (text : string)             (* onChange: setHandle *)
| Picked (role : string)            (* setSelectedRole(role) *)
| GenerateClicked
| LookupSettled (i : nat) (r : Card.FetchResult)
| DownloadClicked (b : Browser.t)
| ExportResumed (i : nat) (b : Browser.t)
| ResetClicked
| StatusTimerFired
| OverlayClosed.

Fixpoint remove_nth {A} (i : nat) (l : list A) : list A :=
  match l, i with
  | [], _ => []
  | _ :: r, O => r
  | x :: r, S j => x :: remove_nth j r
  end.

Definition on_ui (f : State X -> State X) (sys : Sys) : Sys :=
  mkSys (mkWorld (f (ui (world sys))) (trace (world sys)))
        (exports sys) (lookups sys).

Definition step (sys : Sys) (e : Event) : Sys :=
  match e with
  | Typed text => on_ui (setHandle text) sys
  | Picked role => on_ui (setSelectedRole role) sys
  | GenerateClicked =>
      match generateCard_begin (ui (world sys)) with
      | (s', None) => on_ui (fun _ => s') sys
      | (s', Some username) =>
          mkSys (mkWorld s' (trace (world sys)))
                (exports sys) (lookups sys ++ [username])
      end
  | LookupSettled i r =>
      match nth_error (lookups sys) i with
      | Some username =>
          mkSys (mkWorld (generateCard_settle username r (ui (world sys)))
                         (trace (world sys)))
                (exports sys) (remove_nth i (lookups sys))
      | None => sys
      end
  | DownloadClicked b =>
      match download_begin b (world sys) with
      | (w', None) => mkSys w' (exports sys) (lookups sys)
      | (w', Some t) => mkSys w' (exports sys ++ [t]) (lookups sys)
      end
  | ExportResumed i b =>
      match nth_error (exports sys) i with
      | Some t =>
          mkSys (Exec.exec (download_resume b t) (world sys))
                (remove_nth i (exports sys)) (lookups sys)
      | None => sys
      end
  | ResetClicked => on_ui reset sys
  | StatusTimerFired => on_ui clearStatus sys
  | OverlayClosed => on_ui closeOverlay sys
  end.

Definition run (sys : Sys) (events : list Event) : Sys :=
  fold_left step events sys.

Definition start (s : State X) : Sys := mkSys (mkWorld s []) [] [].

End Page.

Definition tab_step :=
  step PageTab.download_begin PageTab.download_resume PageTab.reset
       (PageTab.setExportStatus "") (fun s => s).
Definition tab_run := fold_left tab_step.

Definition overlay_step :=
  step PageOverlay.download_begin PageOverlay.download_resume
       PageOverlay.reset (PageOverlay.setExportStatus "")
       (PageOverlay.setIosSaveDataURL None).
Definition overlay_run := fold_left overlay_step.

Definition share_step :=
  step PageShare.download_begin PageShare.download_resume PageShare.reset
       (fun s => s) (fun s => s).
Definition share_run := fold_left share_step.

(** While an export is in flight the flag is up, and there is no second
    one. *)
Definition inv {X Task} (sys : @Sys X Task) : Prop :=
  List.length (exports sys) <= 1
  /\ (exports sys <> [] -> exporting (ui (world sys)) = true).

(** The flag is up exactly while an export is in flight, and there is at
    most one. *)
Definition flagged {X Task} (sys : @Sys X Task) : Prop :=
  List.length (exports sys) <= 1
  /\ (exporting (ui (world sys)) = true <-> exports sys <> []).

(** The lookups in flight are for handles that are not empty, and a card
    that is shown has a record with a handle, a name and a bio. *)
Definition presentable {X Task} (sys : @Sys X Task) : Prop :=
  Forall (fun u => u <> "") (lookups sys)
  /\ (showCard (ui (world sys)) = true ->
      username (profile (ui (world sys))) <> ""
      /\ JsVal.truthy (displayName (profile (ui (world sys)))) = true
      /\ JsVal.truthy (bio (profile (ui (world sys)))) = true).

End Session.

(** ** Concrete inputs used to run the models *)

Module Demo.

Definition request (url : string) : Relay.Request :=
  {| Relay.searchParams := [("url", url)] |}.

(** An upstream that answers every request with a small PNG. *)
Definition png_upstream (url : string) : Relay.FetchResult :=
  Relay.FetchResolves
    {| Relay.up_ok := true; Relay.up_status := 200;
       Relay.up_content_type := Some "image/png";
       Relay.up_arrayBuffer := Some [Byte.x89; Byte.x50; Byte.x4e; Byte.x47] |}.

(** An upstream that answers 404. *)
Definition missing_upstream (url : string) : Relay.FetchResult :=
  Relay.FetchResolves
    {| Relay.up_ok := false; Relay.up_status := 404;
       Relay.up_content_type := Some "text/html";
       Relay.up_arrayBuffer := Some [] |}.

(** A network that is down. *)
Definition no_network (url : string) : Relay.FetchResult := Relay.FetchRejects.

(** The form as filled in by the user, nothing in flight. *)
Definition form {X} (x : X) (handle role : string) : Card.State X :=
  Card.mkState handle role false false "" Card.initialProfile false x.

(** A profile service that knows the user. *)
Definition profile_api (url : string) : Card.FetchResult :=
  Card.FetchResolves true
    (Card.JsonResolves
       (JsVal.Obj
          [ ("code", JsVal.Num (Qmake 200 1));
            ("user",
             JsVal.Obj
               [ ("name", JsVal.Str "Example User");
                 ("avatar_url",
                  JsVal.Str "https://pbs.twimg.com/profile_images/1/abc_normal.jpg");
                 ("description", JsVal.Str "");
                 ("followers", JsVal.Num (Qmake 1234 1)) ]) ])).

Definition profile_api_404 (url : string) : Card.FetchResult :=
  Card.FetchResolves false Card.JsonRejects.


(** The page once a card has been generated for "Example" as Mage. *)
Definition shown {X} (x : X) : Card.State X :=
  fst (Card.generateCard profile_api (form x "@Example " "Mage")).

Definition png : Browser.Blob := [Byte.x89; Byte.x50; Byte.x4e; Byte.x47].

(** A desktop browser on which everything works. *)
Definition desktop : Browser.t :=
  {| Browser.ios := false;
     Browser.window_open := true;
     Browser.closed := fun _ => false;
     Browser.write_ok := fun _ => true;
     Browser.toBlob := fun _ => Browser.BlobOk png;
     Browser.readAsDataURL := fun _ => Some "data:image/png;base64,iVBORw==";
     Browser.createObjectURL := fun _ => "blob:https://card.example/1";
     Browser.canShare := false;
     Browser.share := true |}.

(** The same browser when the first rasterization yields nothing. *)
Definition desktop_retry : Browser.t :=
  {| Browser.ios := false;
     Browser.window_open := true;
     Browser.closed := fun _ => false;
     Browser.write_ok := fun _ => true;
     Browser.toBlob :=
       fun ratio => if Nat.eqb ratio 3 then Browser.BlobNull
                    else Browser.BlobOk png;
     Browser.readAsDataURL := fun _ => Some "data:image/png;base64,iVBORw==";
     Browser.createObjectURL := fun _ => "blob:https://card.example/1";
     Browser.canShare := false;
     Browser.share := true |}.

(** An iPhone that opens the tab and on which every rasterization throws. *)
Definition iphone_failing : Browser.t :=
  {| Browser.ios := true;
     Browser.window_open := true;
     Browser.closed := fun _ => false;
     Browser.write_ok := fun _ => true;
     Browser.toBlob := fun _ => Browser.BlobThrows;
     Browser.readAsDataURL := fun _ => Some "data:image/png;base64,iVBORw==";
     Browser.createObjectURL := fun _ => "blob:https://card.example/1";
     Browser.canShare := false;
     Browser.share := true |}.

(** An iPhone without the share sheet, on which everything works. *)
Definition iphone : Browser.t :=
  {| Browser.ios := true;
     Browser.window_open := true;
     Browser.closed := fun _ => false;
     Browser.write_ok := fun _ => true;
     Browser.toBlob := fun _ => Browser.BlobOk png;
     Browser.readAsDataURL := fun _ => Some "data:image/png;base64,iVBORw==";
     Browser.createObjectURL := fun _ => "blob:https://card.example/1";
     Browser.canShare := false;
     Browser.share := true |}.

(** A session on the share page: a card is generated, then the download
    button is clicked twice before the first export resumes. *)
Definition double_click : list Session.Event :=
  [ Session.Typed "@Example "; Session.Picked "Mage";
    Session.GenerateClicked;
    Session.LookupSettled 0 (profile_api (Card.profileUrl "Example"));
    Session.DownloadClicked desktop; Session.DownloadClicked desktop ].

(** The same session up to the first click. *)
Definition single_click : list Session.Event :=
  [ Session.Typed "@Example "; Session.Picked "Mage";
    Session.GenerateClicked;
    Session.LookupSettled 0 (profile_api (Card.profileUrl "Example"));
    Session.DownloadClicked desktop ].

End Demo.

(** * Properties *)

(** ** Strings *)

Module StringFacts.

Local Open Scope string_scope.

Lemma substring_all (s : string) : substring 0 (String.length s) s = s.
Proof. induction s as [|c s IH]; simpl; [reflexivity | now rewrite IH]. Qed.

Lemma substring_split (s : string) (n : nat) :
  n <= String.length s ->
  s = substring 0 n s ++ substring n (String.length s - n) s.
Proof.
  revert s; induction n as [|n IH]; intros s Hn.
  - rewrite Nat.sub_0_r, substring_all. now destruct s.
  - destruct s as [|c s]; simpl in *; [lia|].
    f_equal. apply IH. lia.
Qed.

Lemma substring_app_suffix (p suf : string) :
  substring (String.length p) (String.length suf) (p ++ suf) = suf.
Proof.
  induction p as [|c p IH]; simpl.
  - induction suf as [|c suf IHs]; simpl; [reflexivity|now f_equal].
  - exact IH.
Qed.

Lemma length_app (a b : string) :
  String.length (a ++ b) = String.length a + String.length b.
Proof. induction a; simpl; auto. Qed.

(** [endsWith] holds exactly of the strings that end with the suffix. *)
Lemma endsWith_spec (s suf : string) :
  Js.endsWith s suf = true <-> exists p, s = p ++ suf.
Proof.
  unfold Js.endsWith. rewrite andb_true_iff, Nat.leb_le, String.eqb_eq.
  split.
  - intros [Hlen Hsub].
    exists (substring 0 (String.length s - String.length suf) s).
    pose proof (substring_split s (String.length s - String.length suf)) as H.
    replace (String.length s - (String.length s - String.length suf))
      with (String.length suf) in H by lia.
    rewrite Hsub in H. apply H. lia.
  - intros [p ->]. rewrite length_app. split; [lia|].
    replace (String.length p + String.length suf - String.length suf)
      with (String.length p) by lia.
    apply substring_app_suffix.
Qed.

Lemma app_assoc (a b c : string) : (a ++ b) ++ c = a ++ (b ++ c).
Proof. induction a as [|x a IH]; simpl; [reflexivity | now rewrite IH]. Qed.

End StringFacts.

(** ** Numbers: the quotient of two integers and its tenths *)

Module NumberFacts.

Import SpecFloat.
Local Open Scope Z_scope.

Lemma digits2_size (p : positive) : digits2_pos p = Pos.size p.
Proof. induction p; simpl; congruence. Qed.

Lemma digits_bounds (p : positive) :
  2 ^ (Zpos (digits2_pos p) - 1) <= Zpos p < 2 ^ Zpos (digits2_pos p).
Proof.
  rewrite digits2_size. split.
  - pose proof (Pos.size_le p) as H.
    assert (H' : 2 ^ Zpos (Pos.size p) <= 2 * Zpos p).
    { change (2 * Zpos p) with (Zpos p~0). rewrite <- Pos2Z.inj_pow. exact H. }
    replace (Zpos (Pos.size p)) with (Z.succ (Zpos (Pos.size p) - 1)) in H' by lia.
    rewrite Z.pow_succ_r in H' by lia. lia.
  - pose proof (Pos.size_gt p) as H. rewrite <- Pos2Z.inj_pow. exact H.
Qed.

Lemma digits_unique (p : positive) (d : Z) :
  2 ^ (d - 1) <= Zpos p < 2 ^ d -> Zpos (digits2_pos p) = d.
Proof.
  intros [Hlo Hhi]. pose proof (digits_bounds p) as [Hlo' Hhi'].
  assert (0 < d).
  { destruct (Z_lt_le_dec 0 d) as [|Hd]; [assumption|].
    destruct (Z.eq_dec d 0) as [->|Hne]; [simpl in Hhi; lia|].
    rewrite Z.pow_neg_r in Hhi by lia. lia. }
  assert (d - 1 < Zpos (digits2_pos p)).
  { apply (Z.pow_lt_mono_r_iff 2); lia. }
  assert (Zpos (digits2_pos p) - 1 < d).
  { apply (Z.pow_lt_mono_r_iff 2); lia. }
  lia.
Qed.

Lemma fexp_normal (x : Z) : -1074 <= x - 53 -> fexp 53 1024 x = x - 53.
Proof. intros H. unfold fexp, emin. lia. Qed.

(** No shift when the mantissa has 53 digits. *)
Lemma shr_fexp_53 (m : positive) (e : Z) (l : location) :
  Zpos (digits2_pos m) = 53 -> -1074 <= e ->
  shr_fexp 53 1024 (Zpos m) e l = (shr_record_of_loc (Zpos m) l, e).
Proof.
  intros Hd He. unfold shr_fexp. cbn [Zdigits2]. rewrite Hd.
  rewrite fexp_normal by lia.
  replace (53 + e - 53 - e) with 0 by lia. reflexivity.
Qed.

(** One shift when it has 54. *)
Lemma shr_fexp_54 (m : positive) (e : Z) (l : location) :
  Zpos (digits2_pos m) = 54 -> -1074 <= e ->
  shr_fexp 53 1024 (Zpos m) e l = (shr_1 (shr_record_of_loc (Zpos m) l), e + 1).
Proof.
  intros Hd He. unfold shr_fexp. cbn [Zdigits2]. rewrite Hd.
  rewrite fexp_normal by lia.
  replace (54 + e - 53 - e) with 1 by lia. reflexivity.
Qed.

Lemma round_aux_exact (m : positive) (e : Z) :
  Zpos (digits2_pos m) = 53 -> -1074 <= e <= 971 ->
  binary_round_aux 53 1024 false (Zpos m) e loc_Exact = S754_finite false m e.
Proof.
  intros Hd He. unfold binary_round_aux.
  rewrite shr_fexp_53 by (assumption || lia). cbn.
  rewrite shr_fexp_53 by (assumption || lia). cbn.
  destruct (Z.leb_spec e 971); [reflexivity | lia].
Qed.

Lemma iter_xO (p k : positive) :
  Zpos (Pos.iter xO p k) = Zpos p * 2 ^ Zpos k.
Proof.
  apply (Pos.iter_ind _ xO p (fun k r => Zpos r = Zpos p * 2 ^ Zpos k)).
  - rewrite Z.pow_1_r. lia.
  - intros k' r IH. rewrite Pos2Z.inj_succ, Z.pow_succ_r by lia.
    rewrite Pos2Z.inj_xO, IH. ring.
Qed.

(** The Number of a positive integer below 2^53 is that integer, with a
    mantissa of 53 digits. *)
Lemma of_Z_exact (n : Z) :
  0 < n < 2 ^ 53 ->
  exists m e,
    Number.of_Z n = S754_finite false m e
    /\ Zpos (digits2_pos m) = 53
    /\ -52 <= e <= 0
    /\ Zpos m = n * 2 ^ (- e).
Proof.
  intros [Hpos Hlt]. destruct n as [|p|p]; try lia.
  pose proof (digits_bounds p) as [Hlo Hhi].
  set (d := Zpos (digits2_pos p)) in *.
  assert (Hd : 1 <= d <= 53).
  { split; [unfold d; lia|].
    destruct (Z_le_gt_dec d 53) as [|Hgt]; [assumption|].
    assert (2 ^ 53 <= 2 ^ (d - 1)) by (apply Z.pow_le_mono_r; lia). lia. }
  unfold Number.of_Z, Number.prec, Number.emax, binary_normalize, binary_round.
  fold d. rewrite fexp_normal by lia.
  unfold shl_align.
  destruct (d + 0 - 53 - 0) as [|k|k] eqn:Hk; try lia.
  - exists p, 0. assert (d = 53) by lia.
    rewrite round_aux_exact by (unfold d in *; lia).
    repeat split; lia.
  - assert (Hk' : Zpos k = 53 - d) by lia.
    exists (Pos.iter xO p k), (d + 0 - 53).
    assert (Hm : Zpos (Pos.iter xO p k) = Zpos p * 2 ^ (- (d + 0 - 53))).
    { rewrite iter_xO. f_equal. f_equal. lia. }
    assert (Hdig : Zpos (digits2_pos (Pos.iter xO p k)) = 53).
    { apply digits_unique. rewrite iter_xO, Hk'.
      assert (E1 : 2 ^ (53 - 1) = 2 ^ (d - 1) * 2 ^ (53 - d)).
      { rewrite <- Z.pow_add_r by lia. f_equal. lia. }
      assert (E2 : 2 ^ 53 = 2 ^ d * 2 ^ (53 - d)).
      { rewrite <- Z.pow_add_r by lia. f_equal. lia. }
      assert (0 < 2 ^ (53 - d)) by (apply Z.pow_pos_nonneg; lia).
      rewrite E1, E2.
      split; [apply Z.mul_le_mono_nonneg_r | apply Z.mul_lt_mono_pos_r]; lia. }
    rewrite round_aux_exact by (assumption || lia).
    repeat split; try lia; assumption.
Qed.

Lemma round_aux_halves (q e' : Z) (l : location) :
  binary_round_aux 53 1024 false q e' l
  = Number.renormalize (fst (Number.shift_round q e' l)) (snd (Number.shift_round q e' l)).
Proof.
  unfold binary_round_aux, Number.renormalize, Number.shift_round.
  destruct (shr_fexp 53 1024 q e' l) as [mrs e]. reflexivity.
Qed.

Lemma renormalize_spec (m0 e0 : Z) :
  2 ^ 52 <= m0 <= 2 ^ 53 -> -1074 <= e0 <= 900 ->
  exists m e,
    Number.renormalize m0 e0 = S754_finite false m e
    /\ 2 ^ 52 <= Zpos m < 2 ^ 53
    /\ e0 <= e <= e0 + 1
    /\ Zpos m * 2 ^ (e - e0) = m0.
Proof.
  intros Hm He. destruct m0 as [|p|p]; try lia.
  destruct (Z.eq_dec (Zpos p) (2 ^ 53)) as [Heq | Hne].
  - injection Heq as ->. exists (4503599627370496)%positive, (e0 + 1).
    unfold Number.renormalize. rewrite shr_fexp_54 by (reflexivity || lia). cbn.
    destruct (Z.leb_spec (e0 + 1) 971); [|lia].
    repeat split; try lia. replace (e0 + 1 - e0) with 1 by lia. reflexivity.
  - exists p, e0. unfold Number.renormalize.
    rewrite shr_fexp_53 by (try apply digits_unique; lia). cbn.
    destruct (Z.leb_spec e0 971); [|lia].
    repeat split; try lia. rewrite Z.sub_diag. simpl. lia.
Qed.

Lemma loc_of_record (m : Z) (l : location) :
  loc_of_shr_record (shr_record_of_loc m l) = l.
Proof. destruct l as [|[| |]]; reflexivity. Qed.

Ltac red_round :=
  cbv beta iota zeta delta [round_nearest_even shr_m shr_record_of_loc shr_1
                       loc_of_shr_record orb].

(** Shifting and rounding the quotient [q] with remainder [r] of a division
    by an even [m2] lands within half a unit of the exact quotient. *)
Lemma shift_round_spec (q : positive) (e' m2 r : Z) :
  2 ^ 52 <= Zpos q < 2 ^ 54 -> -1074 <= e' ->
  Z.even m2 = true -> 0 <= r < m2 ->
  let '(m0, e0) := Number.shift_round (Zpos q) e' (new_location m2 r) in
  2 ^ 52 <= m0 <= 2 ^ 53
  /\ e' <= e0 <= e' + 1
  /\ Z.abs (m0 * 2 ^ (e0 - e') * m2 - (Zpos q * m2 + r)) * 2
     <= 2 ^ (e0 - e') * m2.
Proof.
  intros Hq He Heven Hr.
  unfold new_location. rewrite Heven. unfold new_location_even.
  unfold Number.shift_round.
  destruct (Z_lt_le_dec (Zpos q) (2 ^ 53)) as [Hlt | Hge].
  - (* 53 digits: no shift *)
    rewrite shr_fexp_53 by (try apply digits_unique; lia).
    rewrite loc_of_record. rewrite Z.sub_diag. change (2 ^ 0) with 1.
    destruct (Z.eqb_spec r 0) as [-> | Hr0].
    + red_round. repeat split; lia.
    + destruct (Z.compare_spec (2 * r) m2) as [Heq | Hlt2 | Hgt2]; red_round.
      * destruct (Z.even (Zpos q)); repeat split; lia.
      * repeat split; lia.
      * repeat split; lia.
  - (* 54 digits: one shift *)
    rewrite shr_fexp_54 by (try apply digits_unique; lia).
    replace (e' + 1 - e') with 1 by lia. change (2 ^ 1) with 2.
    destruct (Z.eqb_spec r 0) as [-> | Hr0].
    + destruct q as [h|h|]; [| |lia]; red_round.
      * destruct (Z.even (Zpos h)) eqn:Eh; repeat split; lia.
      * repeat split; lia.
    + destruct (Z.compare_spec (2 * r) m2) as [Heq | Hlt2 | Hgt2];
        (destruct q as [h|h|]; [| |lia]); red_round;
        try (destruct (Z.even (Zpos h)) eqn:Eh); repeat split; lia.
Qed.

Lemma div_eucl_div_mod (a b : Z) : Z.div_eucl a b = (a / b, a mod b).
Proof. unfold Z.div, Z.modulo. now destruct (Z.div_eucl a b). Qed.

(** Dividing two Numbers whose mantissas have 53 digits: the quotient of
    the mantissas, shifted by 53 digits, is rounded. *)
Lemma div_normal (m1 m2 : positive) (e1 e2 : Z) :
  Zpos (digits2_pos m1) = 53 -> Zpos (digits2_pos m2) = 53 ->
  -1000 <= e1 - e2 <= 1000 ->
  Number.div (S754_finite false m1 e1) (S754_finite false m2 e2)
  = binary_round_aux 53 1024 false
      (Zpos m1 * 2 ^ 53 / Zpos m2) (e1 - e2 - 53)
      (new_location (Zpos m2) ((Zpos m1 * 2 ^ 53) mod Zpos m2)).
Proof.
  intros H1 H2 He.
  unfold Number.div, Number.prec, Number.emax, SFdiv, SFdiv_core_binary.
  cbn [Zdigits2 xorb]. rewrite H1, H2.
  replace (53 + e1 - (53 + e2)) with (e1 - e2) by lia.
  rewrite fexp_normal by lia.
  rewrite Z.min_l by lia.
  replace (e1 - e2 - (e1 - e2 - 53)) with 53 by lia.
  rewrite Z.shiftl_mul_pow2 by lia.
  rewrite div_eucl_div_mod. reflexivity.
Qed.

(** The quotient of two integers below 2^53, as a Number: a mantissa [m]
    of 53 digits and an exponent [-k] with [m / 2^k] within half a unit in
    the last place of [n / D]. *)
Lemma div_near (n D : Z) (mD : positive) (eD : Z) :
  0 < n < 2 ^ 53 -> 0 < D ->
  Number.of_Z D = S754_finite false mD eD ->
  Zpos (digits2_pos mD) = 53 -> -50 <= eD <= 0 ->
  Zpos mD = D * 2 ^ (- eD) -> Z.even (Zpos mD) = true ->
  exists m k,
    Number.div (Number.of_Z n) (Number.of_Z D) = S754_finite false m (- k)
    /\ 0 < k
    /\ 2 ^ 52 <= Zpos m < 2 ^ 53
    /\ Z.abs (Zpos m * D - n * 2 ^ k) * 2 <= D.
Proof.
  intros Hn HD ED HdD HeD HmD Heven.
  destruct (of_Z_exact n Hn) as (m1 & e1 & En & Hd1 & He1 & Hm1).
  rewrite En, ED, div_normal by (assumption || lia).
  pose proof (digits_bounds m1) as B1. rewrite Hd1 in B1.
  pose proof (digits_bounds mD) as BD. rewrite HdD in BD.
  change (53 - 1) with 52 in *.
  set (a := Zpos m1 * 2 ^ 53).
  assert (Hq : 2 ^ 52 <= a / Zpos mD < 2 ^ 54).
  { split.
    - apply Z.div_le_lower_bound; [lia|]. unfold a. lia.
    - apply Z.div_lt_upper_bound; [lia|]. unfold a. lia. }
  pose proof (Z.div_mod a (Zpos mD) ltac:(lia)) as Hdm.
  pose proof (Z.mod_pos_bound a (Zpos mD) ltac:(lia)) as Hr.
  destruct (a / Zpos mD) as [|q|q] eqn:Eq; try lia.
  rewrite round_aux_halves.
  pose proof (shift_round_spec q (e1 - eD - 53) (Zpos mD) (a mod Zpos mD)
                Hq ltac:(lia) Heven Hr) as Hs.
  destruct (Number.shift_round (Zpos q) (e1 - eD - 53)
              (new_location (Zpos mD) (a mod Zpos mD))) as [m0 e0].
  cbn [fst snd]. destruct Hs as (Hm0 & He0 & Hnear).
  destruct (renormalize_spec m0 e0 Hm0 ltac:(lia)) as (m & e & -> & Hm & He & Hmm).
  exists m, (- e). rewrite Z.opp_involutive.
  split; [reflexivity|]. split; [lia|]. split; [exact Hm|].
  (* the powers of two involved *)
  set (u := 2 ^ (- e1)) in *. set (v := 2 ^ (- eD)) in *.
  assert (Hu : 0 < u) by (apply Z.pow_pos_nonneg; lia).
  assert (Hv : 0 < v) by (apply Z.pow_pos_nonneg; lia).
  set (P := 2 ^ (- e)).
  assert (HP : 0 < P) by (apply Z.pow_pos_nonneg; lia).
  assert (HPv : P * v * (2 ^ (e0 - (e1 - eD - 53)) * 2 ^ (e - e0)) = 2 ^ 53 * u).
  { unfold P, u, v. rewrite <- !Z.pow_add_r by lia. f_equal. lia. }
  set (A := 2 ^ (e0 - (e1 - eD - 53))) in *. set (C := 2 ^ (e - e0)) in *.
  assert (HA : 0 < A) by (apply Z.pow_pos_nonneg; lia).
  assert (HC : 1 <= C).
  { unfold C. change 1 with (2 ^ 0). apply Z.pow_le_mono_r; lia. }
  (* scale the inequality by A * C * v *)
  set (W := A * C * v).
  assert (HW : 0 < W) by (unfold W; repeat apply Z.mul_pos_pos; lia).
  assert (Hscaled : Z.abs (W * (Zpos m * D - n * P)) * 2 <= W * D).
  { replace (W * (Zpos m * D - n * P))
      with (m0 * A * Zpos mD - (Zpos q * Zpos mD + a mod Zpos mD)).
    - apply Z.le_trans with (1 := Hnear). rewrite HmD. unfold W.
      replace (A * C * v * D) with ((A * (D * v)) * C) by ring.
      rewrite <- (Z.mul_1_r (A * (D * v))) at 1.
      apply Z.mul_le_mono_nonneg_l; [|lia].
      apply Z.mul_nonneg_nonneg; [lia|]. apply Z.mul_nonneg_nonneg; lia.
    - replace (Zpos q * Zpos mD + a mod Zpos mD) with a by lia.
      unfold a, W. rewrite Hm1, HmD, <- Hmm.
      replace (n * u * 2 ^ 53) with (n * (2 ^ 53 * u)) by ring.
      rewrite <- HPv. ring. }
  rewrite Z.abs_mul, (Z.abs_eq W), <- Z.mul_assoc in Hscaled by lia.
  apply (Z.mul_le_mono_pos_l _ _ W HW). exact Hscaled.
Qed.

(** The tenths printed by [toFixed(1)] for a Number within half a unit in
    the last place of [n / (20 D')], that unit being below [1 / (10 D')]:
    the integer nearest to [10 n / (20 D')]. *)
Lemma tenths_nearest (m : positive) (k n D' : Z) :
  0 < k -> 0 < D' -> 10 * D' < 2 ^ k ->
  Z.abs (Zpos m * (20 * D') - n * 2 ^ k) * 2 <= 20 * D' ->
  Z.abs (n - 2 * D' * Number.tenths m (- k)) <= D'.
Proof.
  intros Hk HD HP HA.
  destruct k as [|kp|kp]; try lia.
  change (- Zpos kp) with (Zneg kp). unfold Number.tenths.
  rewrite Z.pow_add_r, Z.pow_1_r by lia.
  set (P := 2 ^ Zpos kp) in *.
  set (t := (20 * Zpos m + P) / (P * 2)).
  assert (HP0 : 0 < P) by lia.
  pose proof (Z.div_mod (20 * Zpos m + P) (P * 2) ltac:(lia)) as Hdm.
  pose proof (Z.mod_pos_bound (20 * Zpos m + P) (P * 2) ltac:(lia)) as Hmod.
  fold t in Hdm.
  set (r := (20 * Zpos m + P) mod (P * 2)) in *.
  (* products that occur, as atoms *)
  assert (Hup : n - 2 * D' * t >= D' + 1 ->
                P * n - 2 * D' * (P * t) >= P * D' + P).
  { intros H. 
    assert (P * (D' + 1) <= P * (n - 2 * D' * t))
      by (apply Z.mul_le_mono_nonneg_l; lia).
    lia. }
  assert (Hdown : n - 2 * D' * t <= - D' - 1 ->
                  P * n - 2 * D' * (P * t) <= - (P * D') - P).
  { intros H.
    assert (P * (n - 2 * D' * t) <= P * (- D' - 1))
      by (apply Z.mul_le_mono_nonneg_l; lia).
    lia. }
  assert (HB : D' * (20 * Zpos m + P) = D' * (P * 2 * t + r)) by (f_equal; exact Hdm).
  assert (Hr1 : 0 <= D' * r) by (apply Z.mul_nonneg_nonneg; lia).
  assert (Hr2 : D' * r < D' * (P * 2)) by (apply Z.mul_lt_mono_pos_l; lia).
  destruct (Z_le_gt_dec (Z.abs (n - 2 * D' * t)) D') as [|Hgt]; [assumption|].
  exfalso.
  destruct (Z_le_gt_dec (D' + 1) (n - 2 * D' * t)) as [H1|H1].
  - specialize (Hup ltac:(lia)). lia.
  - assert (H2 : n - 2 * D' * t <= - D' - 1) by lia.
    specialize (Hdown H2). lia.
Qed.

Lemma of_Z_million :
  Number.of_Z 1000000 = S754_finite false 8589934592000000 (-33).
Proof. reflexivity. Qed.

Lemma of_Z_thousand :
  Number.of_Z 1000 = S754_finite false 8796093022208000 (-43).
Proof. reflexivity. Qed.

(** [String] of integers whose texts are known: those a Number holds print
    all their digits, also when the search for the shortest numeral is run
    on them; [2^64] and [10^18 + 128] print 17 digits and zeros; [2^70],
    [10^21] and the Number nearest to [10^23] print an exponent; beyond
    the largest Number the text is that of an infinity. *)
Example toString_Z_examples :
  map Number.digits [1; 10; 1200; 999999; 2 ^ 53]
  = map Number.string_of_Z [1; 10; 1200; 999999; 2 ^ 53]
  /\ map Number.toString_Z
       [0; -5; 2 ^ 64; 10 ^ 18 + 128; 2 ^ 70; 10 ^ 21; 10 ^ 23; - 10 ^ 21;
        - 2 ^ 53 - 3; - 2 ^ 1024]
     = ["0"; "-5"; "18446744073709552000"; "1000000000000000100";
        "1.1805916207174113e+21"; "1e+21"; "1e+23"; "-1e+21";
        "-9007199254740996"; "-Infinity"]%string.
Proof. split; vm_compute; reflexivity. Qed.

(** A Number below 1 in the last place of its 53 digits is far below
    [10^21]: [toFixed(1)] prints its tenths. *)
Lemma toFixed1_plain (m : positive) (k : Z) :
  0 < k -> Zpos m < 2 ^ 53 ->
  Number.toFixed1 (S754_finite false m (- k))
  = (Number.string_of_Z (Number.tenths m (- k) / 10) ++ "."
     ++ Number.string_of_Z (Number.tenths m (- k) mod 10))%string.
Proof.
  intros Hk Hm. destruct k as [|kp|kp]; try lia.
  change (- Zpos kp) with (Zneg kp).
  unfold Number.toFixed1, Number.exponential.
  assert (H1 : 0 < 2 ^ Zpos kp) by (apply Z.pow_pos_nonneg; lia).
  assert (H2 : 2 ^ 53 < 10 ^ 21) by reflexivity.
  assert (H3 : 10 ^ 21 * 1 <= 10 ^ 21 * 2 ^ Zpos kp)
    by (apply Z.mul_le_mono_nonneg_l; [discriminate | lia]).
  destruct (Z.leb_spec (10 ^ 21 * 2 ^ Zpos kp) (Zpos m)) as [Hle|_];
    [lia | reflexivity].
Qed.

(** [(n / D).toFixed(1)] for integers [0 < n < 2^53] and [D = 20 D']: the
    digits of the integer [t] nearest to [10 n / D], with the point before
    the last one. *)
Lemma quotient_tenths (n D' c : Z) (mD : positive) (eD : Z) :
  0 < n < 2 ^ 53 -> 0 < D' ->
  Number.of_Z (20 * D') = S754_finite false mD eD ->
  Zpos (digits2_pos mD) = 53 -> -50 <= eD <= 0 ->
  Zpos mD = 20 * D' * 2 ^ (- eD) -> Z.even (Zpos mD) = true ->
  0 <= c -> 2 ^ c < 10 * D' < 2 ^ (c + 1) ->
  exists t,
    Number.toFixed1 (Number.div (Number.of_Z n) (Number.of_Z (20 * D')))
    = (Number.string_of_Z (t / 10) ++ "." ++ Number.string_of_Z (t mod 10))%string
    /\ Z.abs (n - 2 * D' * t) <= D'.
Proof.
  intros Hn HD' ED Hdig HeD HmD Heven Hc Hbracket.
  destruct (div_near n (20 * D') mD eD Hn ltac:(lia) ED Hdig HeD HmD Heven)
    as (m & k & E & Hk & Hm & HA).
  rewrite E. exists (Number.tenths m (- k)).
  split; [apply toFixed1_plain; [exact Hk | lia]|].
  apply tenths_nearest; try assumption.
  set (P := 2 ^ k) in *.
  assert (HP : 0 < P) by (apply Z.pow_pos_nonneg; lia).
  assert (H1 : n * P <= (2 ^ 53 - 1) * P)
    by (apply Z.mul_le_mono_nonneg_r; lia).
  assert (H2 : 2 ^ 52 * (20 * D') <= Zpos m * (20 * D'))
    by (apply Z.mul_le_mono_nonneg_r; lia).
  assert (H3 : 10 * D' <= P) by lia.
  destruct (Z_le_gt_dec k c) as [Hle | Hgt].
  - assert (P <= 2 ^ c) by (apply Z.pow_le_mono_r; lia). lia.
  - assert (2 ^ (c + 1) <= P) by (apply Z.pow_le_mono_r; lia). lia.
Qed.

End NumberFacts.

(** ** The avatar relay *)

Module RelayFacts.

Import Relay.
Local Open Scope string_scope.

(** A host passes lines 27-28 exactly when it is an entry of the list or
    ends with a dot followed by an entry. *)
Lemma isAllowed_spec (host : string) :
  isAllowed host = true <->
  exists h, In h allowedHosts /\ (host = h \/ exists p, host = p ++ "." ++ h).
Proof.
  unfold isAllowed, has. rewrite orb_true_iff, !existsb_exists. split.
  - intros [(h & Hin & Heq) | (h & Hin & Hor)].
    + apply String.eqb_eq in Heq. eauto.
    + apply orb_true_iff in Hor as [Heq | Hend].
      * apply String.eqb_eq in Heq. eauto.
      * apply StringFacts.endsWith_spec in Hend. eauto.
  - intros (h & Hin & [-> | Hsuf]).
    + left. exists h. split; [exact Hin | apply String.eqb_refl].
    + right. exists h. split; [exact Hin|].
      apply orb_true_iff. right. now apply StringFacts.endsWith_spec.
Qed.

Lemma isAllowed_false (host : string) :
  (forall h, In h allowedHosts ->
             host <> h /\ forall p, host <> p ++ "." ++ h) ->
  isAllowed host = false.
Proof.
  intros H. apply not_true_is_false. intros Ha.
  apply isAllowed_spec in Ha as (h & Hin & [-> | [p ->]]);
    destruct (H h Hin) as [H1 H2]; [now apply H1 | now apply (H2 p)].
Qed.

Section Handler.

Variable hostname : string -> option string.
Variable fetch : string -> FetchResult.
(** [new URL("")] throws. *)
Hypothesis hostname_empty : hostname "" = None.

Lemma parsed_nonempty (url host : string) :
  hostname url = Some host -> exists c r, url = String c r.
Proof.
  destruct url as [|c r]; [now rewrite hostname_empty | eauto].
Qed.

(** C1.  A request whose [url] parses to a host that is neither an entry of
    the allow-list nor a dot-suffixed subdomain of one is answered 403
    without any upstream fetch.  [https://pbs.twimg.com/profile.jpg] passes
    by the exact match, [https://sub.twimg.com/x.jpg] by the suffix match
    on [twimg.com] (it is not an entry), and both are fetched upstream;
    [https://evil.com/x.jpg] is answered 403. *)
Theorem relay_rejects_foreign_hosts :
  (forall req url host,
      url_param req = Some url ->
      hostname url = Some host ->
      (forall h, In h allowedHosts ->
                 host <> h /\ forall p, host <> p ++ "." ++ h) ->
      resp_status (fst (GET hostname fetch req)) = 403
      /\ snd (GET hostname fetch req) = [])
  /\ (has "pbs.twimg.com" = true
      /\ (hostname "https://pbs.twimg.com/profile.jpg" = Some "pbs.twimg.com" ->
          forall req, url_param req = Some "https://pbs.twimg.com/profile.jpg" ->
          resp_status (fst (GET hostname fetch req)) <> 403
          /\ snd (GET hostname fetch req)
             = [fetch_init "https://pbs.twimg.com/profile.jpg"]))
  /\ (has "sub.twimg.com" = false
      /\ Js.endsWith "sub.twimg.com" ".twimg.com" = true
      /\ (hostname "https://sub.twimg.com/x.jpg" = Some "sub.twimg.com" ->
          forall req, url_param req = Some "https://sub.twimg.com/x.jpg" ->
          resp_status (fst (GET hostname fetch req)) <> 403
          /\ snd (GET hostname fetch req)
             = [fetch_init "https://sub.twimg.com/x.jpg"]))
  /\ (hostname "https://evil.com/x.jpg" = Some "evil.com" ->
      forall req, url_param req = Some "https://evil.com/x.jpg" ->
      resp_status (fst (GET hostname fetch req)) = 403
      /\ snd (GET hostname fetch req) = []).
Proof.
  assert (Hallowed : forall req url host,
             url_param req = Some url -> hostname url = Some host ->
             isAllowed host = true ->
             resp_status (fst (GET hostname fetch req)) <> 403
             /\ snd (GET hostname fetch req) = [fetch_init url]).
  { intros req url host Hp Hh Ha. unfold GET. rewrite Hp.
    destruct (parsed_nonempty _ _ Hh) as (c & r & ->).
    rewrite Hh, Ha. simpl.
    destruct (fetch (String c r)) as [|up]; simpl; [split; [discriminate|reflexivity]|].
    destruct (up_ok up); simpl; [|split; [discriminate|reflexivity]].
    destruct (up_arrayBuffer up); simpl; split; (discriminate || reflexivity). }
  assert (Hdenied : forall req url host,
             url_param req = Some url -> hostname url = Some host ->
             isAllowed host = false ->
             resp_status (fst (GET hostname fetch req)) = 403
             /\ snd (GET hostname fetch req) = []).
  { intros req url host Hp Hh Ha. unfold GET. rewrite Hp.
    destruct (parsed_nonempty _ _ Hh) as (c & r & ->).
    rewrite Hh, Ha. simpl. split; reflexivity. }
  split; [|split; [|split]].
  - intros req url host Hp Hh Hno.
    exact (Hdenied _ _ _ Hp Hh (isAllowed_false _ Hno)).
  - split; [reflexivity|]. intros Hh req Hp.
    exact (Hallowed _ _ _ Hp Hh eq_refl).
  - split; [reflexivity|]. split; [reflexivity|]. intros Hh req Hp.
    exact (Hallowed _ _ _ Hp Hh eq_refl).
  - intros Hh req Hp. exact (Hdenied _ _ _ Hp Hh eq_refl).
Qed.

(** *** One lemma for each row of the status table *)

Lemma GET_missing (req : Request) :
  url_param req = None ->
  GET hostname fetch req = (text_response "Missing url param" 400, []).
Proof. unfold GET. now intros ->. Qed.

Lemma GET_invalid (req : Request) (url : string) :
  url_param req = Some url -> hostname url = None ->
  resp_status (fst (GET hostname fetch req)) = 400
  /\ snd (GET hostname fetch req) = [].
Proof.
  unfold GET. intros -> Hh.
  destruct url; [split; reflexivity|]. rewrite Hh. split; reflexivity.
Qed.

Lemma GET_allowed (req : Request) (url host : string) :
  url_param req = Some url -> hostname url = Some host ->
  isAllowed host = true ->
  GET hostname fetch req =
  match fetch url with
  | FetchRejects => (text_response "Proxy failed" 500, [fetch_init url])
  | FetchResolves upstream =>
      if up_ok upstream then
        match up_arrayBuffer upstream with
        | None => (text_response "Proxy failed" 500, [fetch_init url])
        | Some arrayBuffer =>
            ({| resp_status := 200;
                resp_headers :=
                  [ ("content-type",
                     Js.or_str (up_content_type upstream) "image/jpeg");
                    ("cache-control", "public, max-age=3600, s-maxage=3600");
                    ("access-control-allow-origin", "*") ];
                resp_body := Bytes arrayBuffer |},
             [fetch_init url])
        end
      else
        (text_response
           ("Upstream error: " ++ Js.string_of_nat (up_status upstream)) 502,
         [fetch_init url])
  end.
Proof.
  unfold GET. intros -> Hh Ha.
  destruct (parsed_nonempty _ _ Hh) as (c & r & ->).
  rewrite Hh, Ha. simpl.
  destruct (fetch (String c r)) as [|up]; [reflexivity|].
  now destruct (up_ok up).
Qed.

Lemma GET_denied (req : Request) (url host : string) :
  url_param req = Some url -> hostname url = Some host ->
  isAllowed host = false ->
  GET hostname fetch req = (text_response "Host not allowed" 403, []).
Proof.
  unfold GET. intros -> Hh Ha.
  destruct (parsed_nonempty _ _ Hh) as (c & r & ->).
  now rewrite Hh, Ha.
Qed.

Lemma GET_status_range (req : Request) :
  In (resp_status (fst (GET hostname fetch req))) [200; 400; 403; 500; 502].
Proof.
  destruct (url_param req) as [url|] eqn:Hp.
  2:{ rewrite (GET_missing _ Hp). simpl. auto. }
  destruct (hostname url) as [host|] eqn:Hh.
  2:{ destruct (GET_invalid _ _ Hp Hh) as [-> _]. simpl. auto. }
  destruct (isAllowed host) eqn:Ha.
  2:{ rewrite (GET_denied _ _ _ Hp Hh Ha). simpl. auto. }
  rewrite (GET_allowed _ _ _ Hp Hh Ha).
  destruct (fetch url) as [|up]; [simpl; auto|].
  destruct (up_ok up); [|simpl; auto 6].
  destruct (up_arrayBuffer up); simpl; auto.
Qed.

(** C5.  The status of the response is 400 when [url] is absent or does not
    parse, 403 when its host is not allowed, 502 when the upstream response
    is not ok, 500 when the fetch or the reading of its body throws, and
    otherwise 200 with the upstream body, the upstream content type
    ([image/jpeg] when the upstream names none) and the cache and
    cross-origin headers; no other status occurs. *)
Theorem relay_status_table (req : Request) :
  let resp := fst (GET hostname fetch req) in
  ((url_param req = None
    \/ exists url, url_param req = Some url /\ hostname url = None) ->
   resp_status resp = 400)
  /\ (forall url host,
        url_param req = Some url -> hostname url = Some host ->
        isAllowed host = false -> resp_status resp = 403)
  /\ (forall url host up,
        url_param req = Some url -> hostname url = Some host ->
        isAllowed host = true ->
        fetch url = FetchResolves up -> up_ok up = false ->
        resp_status resp = 502)
  /\ (forall url host,
        url_param req = Some url -> hostname url = Some host ->
        isAllowed host = true ->
        (fetch url = FetchRejects
         \/ exists up, fetch url = FetchResolves up /\ up_ok up = true
                       /\ up_arrayBuffer up = None) ->
        resp_status resp = 500)
  /\ (forall url host up bytes,
        url_param req = Some url -> hostname url = Some host ->
        isAllowed host = true ->
        fetch url = FetchResolves up -> up_ok up = true ->
        up_arrayBuffer up = Some bytes ->
        resp_status resp = 200
        /\ resp_body resp = Bytes bytes
        /\ header "cache-control" resp
           = Some "public, max-age=3600, s-maxage=3600"
        /\ header "access-control-allow-origin" resp = Some "*"
        /\ (forall ct, up_content_type up = Some ct -> ct <> "" ->
                       header "content-type" resp = Some ct)
        /\ (up_content_type up = None \/ up_content_type up = Some "" ->
            header "content-type" resp = Some "image/jpeg"))
  /\ In (resp_status resp) [200; 400; 403; 500; 502].
Proof.
  cbv zeta. split; [|split; [|split; [|split; [|split]]]].
  - intros [Hp | (url & Hp & Hh)].
    + now rewrite (GET_missing _ Hp).
    + now destruct (GET_invalid _ _ Hp Hh).
  - intros url host Hp Hh Ha. now rewrite (GET_denied _ _ _ Hp Hh Ha).
  - intros url host up Hp Hh Ha Hf Hok.
    now rewrite (GET_allowed _ _ _ Hp Hh Ha), Hf, Hok.
  - intros url host Hp Hh Ha [Hf | (up & Hf & Hok & Hb)];
      rewrite (GET_allowed _ _ _ Hp Hh Ha), Hf; [reflexivity|].
    now rewrite Hok, Hb.
  - intros url host up bytes Hp Hh Ha Hf Hok Hb.
    rewrite (GET_allowed _ _ _ Hp Hh Ha), Hf, Hok, Hb. unfold header. simpl.
    repeat split.
    + intros ct -> Hne. destruct ct; [congruence | reflexivity].
    + intros [-> | ->]; reflexivity.
  - apply GET_status_range.
Qed.

End Handler.

(** The table of C5 at five requests, one for each status. *)
Lemma relay_status_table_witness :
  let status f u :=
    resp_status (fst (GET simple_hostname f (Demo.request u))) in
  status Demo.png_upstream "not a url" = 400
  /\ status Demo.png_upstream "https://evil.com/x.jpg" = 403
  /\ status Demo.missing_upstream "https://pbs.twimg.com/profile.jpg" = 502
  /\ status Demo.no_network "https://pbs.twimg.com/profile.jpg" = 500
  /\ status Demo.png_upstream "https://pbs.twimg.com/profile.jpg" = 200.
Proof.
  cbv zeta. split; [|split; [|split; [|split]]].
  - apply (relay_status_table simple_hostname Demo.png_upstream eq_refl
             (Demo.request "not a url")).
    right. exists "not a url". split; reflexivity.
  - apply (proj1 (proj2 (relay_status_table simple_hostname Demo.png_upstream
                            eq_refl (Demo.request "https://evil.com/x.jpg")))
             "https://evil.com/x.jpg" "evil.com"); reflexivity.
  - eapply (proj1 (proj2 (proj2 (relay_status_table simple_hostname
                                    Demo.missing_upstream eq_refl
                                    (Demo.request "https://pbs.twimg.com/profile.jpg"))))
              "https://pbs.twimg.com/profile.jpg" "pbs.twimg.com"); reflexivity.
  - apply (proj1 (proj2 (proj2 (proj2 (relay_status_table simple_hostname
                                    Demo.no_network eq_refl
                                    (Demo.request "https://pbs.twimg.com/profile.jpg")))))
              "https://pbs.twimg.com/profile.jpg" "pbs.twimg.com");
      try reflexivity. left. reflexivity.
  - eapply (proj1 (proj2 (proj2 (proj2 (proj2 (relay_status_table simple_hostname
                                    Demo.png_upstream eq_refl
                                    (Demo.request "https://pbs.twimg.com/profile.jpg"))))))
              "https://pbs.twimg.com/profile.jpg" "pbs.twimg.com"); reflexivity.
Defined.

Lemma not_suffix (host suffix : string) :
  Js.endsWith host suffix = false -> forall p, host <> (p ++ suffix)%string.
Proof.
  intros H p ->. rewrite (proj2 (StringFacts.endsWith_spec _ _)) in H; eauto.
  discriminate.
Qed.

(** C1 run with a concrete reader of URLs: the refusal of [evil.com] and
    the two allowed addresses. *)
Lemma relay_rejects_foreign_hosts_witness :
  (resp_status (fst (GET simple_hostname Demo.png_upstream
                         (Demo.request "https://evil.com/x.jpg"))) = 403
   /\ snd (GET simple_hostname Demo.png_upstream
               (Demo.request "https://evil.com/x.jpg")) = [])
  /\ snd (GET simple_hostname Demo.png_upstream
              (Demo.request "https://pbs.twimg.com/profile.jpg"))
     = [fetch_init "https://pbs.twimg.com/profile.jpg"]
  /\ snd (GET simple_hostname Demo.png_upstream
              (Demo.request "https://sub.twimg.com/x.jpg"))
     = [fetch_init "https://sub.twimg.com/x.jpg"].
Proof.
  destruct (relay_rejects_foreign_hosts simple_hostname Demo.png_upstream
              eq_refl) as (H1 & (_ & H2) & (_ & _ & H3) & _).
  split; [|split].
  - apply (H1 (Demo.request "https://evil.com/x.jpg")
              "https://evil.com/x.jpg" "evil.com"); try reflexivity.
    intros h Hin. split.
    + simpl in Hin.
      repeat (destruct Hin as [<- | Hin]; [discriminate|]). contradiction.
    + apply not_suffix. simpl in Hin.
      repeat (destruct Hin as [<- | Hin]; [reflexivity|]). contradiction.
  - apply (H2 eq_refl (Demo.request "https://pbs.twimg.com/profile.jpg") eq_refl).
  - apply (H3 eq_refl (Demo.request "https://sub.twimg.com/x.jpg") eq_refl).
Defined.

(** *** What the handler fetches and what it forwards *)

(** X1.  The list of line 12 admits exactly [twimg.com] and the hosts that
    end with [.twimg.com]: the four other entries are subdomains of the
    third. *)
Theorem allow_list_is_twimg_and_subdomains (host : string) :
  isAllowed host = true <->
  host = "twimg.com" \/ Js.endsWith host ".twimg.com" = true.
Proof.
  split.
  - intros H. apply isAllowed_spec in H as (h & Hin & Hor).
    assert (Hh : h = "twimg.com" \/ exists q, h = q ++ ".twimg.com").
    { simpl in Hin.
      destruct Hin as [<- | [<- | [<- | [<- | [<- | []]]]]];
        [ right; exists "pbs" | right; exists "abs" | left
        | right; exists "video" | right; exists "ton" ]; reflexivity. }
    destruct Hor as [-> | [p ->]].
    + destruct Hh as [-> | [q ->]]; [now left | right].
      apply StringFacts.endsWith_spec. now exists q.
    + right. apply StringFacts.endsWith_spec.
      destruct Hh as [-> | [q ->]].
      * now exists p.
      * exists (p ++ "." ++ q). now rewrite <- !StringFacts.app_assoc.
  - intros [-> | H]; [reflexivity|].
    apply StringFacts.endsWith_spec in H as [p ->].
    apply isAllowed_spec. exists "twimg.com". split; [simpl; auto|].
    right. now exists p.
Qed.

Section Fetches.
Variable hostname : string -> option string.
Variable fetch : string -> FetchResult.

(** X2.  The handler fetches at most once, and only the text of the [url]
    parameter, when its host is allowed; the request names the user agent
    and the image types of lines 38-39 and asks for no caching. *)
Theorem relay_fetches_only_the_allowed_url (req : Request) :
  List.length (snd (GET hostname fetch req)) <= 1
  /\ forall call,
       In call (snd (GET hostname fetch req)) ->
       exists url host,
         url_param req = Some url /\ url <> ""
         /\ hostname url = Some host /\ isAllowed host = true
         /\ fc_url call = url
         /\ fc_headers call
            = [ ("user-agent", "Mozilla/5.0 (compatible; RitualCardBot/1.0)");
                ("accept",
                 "image/avif,image/webp,image/apng,image/*,*/*;q=0.8") ]
         /\ fc_cache call = "no-store".
Proof.
  unfold GET.
  destruct (url_param req) as [[|c r]|]; simpl; [split; [lia | tauto]| |split; [lia | tauto]].
  destruct (hostname (String c r)) as [host|] eqn:Hh; simpl; [|split; [lia | tauto]].
  destruct (isAllowed host) eqn:Ha; simpl; [|split; [lia | tauto]].
  assert (Hone : List.length [fetch_init (String c r)] <= 1
                 /\ forall call,
                      In call [fetch_init (String c r)] ->
                      exists url host0,
                        Some (String c r) = Some url /\ url <> ""
                        /\ hostname url = Some host0 /\ isAllowed host0 = true
                        /\ fc_url call = url
                        /\ fc_headers call
                           = [ ("user-agent",
                                "Mozilla/5.0 (compatible; RitualCardBot/1.0)");
                               ("accept",
                                "image/avif,image/webp,image/apng,image/*,*/*;q=0.8") ]
                        /\ fc_cache call = "no-store").
  { split; [simpl; lia|]. intros call [<- | []].
    exists (String c r), host. repeat split; auto. discriminate. }
  destruct (fetch (String c r)) as [|up]; [exact Hone|].
  destruct (up_ok up); simpl; [|exact Hone].
  destruct (up_arrayBuffer up); exact Hone.
Qed.

(** X3.  Upstream bytes are relayed only with status 200, and they are the
    body of an upstream response that was [ok] to a fetch of the [url]
    parameter; every other response is a text and sets no header; a
    response with status 200 names a content type that is not empty. *)
Theorem relay_forwards_only_ok_bodies (req : Request) :
  let resp := fst (GET hostname fetch req) in
  (forall bytes,
      resp_body resp = Bytes bytes ->
      resp_status resp = 200
      /\ exists url up,
           url_param req = Some url /\ fetch url = FetchResolves up
           /\ up_ok up = true /\ up_arrayBuffer up = Some bytes)
  /\ (resp_status resp <> 200 ->
      (exists msg, resp_body resp = Text msg) /\ resp_headers resp = [])
  /\ (resp_status resp = 200 ->
      exists ct, header "content-type" resp = Some ct /\ ct <> "").
Proof.
  cbv zeta. unfold GET.
  assert (Htext : forall msg st calls,
             st <> 200 ->
             let resp := fst (text_response msg st, calls : list FetchCall) in
             (forall bytes,
                 resp_body resp = Bytes bytes ->
                 resp_status resp = 200
                 /\ exists url up,
                      url_param req = Some url /\ fetch url = FetchResolves up
                      /\ up_ok up = true /\ up_arrayBuffer up = Some bytes)
             /\ (resp_status resp <> 200 ->
                 (exists msg, resp_body resp = Text msg)
                 /\ resp_headers resp = [])
             /\ (resp_status resp = 200 ->
                 exists ct, header "content-type" resp = Some ct /\ ct <> "")).
  { intros msg st calls Hst. simpl. split; [discriminate|].
    split; [|intros H; now elim Hst].
    intros _. split; [now exists msg | reflexivity]. }
  destruct (url_param req) as [[|c r]|] eqn:Hp;
    [apply Htext; discriminate | | apply Htext; discriminate].
  destruct (hostname (String c r)) as [host|];
    [|apply Htext; discriminate].
  destruct (isAllowed host); cbn [negb]; [|apply Htext; discriminate].
  destruct (fetch (String c r)) as [|up] eqn:Hf;
    [apply Htext; discriminate|].
  destruct (up_ok up) eqn:Hok; cbn [negb]; [|apply Htext; discriminate].
  destruct (up_arrayBuffer up) as [bytes|] eqn:Hb;
    [|apply Htext; discriminate].
  simpl. split; [|split].
  - intros bytes' [= <-]. split; [reflexivity|].
    exists (String c r), up. auto.
  - intros H. now elim H.
  - intros _. unfold header. simpl.
    destruct (up_content_type up) as [[|a ct]|]; simpl; eexists;
      (split; [reflexivity | discriminate]).
Qed.

End Fetches.

Lemma relay_fetches_only_the_allowed_url_witness :
  exists host,
    simple_hostname "https://pbs.twimg.com/profile.jpg" = Some host
    /\ isAllowed host = true.
Proof.
  destruct (proj2 (relay_fetches_only_the_allowed_url simple_hostname
                     Demo.png_upstream
                     (Demo.request "https://pbs.twimg.com/profile.jpg"))
              (fetch_init "https://pbs.twimg.com/profile.jpg")
              (or_introl eq_refl))
    as (url & host & Hp & _ & Hh & Ha & _).
  injection Hp as <-. now exists host.
Defined.

Lemma relay_forwards_only_ok_bodies_witness :
  exists msg,
    resp_body (fst (GET simple_hostname Demo.missing_upstream
                        (Demo.request "https://pbs.twimg.com/profile.jpg")))
    = Text msg.
Proof.
  apply (proj1 (proj2 (relay_forwards_only_ok_bodies simple_hostname
                         Demo.missing_upstream
                         (Demo.request "https://pbs.twimg.com/profile.jpg")))).
  discriminate.
Defined.

End RelayFacts.

(** ** Computations that keep a property of the store *)

Module ExecFacts.

Import Exec.

Section Keeps.

Context {S : Type} (P : S -> Prop).

Lemma keeps_ret {A} (a : A) : keeps P (ret a).
Proof. intros s H. exact H. Qed.

Lemma keeps_throw {A} : keeps P (@throw S A).
Proof. intros s H. exact H. Qed.

Lemma keeps_get : keeps P (@get S).
Proof. intros s H. exact H. Qed.

Lemma keeps_modify (f : S -> S) :
  (forall s, P s -> P (f s)) -> keeps P (modify f).
Proof. intros Hf s H. apply Hf, H. Qed.

Lemma keeps_bind {A B} (m : M S A) (k : A -> M S B) :
  keeps P m -> (forall a, keeps P (k a)) -> keeps P (bind m k).
Proof.
  intros Hm Hk s H. unfold bind. specialize (Hm s H).
  destruct (m s) as [[a|] s']; simpl in *; [apply Hk, Hm | exact Hm].
Qed.

Lemma keeps_when (c : bool) (body : M S unit) :
  keeps P body -> keeps P (when c body).
Proof. destruct c; [trivial | intros _; apply keeps_ret]. Qed.

Lemma keeps_try_catch {A} (body handler : M S A) :
  keeps P body -> keeps P handler -> keeps P (try_catch body handler).
Proof.
  intros Hb Hh s H. unfold try_catch. specialize (Hb s H).
  destruct (body s) as [[a|] s']; simpl in *; [exact Hb | apply Hh, Hb].
Qed.

Lemma keeps_finally {A} (body : M S A) (cleanup : S -> S) :
  keeps P body -> (forall s, P s -> P (cleanup s)) ->
  keeps P (finally body cleanup).
Proof.
  intros Hb Hc s H. unfold finally. specialize (Hb s H).
  destruct (body s) as [r s']; simpl in *. apply Hc, Hb.
Qed.

End Keeps.

Create HintDb keeps.
#[export] Hint Resolve keeps_ret keeps_throw keeps_get keeps_modify
  keeps_bind keeps_when keeps_try_catch keeps_finally : keeps.

End ExecFacts.

(** ** Computations with two exits *)

Module TripleFacts.
Import Exec.

Section Triples.
Context {S : Type}.

Lemma triple_ret {A} (P : S -> Prop) (a : A) (Q : A -> S -> Prop) E :
  (forall s, P s -> Q a s) -> triple P (ret a) Q E.
Proof. intros H s Hs. apply H, Hs. Qed.

Lemma triple_throw {A} (P : S -> Prop) (Q : A -> S -> Prop) (E : S -> Prop) :
  (forall s, P s -> E s) -> triple P (@throw S A) Q E.
Proof. intros H s Hs. apply H, Hs. Qed.

Lemma triple_get (P : S -> Prop) (Q : S -> S -> Prop) E :
  (forall s, P s -> Q s s) -> triple P (@get S) Q E.
Proof. intros H s Hs. apply H, Hs. Qed.

Lemma triple_modify (P : S -> Prop) (f : S -> S) (Q : unit -> S -> Prop) E :
  (forall s, P s -> Q tt (f s)) -> triple P (modify f) Q E.
Proof. intros H s Hs. apply H, Hs. Qed.

Lemma triple_bind {A B} (P : S -> Prop) (m : M S A) (k : A -> M S B)
      (Q : A -> S -> Prop) (R : B -> S -> Prop) (E : S -> Prop) :
  triple P m Q E -> (forall a, triple (Q a) (k a) R E) ->
  triple P (bind m k) R E.
Proof.
  intros Hm Hk s Hs. unfold bind. specialize (Hm s Hs).
  destruct (m s) as [[a|] s']; [apply Hk, Hm | exact Hm].
Qed.

Lemma triple_when (P : S -> Prop) (c : bool) (body : M S unit)
      (Q : unit -> S -> Prop) E :
  (c = true -> triple P body Q E) -> (c = false -> forall s, P s -> Q tt s) ->
  triple P (when c body) Q E.
Proof.
  destruct c; intros H1 H2; [now apply H1|].
  intros s Hs. now apply H2.
Qed.

Lemma triple_try_catch {A} (P : S -> Prop) (body handler : M S A)
      (Q : A -> S -> Prop) (E E' : S -> Prop) :
  triple P body Q E -> triple E handler Q E' ->
  triple P (try_catch body handler) Q E'.
Proof.
  intros Hb Hh s Hs. unfold try_catch. specialize (Hb s Hs).
  destruct (body s) as [[a|] s']; [exact Hb | apply Hh, Hb].
Qed.

Lemma triple_finally {A} (P : S -> Prop) (body : M S A) (cleanup : S -> S)
      (Q R : A -> S -> Prop) (E E' : S -> Prop) :
  triple P body Q E ->
  (forall a s, Q a s -> R a (cleanup s)) -> (forall s, E s -> E' (cleanup s)) ->
  triple P (finally body cleanup) R E'.
Proof.
  intros Hb HQ HE s Hs. unfold finally. specialize (Hb s Hs).
  destruct (body s) as [[a|] s']; [now apply HQ | now apply HE].
Qed.

Lemma triple_weaken {A} (P P' : S -> Prop) (m : M S A)
      (Q Q' : A -> S -> Prop) (E E' : S -> Prop) :
  triple P m Q E ->
  (forall s, P' s -> P s) -> (forall a s, Q a s -> Q' a s) ->
  (forall s, E s -> E' s) ->
  triple P' m Q' E'.
Proof.
  intros H HP HQ HE s Hs. specialize (H s (HP s Hs)).
  destruct (m s) as [[a|] s']; [now apply HQ | now apply HE].
Qed.

Lemma keeps_triple {A} (P : S -> Prop) (m : M S A) :
  keeps P m -> triple P m (fun _ => P) P.
Proof.
  intros H s Hs. specialize (H s Hs). now destruct (m s) as [[a|] s'].
Qed.

(** The store in which [exec] ends satisfies what both exits satisfy. *)
Lemma triple_exec {A} (P : S -> Prop) (m : M S A) (Q : A -> S -> Prop)
      (E R : S -> Prop) (s : S) :
  triple P m Q E -> (forall a s', Q a s' -> R s') -> (forall s', E s' -> R s') ->
  P s -> R (exec m s).
Proof.
  intros H HQ HE Hs. unfold exec. specialize (H s Hs).
  destruct (m s) as [[a|] s']; [now apply (HQ a) | now apply HE].
Qed.

End Triples.
End TripleFacts.

(** ** The handle, the profile record and the card *)

Module CardFacts.

Import Exec Card ExecFacts.
Local Open Scope string_scope.

(** *** [replace] and [trim] *)

Lemma prefix_cons (a b : ascii) (p s : string) :
  prefix (String a p) (String b s)
  = if ascii_dec a b then prefix p s else false.
Proof. reflexivity. Qed.

Lemma prefix_app (p rest : string) : prefix p (p ++ rest) = true.
Proof.
  induction p as [|c p IH]; [now destruct rest|].
  change (String c p ++ rest) with (String c (p ++ rest)).
  rewrite prefix_cons. destruct (ascii_dec c c); [exact IH | congruence].
Qed.

Lemma prefix_at (c : ascii) (r : string) :
  prefix "@" (String c r) = Ascii.eqb c "@".
Proof.
  rewrite prefix_cons. destruct (ascii_dec "@" c) as [<-|Hne].
  - now destruct r.
  - symmetry. apply Ascii.eqb_neq. congruence.
Qed.

Lemma replace_unfold (pattern replacement : string) (c : ascii) (r : string) :
  JsString.replace pattern replacement (String c r)
  = if prefix pattern (String c r)
    then replacement
         ++ substring (String.length pattern)
                      (String.length (String c r) - String.length pattern)
                      (String c r)
    else String c (JsString.replace pattern replacement r).
Proof. reflexivity. Qed.

Lemma replace_head (pattern replacement rest : string) :
  JsString.replace pattern replacement (pattern ++ rest) = replacement ++ rest.
Proof.
  assert (Hs : substring (String.length pattern)
                 (String.length (pattern ++ rest) - String.length pattern)
                 (pattern ++ rest) = rest).
  { rewrite StringFacts.length_app.
    replace (String.length pattern + String.length rest - String.length pattern)
      with (String.length rest) by lia.
    apply StringFacts.substring_app_suffix. }
  destruct (pattern ++ rest) as [|c r] eqn:E.
  - destruct pattern; [|discriminate]. simpl in E. subst rest. reflexivity.
  - rewrite replace_unfold, Hs, <- E, prefix_app. reflexivity.
Qed.

Lemma replace_skips (pre rest : string) :
  no_at pre = true ->
  JsString.replace "@" "" (pre ++ "@" ++ rest) = pre ++ rest.
Proof.
  induction pre as [|c pre IH]; intros H.
  - apply (replace_head "@" "" rest).
  - simpl in H. apply andb_true_iff in H as [Hc Hpre].
    apply negb_true_iff in Hc.
    change ((String c pre) ++ "@" ++ rest) with (String c (pre ++ "@" ++ rest)).
    rewrite replace_unfold, prefix_at, Hc, IH by exact Hpre. reflexivity.
Qed.

Lemma replace_absent (s : string) :
  no_at s = true -> JsString.replace "@" "" s = s.
Proof.
  induction s as [|c s IH]; intros H; [reflexivity|].
  simpl in H. apply andb_true_iff in H as [Hc Hs].
  apply negb_true_iff in Hc.
  rewrite replace_unfold, prefix_at, Hc, IH by exact Hs. reflexivity.
Qed.

Lemma ws2_lead (a b : ascii) :
  JsString.ws2 a b = true -> JsString.ws1 a = false.
Proof.
  unfold JsString.ws2, JsString.ws1, JsString.byte_is.
  intros H. apply andb_true_iff in H as [H _]. apply Nat.eqb_eq in H.
  now rewrite H.
Qed.

Lemma ws3_lead (a b c : ascii) :
  JsString.ws3 a b c = true ->
  JsString.ws1 a = false /\ JsString.ws2 a b = false.
Proof.
  unfold JsString.ws3, JsString.ws2, JsString.ws1, JsString.byte_is.
  intros H.
  repeat (apply orb_true_iff in H as [H | H]);
    repeat (apply andb_true_iff in H as [H ?]);
    apply Nat.eqb_eq in H; now rewrite H.
Qed.

Lemma trimStart_blank (ws l : list ascii) :
  blank ws ->
  JsString.trimStart_bytes (ws ++ l) = JsString.trimStart_bytes l.
Proof.
  unfold JsString.trimStart_bytes.
  induction 1 as [|a w Ha _ IH|a b w Hab _ IH|a b c w Habc _ IH]; simpl.
  - reflexivity.
  - now rewrite Ha.
  - now rewrite (ws2_lead _ _ Hab), Hab.
  - destruct (ws3_lead _ _ _ Habc) as [-> ->]. now rewrite Habc.
Qed.

Lemma list_of_app (a b : string) :
  list_ascii_of_string (a ++ b)
  = (list_ascii_of_string a ++ list_ascii_of_string b)%list.
Proof. induction a; simpl; [reflexivity | now f_equal]. Qed.

Lemma trim_blank (ws rest : string) :
  blank (list_ascii_of_string ws) ->
  JsString.trim (ws ++ rest) = JsString.trim rest.
Proof.
  intros H. unfold JsString.trim. now rewrite list_of_app, trimStart_blank.
Qed.

Ltac bool_hyps :=
  repeat match goal with
         | H : (_ && _)%bool = true |- _ =>
             apply andb_true_iff in H; destruct H
         | H : (_ || _)%bool = true |- _ =>
             apply orb_true_iff in H; destruct H
         | H : JsString.byte_is _ _ = true |- _ =>
             unfold JsString.byte_is in H
         | H : Nat.eqb _ _ = true |- _ => apply Nat.eqb_eq in H
         | H : Nat.leb _ _ = true |- _ => apply Nat.leb_le in H
         end.

Lemma not_at (a : ascii) : nat_of_ascii a <> 64 -> Ascii.eqb a "@" = false.
Proof. intros H. apply Ascii.eqb_neq. intros ->. now apply H. Qed.

Lemma ws1_not_at (a : ascii) :
  JsString.ws1 a = true -> Ascii.eqb a "@" = false.
Proof.
  unfold JsString.ws1. cbv zeta. intros H. apply not_at. bool_hyps; lia.
Qed.

Lemma ws2_not_at (a b : ascii) :
  JsString.ws2 a b = true ->
  Ascii.eqb a "@" = false /\ Ascii.eqb b "@" = false.
Proof.
  unfold JsString.ws2. intros H. split; apply not_at; bool_hyps; lia.
Qed.

Lemma ws3_not_at (a b c : ascii) :
  JsString.ws3 a b c = true ->
  Ascii.eqb a "@" = false /\ Ascii.eqb b "@" = false
  /\ Ascii.eqb c "@" = false.
Proof.
  unfold JsString.ws3. cbv zeta. intros H.
  repeat split; apply not_at; bool_hyps; lia.
Qed.

Lemma blank_no_at (ws : string) :
  blank (list_ascii_of_string ws) -> no_at ws = true.
Proof.
  remember (list_ascii_of_string ws) as l eqn:Hl. intros H. revert ws Hl.
  induction H as [|a w Ha _ IH|a b w Hab _ IH|a b c w Habc _ IH];
    intros ws Hl.
  - now destruct ws.
  - destruct ws as [|x ws]; [discriminate|]. injection Hl as -> ->.
    simpl. now rewrite (IH ws eq_refl), (ws1_not_at _ Ha).
  - destruct ws as [|x [|y ws]]; try discriminate. injection Hl as -> -> ->.
    destruct (ws2_not_at _ _ Hab) as [Hx Hy].
    simpl. now rewrite (IH ws eq_refl), Hx, Hy.
  - destruct ws as [|x [|y [|z ws]]]; try discriminate.
    injection Hl as -> -> -> ->.
    destruct (ws3_not_at _ _ _ Habc) as (Hx & Hy & Hz).
    simpl. now rewrite (IH ws eq_refl), Hx, Hy, Hz.
Qed.

(** *** generateCard *)

Lemma try_block_keeps_username (u : string) (r : FetchResult) :
  keeps (fun l => username l = u) (try_block r).
Proof.
  assert (Hassign : forall f : Profile -> Profile,
             (forall l, username (f l) = username l) ->
             keeps (fun l => username l = u) (Exec.modify f)).
  { intros f Hf. apply keeps_modify. intros l <-. apply Hf. }
  assert (Hread : forall v, keeps (fun l => username l = u) (read_user v)).
  { intros v. unfold read_user, assign_displayName, assign_avatarUrl,
      assign_bio, assign_counts.
    repeat (first [ apply keeps_bind; [|intros ?]
                  | apply keeps_get
                  | apply keeps_when
                  | apply Hassign; reflexivity
                  | match goal with
                    | |- keeps _ (match ?x with _ => _ end) => destruct x
                    end
                  | apply keeps_throw ]). }
  destruct r as [|ok [|data]]; simpl.
  - apply keeps_throw.
  - apply keeps_bind; [apply keeps_when, keeps_throw | intros; apply keeps_throw].
  - apply keeps_bind; [apply keeps_when, keeps_throw | intros].
    apply keeps_when, Hread.
Qed.

Lemma resolveProfile_username (u : string) (r : FetchResult) :
  username (resolveProfile u r) = u.
Proof.
  unfold resolveProfile, Exec.exec.
  apply (keeps_try_catch (fun l => username l = u)).
  - apply try_block_keeps_username.
  - apply keeps_ret.
  - reflexivity.
Qed.



Section GenerateCard.

Context {X : Type}.
Variable fetch : string -> FetchResult.

Lemma generateCard_valid (s : State X) (u : string) :
  normalizeHandle (handle s) = u -> u <> "" -> selectedRole s <> "" ->
  generateCard fetch s
  = (generateCard_settle u (fetch (profileUrl u))
       (setLoading true (setError "" s)),
     [profileUrl u]).
Proof.
  intros Hu Hne Hrole. unfold generateCard, generateCard_begin. simpl.
  rewrite Hu.
  destruct (String.eqb u "") eqn:E1; [apply String.eqb_eq in E1; contradiction|].
  destruct (String.eqb (selectedRole s) "") eqn:E2;
    [apply String.eqb_eq in E2; contradiction|].
  reflexivity.
Qed.

(** C3.  When the raw handle is white space, an ["@"] and a text [t], the
    handle of the resolved record is [t] trimmed; when it has no ["@"], it
    is the raw handle trimmed.  For ["@Example "] and the role Mage the
    record's handle is ["Example"], and the card shows three stars and the
    rarity label MAGE. *)
Theorem resolved_handle_is_normalized (s : State X) :
  let s' := fst (generateCard fetch s) in
  (forall ws t,
      blank (list_ascii_of_string ws) -> handle s = ws ++ "@" ++ t ->
      JsString.trim t <> "" -> selectedRole s <> "" ->
      username (profile s') = JsString.trim t)
  /\ (no_at (handle s) = true ->
      JsString.trim (handle s) <> "" -> selectedRole s <> "" ->
      username (profile s') = JsString.trim (handle s))
  /\ (handle s = "@Example " -> selectedRole s = "Mage" ->
      username (profile s') = "Example"
      /\ exists view,
          renderCard s' = Some view
          /\ badge view = "MAGE"
          /\ starsRow view = ["#CC44FF"; "#CC44FF"; "#CC44FF"]
          /\ sideHandle view = "@Example").
Proof.
  cbv zeta. split; [|split].
  - intros ws t Hws Hh Ht Hrole.
    assert (Hu : normalizeHandle (handle s) = JsString.trim t).
    { unfold normalizeHandle.
      now rewrite Hh, (replace_skips _ _ (blank_no_at _ Hws)), trim_blank. }
    rewrite (generateCard_valid s _ Hu Ht Hrole). simpl.
    apply resolveProfile_username.
  - intros Hno Ht Hrole.
    assert (Hu : normalizeHandle (handle s) = JsString.trim (handle s)).
    { unfold normalizeHandle. now rewrite replace_absent. }
    rewrite (generateCard_valid s _ Hu Ht Hrole). simpl.
    apply resolveProfile_username.
  - intros Hh Hrole.
    assert (Hu : normalizeHandle (handle s) = "Example") by now rewrite Hh.
    rewrite (generateCard_valid s "Example" Hu);
      [|discriminate | rewrite Hrole; discriminate].
    simpl. rewrite resolveProfile_username. split; [reflexivity|].
    unfold renderCard. simpl. rewrite Hrole. simpl.
    rewrite resolveProfile_username. eexists. repeat split.
Qed.

(** C6.  When the normalized handle is empty or no role is selected,
    generateCard sets an error message, fetches nothing, starts no lookup,
    and leaves every other hook as it was. *)
Theorem validation_error_changes_only_the_message (s : State X) :
  normalizeHandle (handle s) = "" \/ selectedRole s = "" ->
  let s' := fst (generateCard fetch s) in
  snd (generateCard fetch s) = []
  /\ snd (generateCard_begin s) = None
  /\ error s' <> ""
  /\ (normalizeHandle (handle s) = "" ->
      error s' = "Please enter your X/Twitter username")
  /\ (normalizeHandle (handle s) <> "" ->
      error s' = "Please select your role")
  /\ s' = setError (error s') s
  /\ handle s' = handle s /\ selectedRole s' = selectedRole s
  /\ loading s' = loading s /\ exporting s' = exporting s
  /\ profile s' = profile s /\ showCard s' = showCard s
  /\ extra s' = extra s.
Proof.
  intros H. unfold generateCard, generateCard_begin. simpl.
  destruct (String.eqb (normalizeHandle (handle s)) "") eqn:E1.
  - apply String.eqb_eq in E1. simpl.
    repeat split; try discriminate; congruence.
  - apply String.eqb_neq in E1. destruct H as [H | H]; [contradiction|].
    rewrite H. simpl. repeat split; try discriminate; congruence.
Qed.


End GenerateCard.

(** The record built from a successful lookup: the avatar goes through the
    relay, the empty description falls back to the default bio. *)
Example resolveProfile_example :
  resolveProfile "Example" (Demo.profile_api (profileUrl "Example"))
  = {| username := "Example";
       displayName := JsVal.Str "Example User";
       avatarUrl :=
         JsVal.Str
           "/api/img?url=https%3A%2F%2Fpbs.twimg.com%2Fprofile_images%2F1%2Fabc_400x400.jpg";
       bio := JsVal.Str "Stay Ritualized";
       followers := JsVal.Num (Qmake 1234 1);
       following := JsVal.Null;
       tweets := JsVal.Null |}.
Proof. reflexivity. Qed.

(** A lookup whose [user] carries a number for the avatar: lines 233-234
    have assigned the name and the avatar when the [replace] of line 235
    throws; the bio and the counts are the defaults. *)
Example resolveProfile_stops_at_avatar :
  resolveProfile "Example"
    (FetchResolves true
       (JsonResolves
          (JsVal.Obj
             [("user",
               JsVal.Obj [("name", JsVal.Str "Example User");
                          ("avatar_url", JsVal.Num (Qmake 5 1));
                          ("description", JsVal.Str "hello");
                          ("followers_count", JsVal.Num (Qmake 7 1))])])))
  = {| username := "Example";
       displayName := JsVal.Str "Example User";
       avatarUrl := JsVal.Num (Qmake 5 1);
       bio := JsVal.Str "Stay Ritualized";
       followers := JsVal.Null;
       following := JsVal.Null;
       tweets := JsVal.Null |}.
Proof. reflexivity. Qed.


Lemma resolved_handle_is_normalized_witness :
  let s' := fst (generateCard Demo.profile_api (Demo.form tt "  @Example " "Mage")) in
  username (profile s') = "Example"
  /\ username
       (profile (fst (generateCard Demo.profile_api (Demo.form tt " Example " "Mage"))))
     = "Example"
  /\ exists view,
      renderCard (fst (generateCard Demo.profile_api (Demo.form tt "@Example " "Mage")))
      = Some view
      /\ badge view = "MAGE"
      /\ starsRow view = ["#CC44FF"; "#CC44FF"; "#CC44FF"]
      /\ sideHandle view = "@Example".
Proof.
  cbv zeta. split; [|split].
  - apply (proj1 (resolved_handle_is_normalized Demo.profile_api
                    (Demo.form tt "  @Example " "Mage")) "  " "Example ");
      try reflexivity; try discriminate.
    apply blank_1; [reflexivity|]. apply blank_1; [reflexivity|]. apply blank_nil.
  - apply (proj1 (proj2 (resolved_handle_is_normalized Demo.profile_api
                           (Demo.form tt " Example " "Mage"))));
      try reflexivity; discriminate.
  - apply (proj2 (proj2 (resolved_handle_is_normalized Demo.profile_api
                           (Demo.form tt "@Example " "Mage")))); reflexivity.
Defined.

Lemma validation_error_changes_only_the_message_witness :
  fst (generateCard Demo.profile_api (Demo.form tt " @ " "Mage"))
  = setError "Please enter your X/Twitter username" (Demo.form tt " @ " "Mage")
  /\ fst (generateCard Demo.profile_api (Demo.form tt "Example" ""))
     = setError "Please select your role" (Demo.form tt "Example" "").
Proof.
  split.
  - destruct (validation_error_changes_only_the_message Demo.profile_api
                (Demo.form tt " @ " "Mage") (or_introl eq_refl))
      as (_ & _ & _ & Hmsg & _ & Hs & _).
    rewrite Hs at 1. now rewrite Hmsg.
  - destruct (validation_error_changes_only_the_message Demo.profile_api
                (Demo.form tt "Example" "") (or_intror eq_refl))
      as (_ & _ & _ & _ & Hmsg & Hs & _).
    rewrite Hs at 1. rewrite Hmsg; [reflexivity | discriminate].
Defined.


(** *** roleConfig *)

(** The two tables differ in the emoji only: the roles, their stars, rarity
    labels and colours are the same in part_001 and in page.js. *)
Lemma role_tables_differ_in_the_emoji_only :
  map (fun kc => (fst kc, stars (snd kc), rarity (snd kc), color (snd kc),
                  colorDark (snd kc)))
      PageTab.roleConfig
  = map (fun kc => (fst kc, stars (snd kc), rarity (snd kc), color (snd kc),
                    colorDark (snd kc)))
        roleConfig.
Proof. reflexivity. Qed.

(** *** fmtNum *)




(** *** The handle, whatever its shape *)

Lemma app_empty_r (s : string) : s ++ "" = s.
Proof. induction s as [|c s IH]; simpl; [reflexivity | now rewrite IH]. Qed.

Lemma trim_all_blank (ws : string) :
  blank (list_ascii_of_string ws) -> JsString.trim ws = "".
Proof.
  intros H. rewrite <- (app_empty_r ws). now rewrite trim_blank.
Qed.

Lemma first_at (h : string) :
  no_at h = true
  \/ exists pre rest, h = pre ++ "@" ++ rest /\ no_at pre = true.
Proof.
  induction h as [|c h IH]; [now left|].
  destruct (Ascii.eqb c "@") eqn:E.
  - right. apply Ascii.eqb_eq in E. subst c. now exists "", h.
  - destruct IH as [IH | (pre & rest & -> & Hpre)].
    + left. simpl. now rewrite E, IH.
    + right. exists (String c pre), rest. split; [reflexivity|].
      simpl. now rewrite E, Hpre.
Qed.

(** X4.  Line 217 removes the first ["@"] of the text, wherever it stands,
    and no other, and trims what is left. *)
Theorem normalizeHandle_removes_the_first_at (h : string) :
  (no_at h = true /\ normalizeHandle h = JsString.trim h)
  \/ (exists pre rest,
         h = pre ++ "@" ++ rest /\ no_at pre = true
         /\ normalizeHandle h = JsString.trim (pre ++ rest)).
Proof.
  destruct (first_at h) as [H | (pre & rest & -> & H)].
  - left. split; [exact H|]. unfold normalizeHandle. now rewrite replace_absent.
  - right. exists pre, rest. repeat split; [exact H|].
    unfold normalizeHandle. now rewrite replace_skips.
Qed.

Section Refusal.
Context {X : Type}.
Variable fetch : string -> FetchResult.

(** X5.  A handle that is white space, with or without one ["@"] in it, is
    refused with the message about the username, whatever the role, and
    nothing is fetched. *)
Theorem blank_handle_is_refused (s : State X) (ws1 ws2 : string) :
  blank (list_ascii_of_string ws1) -> blank (list_ascii_of_string ws2) ->
  handle s = ws1 ++ "@" ++ ws2 \/ handle s = ws1 ->
  generateCard fetch s
  = (setError "Please enter your X/Twitter username" (setError "" s), []).
Proof.
  intros H1 H2 Hh.
  assert (Hn : normalizeHandle (handle s) = "").
  { destruct Hh as [-> | ->].
    - unfold normalizeHandle.
      rewrite (replace_skips _ _ (blank_no_at _ H1)), trim_blank by exact H1.
      now apply trim_all_blank.
    - unfold normalizeHandle.
      rewrite (replace_absent _ (blank_no_at _ H1)). now apply trim_all_blank. }
  unfold generateCard, generateCard_begin. cbn [handle setError].
  now rewrite Hn.
Qed.

End Refusal.

Lemma blank_handle_is_refused_witness :
  error (fst (generateCard Demo.profile_api (Demo.form tt "  @ " "Mage")))
  = "Please enter your X/Twitter username"
  /\ snd (generateCard Demo.profile_api (Demo.form tt "  @ " "Mage")) = [].
Proof.
  assert (H2 : blank (list_ascii_of_string "  ")).
  { apply blank_1; [reflexivity|]. apply blank_1; [reflexivity|]. apply blank_nil. }
  assert (H1 : blank (list_ascii_of_string " ")).
  { apply blank_1; [reflexivity|]. apply blank_nil. }
  rewrite (blank_handle_is_refused Demo.profile_api (Demo.form tt "  @ " "Mage")
             "  " " " H2 H1 (or_introl eq_refl)).
  split; reflexivity.
Defined.

(** *** The record *)

Lemma truthy_or_r (a b : JsVal.t) :
  JsVal.truthy b = true -> JsVal.truthy (JsVal.or a b) = true.
Proof. unfold JsVal.or. intros H. now destruct (JsVal.truthy a) eqn:E. Qed.

Lemma coalesce_null_defined (a : JsVal.t) :
  JsVal.coalesce a JsVal.Null <> JsVal.Undefined.
Proof. now destruct a. Qed.

Lemma locals_sound (u : string) : u <> "" -> sound u (locals u).
Proof.
  intros Hu. unfold sound, locals. simpl.
  repeat split; try discriminate.
  destruct (String.eqb u "") eqn:E; [apply String.eqb_eq in E; contradiction|].
  reflexivity.
Qed.

Lemma read_user_sound (u : string) (v : JsVal.t) :
  u <> "" -> keeps (sound u) (read_user v).
Proof.
  intros Hu. unfold read_user, assign_displayName, assign_avatarUrl,
    assign_bio, assign_counts.
  assert (Hname : forall l, sound u l ->
                     JsVal.truthy (JsVal.Str (username l)) = true).
  { intros l (-> & _). simpl.
    destruct (String.eqb u "") eqn:E; [apply String.eqb_eq in E; contradiction|].
    reflexivity. }
  unfold keeps, Exec.bind, Exec.get, Exec.modify, Exec.when, Exec.throw,
    Exec.ret.
  intros l Hl. pose proof (Hname l Hl) as Hn.
  destruct Hl as (H1 & H2 & H3 & H4 & H5 & H6).
  cbn [fst snd username displayName avatarUrl bio followers following tweets].
  match goal with
  | |- context [JsVal.truthy ?a] =>
      lazymatch a with
      | JsVal.or _ (JsVal.Str "") => generalize a
      end
  end.
  intros a.
  destruct (JsVal.truthy a) eqn:Ea.
  - destruct a; cbn;
      try (unfold sound; cbn; repeat split;
           first [ assumption | now apply truthy_or_r
                 | apply coalesce_null_defined ]).
    match goal with
    | |- context [if ?b then _ else _] => destruct b
    end; cbn;
      try match goal with
          | |- context [JsString.encodeURIComponent ?x] =>
              destruct (JsString.encodeURIComponent x)
          end;
      cbn; unfold sound; cbn; repeat split;
      first [ assumption | now apply truthy_or_r
            | apply coalesce_null_defined ].
  - cbn. unfold sound; cbn; repeat split;
      first [ assumption | now apply truthy_or_r
            | apply coalesce_null_defined ].
Qed.

Lemma try_block_sound (u : string) (r : FetchResult) :
  u <> "" -> keeps (sound u) (try_block r).
Proof.
  intros Hu. destruct r as [|ok [|data]]; simpl.
  - apply keeps_throw.
  - apply keeps_bind; [apply keeps_when, keeps_throw | intros; apply keeps_throw].
  - apply keeps_bind; [apply keeps_when, keeps_throw | intros].
    apply keeps_when, read_user_sound, Hu.
Qed.

Lemma resolveProfile_sound (u : string) (r : FetchResult) :
  u <> "" -> sound u (resolveProfile u r).
Proof.
  intros Hu. unfold resolveProfile, Exec.exec.
  apply (keeps_try_catch (sound u)).
  - now apply try_block_sound.
  - apply keeps_ret.
  - now apply locals_sound.
Qed.

(** X6.  Whatever the lookup answers, the record of a non-empty handle has a
    name and a bio that are truthy, so the card prints them and never its
    fallback for the bio, and counts that are never [undefined]. *)
Theorem resolved_record_is_presentable (u : string) (r : FetchResult) :
  u <> "" ->
  let p := resolveProfile u r in
  username p = u
  /\ JsVal.truthy (displayName p) = true
  /\ JsVal.truthy (bio p) = true
  /\ JsVal.or (bio p) (JsVal.Str "Stay Ritualized") = bio p
  /\ followers p <> JsVal.Undefined
  /\ following p <> JsVal.Undefined
  /\ tweets p <> JsVal.Undefined.
Proof.
  intros Hu. cbv zeta.
  destruct (resolveProfile_sound u r Hu) as (H1 & H2 & H3 & H4 & H5 & H6).
  repeat split; try assumption.
  unfold JsVal.or. now rewrite H3.
Qed.

Lemma resolved_record_is_presentable_witness :
  JsVal.truthy
    (displayName (resolveProfile "Example" (Demo.profile_api_404 "")))
  = true
  /\ followers (resolveProfile "Example" (Demo.profile_api "")) <> JsVal.Undefined.
Proof.
  split.
  - apply (resolved_record_is_presentable "Example" (Demo.profile_api_404 "")).
    discriminate.
  - apply (resolved_record_is_presentable "Example" (Demo.profile_api "")).
    discriminate.
Defined.

(** X7.  The card hands a followers count to [fmtNum] only when it is
    neither [null] nor [undefined]: the dash of [fmtNum] is never printed on
    a card. *)
Theorem followers_stat_is_never_nullish (u : string) (r : FetchResult)
        (v : JsVal.t) :
  u <> "" ->
  followersStat (resolveProfile u r) = Some v ->
  v = followers (resolveProfile u r)
  /\ v <> JsVal.Null /\ v <> JsVal.Undefined.
Proof.
  intros Hu. unfold followersStat.
  destruct (resolveProfile_sound u r Hu) as (_ & _ & _ & H4 & _).
  destruct (followers (resolveProfile u r)); intros [= <-];
    repeat split; try discriminate. now elim H4.
Qed.

Lemma followers_stat_is_never_nullish_witness :
  followersStat (resolveProfile "Example" (Demo.profile_api ""))
  = Some (JsVal.Num (Qmake 1234 1))
  /\ JsVal.Num (Qmake 1234 1) <> JsVal.Null.
Proof.
  split; [reflexivity|].
  apply (followers_stat_is_never_nullish "Example" (Demo.profile_api "")
           (JsVal.Num (Qmake 1234 1))); [discriminate | reflexivity].
Defined.

(** *** The avatar *)

Lemma replace_nonempty (p r s : string) :
  s <> "" -> r <> "" -> JsString.replace p r s <> "".
Proof.
  intros Hs Hr. destruct s as [|c s]; [contradiction|].
  rewrite replace_unfold.
  destruct (prefix p (String c s)); [|discriminate].
  destruct r; [contradiction | discriminate].
Qed.

Lemma or_empty (x : JsVal.t) :
  JsVal.truthy (JsVal.or x (JsVal.Str "")) = true
  \/ JsVal.or x (JsVal.Str "") = JsVal.Str "".
Proof.
  unfold JsVal.or. destruct (JsVal.truthy x) eqn:E; [left; exact E | now right].
Qed.

Lemma read_user_avatar (v : JsVal.t) (l : Profile) :
  match avatarUrl (snd (read_user v l)) with
  | JsVal.Str a =>
      a = ""
      \/ (exists src, src <> "" /\ relayed src = Some a)
      \/ (a <> "" /\ JsString.encodeURIComponent a = None
          /\ fst (read_user v l) = None)
  | x => JsVal.truthy x = true /\ fst (read_user v l) = None
  end.
Proof.
  unfold read_user.
  set (raw := JsVal.or (JsVal.or _ _) (JsVal.Str "")).
  assert (Hraw : JsVal.truthy raw = true \/ raw = JsVal.Str "").
  { apply or_empty. }
  clearbody raw.
  unfold Exec.bind, Exec.when, Exec.get, assign_displayName,
    assign_avatarUrl, assign_bio, assign_counts, Exec.modify, Exec.throw,
    Exec.ret.
  cbn [fst snd avatarUrl username displayName bio followers following tweets].
  destruct Hraw as [Ht | ->]; [|cbn; now left].
  rewrite Ht.
  destruct raw; cbn in Ht |- *; try discriminate; try (split; [exact Ht | reflexivity]);
    try (split; reflexivity).
  apply negb_true_iff in Ht. apply String.eqb_neq in Ht.
  pose proof (replace_nonempty "_normal" "_400x400" s Ht ltac:(discriminate)) as Hn.
  pose proof Hn as Hn'. apply String.eqb_neq in Hn'. rewrite Hn'. cbn.
  destruct (JsString.encodeURIComponent (JsString.replace "_normal" "_400x400" s))
    as [e|] eqn:Ee; cbn.
  - right. left. eexists. split; [exact Hn|]. unfold relayed. now rewrite Ee.
  - right. right. repeat split; assumption.
Qed.

(** X8.  Whatever the lookup answers, an avatar that is a text is empty (the
    card then shows the emoji of the role), or an address of the relay, or
    a text with a surrogate without its pair, at which [encodeURIComponent]
    threw; an avatar that is not a text is left by a [try] block that threw.
    So the avatar of a lookup whose [try] block completes is empty or goes
    through the relay. *)
Theorem avatar_goes_through_the_relay (u : string) (r : FetchResult) :
  match avatarUrl (resolveProfile u r) with
  | JsVal.Str a =>
      a = ""
      \/ (exists src, src <> "" /\ relayed src = Some a)
      \/ (a <> "" /\ JsString.encodeURIComponent a = None
          /\ fst (try_block r (locals u)) = None)
  | v => JsVal.truthy v = true /\ fst (try_block r (locals u)) = None
  end
  /\ (fst (try_block r (locals u)) = Some tt ->
      exists a, avatarUrl (resolveProfile u r) = JsVal.Str a
                /\ (a = "" \/ exists src, src <> "" /\ relayed src = Some a)).
Proof.
  assert (H : match avatarUrl (resolveProfile u r) with
              | JsVal.Str a =>
                  a = ""
                  \/ (exists src, src <> "" /\ relayed src = Some a)
                  \/ (a <> "" /\ JsString.encodeURIComponent a = None
                      /\ fst (try_block r (locals u)) = None)
              | v => JsVal.truthy v = true /\ fst (try_block r (locals u)) = None
              end).
  { unfold resolveProfile, Exec.exec, Exec.try_catch.
    destruct r as [|[|] [|data]]; simpl; try (now left).
    unfold Exec.bind, Exec.when; simpl.
    destruct (JsVal.truthy (JsVal.opt_prop data "user")); simpl; [|now left].
    pose proof (read_user_avatar (JsVal.prop data "user") (locals u)) as H.
    unfold locals in H.
    destruct (read_user (JsVal.prop data "user") _) as [[[]|] l']; exact H. }
  split; [exact H|].
  intros Hok. rewrite Hok in H.
  destruct (avatarUrl (resolveProfile u r)) as [| |b|q|a|l|o];
    try (destruct H as [_ H]; discriminate).
  exists a. split; [reflexivity|].
  destruct H as [H | [H | (_ & _ & H)]]; [now left | now right | discriminate].
Qed.

(** An answer whose avatar holds a surrogate without its pair: line 235 has
    assigned the address when the [encodeURIComponent] of line 236 throws,
    and the card is handed an avatar that does not go through the relay. *)
Example resolveProfile_stops_at_surrogate :
  resolveProfile "Example"
    (FetchResolves true
       (JsonResolves
          (JsVal.Obj
             [("user",
               JsVal.Obj [("avatar_url",
                           JsVal.Str ("https://pbs.twimg.com/"
                                      ++ String "237" (String "160" (String "128" ""))
                                      ++ "_normal.jpg"))])])))
  = {| username := "Example";
       displayName := JsVal.Str "Example";
       avatarUrl :=
         JsVal.Str ("https://pbs.twimg.com/"
                    ++ String "237" (String "160" (String "128" ""))
                    ++ "_400x400.jpg");
       bio := JsVal.Str "Stay Ritualized";
       followers := JsVal.Null;
       following := JsVal.Null;
       tweets := JsVal.Null |}.
Proof. reflexivity. Qed.

(** *** fmtNum away from the halves *)

(** X9.  Away from the exact halves, [fmtNum] prints the count rounded to
    the nearest tenth of a thousand or of a million. *)
Theorem fmtNum_rounds_to_the_nearest_tenth (n : Z) :
  ((1000 <= n < 1000000)%Z -> (n mod 100 <> 50)%Z ->
   let t := ((n + 50) / 100)%Z in
   fmtNum (CInt n)
   = Number.string_of_Z (t / 10) ++ "." ++ Number.string_of_Z (t mod 10) ++ "K")
  /\ ((1000000 <= n < 2 ^ 53)%Z -> (n mod 100000 <> 50000)%Z ->
      let t := ((n + 50000) / 100000)%Z in
      fmtNum (CInt n)
      = Number.string_of_Z (t / 10) ++ "." ++ Number.string_of_Z (t mod 10) ++ "M")
  /\ ((999950 <= n < 1000000)%Z -> fmtNum (CInt n) = "1000.0K").
Proof.
  assert (HK : (1000 <= n < 1000000)%Z -> (n mod 100 <> 50)%Z ->
               fmtNum (CInt n)
               = Number.string_of_Z ((n + 50) / 100 / 10) ++ "."
                 ++ Number.string_of_Z (((n + 50) / 100) mod 10) ++ "K").
  { intros Hn Hmod. unfold fmtNum, fmtNum_with.
    destruct (Z.leb_spec 1000000 n) as [|_]; [lia|].
    destruct (Z.leb_spec 1000 n) as [_|]; [|lia].
    change 1000%Z with (20 * 50)%Z at 1.
    destruct (NumberFacts.quotient_tenths n 50 8 _ _
                ltac:(lia) ltac:(lia) NumberFacts.of_Z_thousand
                eq_refl ltac:(lia) eq_refl eq_refl ltac:(lia) ltac:(lia))
      as (t & -> & Ht).
    assert (t = ((n + 50) / 100)%Z) as ->.
    { pose proof (Z.div_mod n 100 ltac:(lia)).
      pose proof (Z.mod_pos_bound n 100 ltac:(lia)).
      pose proof (Z.div_mod (n + 50) 100 ltac:(lia)).
      pose proof (Z.mod_pos_bound (n + 50) 100 ltac:(lia)).
      lia. }
    now rewrite <- !StringFacts.app_assoc. }
  split; [exact HK|]. split.
  - intros Hn Hmod. cbv zeta. unfold fmtNum, fmtNum_with.
    destruct (Z.leb_spec 1000000 n) as [_|]; [|lia].
    change 1000000%Z with (20 * 50000)%Z at 1.
    destruct (NumberFacts.quotient_tenths n 50000 18 _ _
                ltac:(lia) ltac:(lia) NumberFacts.of_Z_million
                eq_refl ltac:(lia) eq_refl eq_refl ltac:(lia) ltac:(lia))
      as (t & -> & Ht).
    assert (t = ((n + 50000) / 100000)%Z) as ->.
    { pose proof (Z.div_mod n 100000 ltac:(lia)).
      pose proof (Z.mod_pos_bound n 100000 ltac:(lia)).
      pose proof (Z.div_mod (n + 50000) 100000 ltac:(lia)).
      pose proof (Z.mod_pos_bound (n + 50000) 100000 ltac:(lia)).
      lia. }
    now rewrite <- !StringFacts.app_assoc.
  - intros Hn.
    destruct (Z.eq_dec n 999950) as [-> | Hne]; [reflexivity|].
    assert (Hmod : (n mod 100 <> 50)%Z).
    { pose proof (Z.div_mod n 100 ltac:(lia)). lia. }
    rewrite (HK ltac:(lia) Hmod).
    assert (((n + 50) / 100)%Z = 10000%Z) as ->; [|reflexivity].
    pose proof (Z.div_mod (n + 50) 100 ltac:(lia)).
    pose proof (Z.mod_pos_bound (n + 50) 100 ltac:(lia)).
    lia.
Qed.

Lemma fmtNum_rounds_to_the_nearest_tenth_witness :
  fmtNum (CInt 1234) = "1.2K" /\ fmtNum (CInt 1960000) = "2.0M"
  /\ fmtNum (CInt 999960) = "1000.0K".
Proof.
  split; [|split].
  - apply (proj1 (fmtNum_rounds_to_the_nearest_tenth 1234)); [lia | discriminate].
  - apply (proj1 (proj2 (fmtNum_rounds_to_the_nearest_tenth 1960000)));
      [split; [lia | reflexivity] | discriminate].
  - apply (proj2 (proj2 (fmtNum_rounds_to_the_nearest_tenth 999960))); lia.
Defined.

(** *** generateCard on a valid form *)

Section Valid.
Context {X : Type}.
Variable fetch : string -> FetchResult.


End Valid.


(** *** A lookup that settles late *)

(** A lookup that settles when no role of the table is selected raises the
    card flag all the same: the form is hidden and no card is rendered. *)
Lemma settle_without_role {X} (s : State X) (u : string) (r : FetchResult) :
  cfg (selectedRole s) = None ->
  let s' := generateCard_settle u r s in
  formShown s' = false /\ renderCard s' = None.
Proof.
  intros H. cbv zeta. unfold formShown, renderCard.
  cbn. now rewrite H.
Qed.

End CardFacts.


(** ** The export *)

Module ExportFacts.

Import Exec Card Browser ExecFacts.
Local Open Scope string_scope.

(** *** Traces *)

Lemma rasterizations_app (t1 t2 : list Effect) :
  rasterizations (t1 ++ t2) = (rasterizations t1 ++ rasterizations t2)%list.
Proof.
  induction t1 as [|e t1 IH]; [reflexivity|].
  destruct e; simpl; rewrite IH; reflexivity.
Qed.

Lemma created_app (t1 t2 : list Effect) :
  created (t1 ++ t2) = (created t1 ++ created t2)%list.
Proof.
  induction t1 as [|e t1 IH]; [reflexivity|].
  destruct e; simpl; rewrite IH; reflexivity.
Qed.

Lemma revoked_app (t1 t2 : list Effect) :
  revoked (t1 ++ t2) = (revoked t1 ++ revoked t2)%list.
Proof.
  induction t1 as [|e t1 IH]; [reflexivity|].
  destruct e as [| | | | | | | | | |ms cb|cb]; simpl; try (rewrite IH; reflexivity);
    destruct cb; simpl; rewrite IH; reflexivity.
Qed.

Section Worlds.

Context {X : Type}.

Variable P : World X -> Prop.

Lemma keeps_emit (e : Effect) :
  (forall w, P w -> P (did w [e])) -> keeps P (emit e).
Proof. intros H w Hw. apply H, Hw. Qed.

Lemma keeps_update (f : State X -> State X) :
  (forall w, P w -> P (mkWorld (f (ui w)) (trace w))) -> keeps P (update f).
Proof. intros H w Hw. apply H, Hw. Qed.

Lemma keeps_if {A} (c : bool) (m1 m2 : Exec.M (World X) A) :
  keeps P m1 -> keeps P m2 -> keeps P (if c then m1 else m2).
Proof. now destruct c. Qed.

End Worlds.

(** Take a computation apart along its structure, trying [leaf] first on
    every part; what remains are its [emit]s and [update]s. *)
Ltac keeps_with leaf :=
  repeat first
    [ leaf
    | apply keeps_ret | apply keeps_throw | apply keeps_get
    | apply keeps_bind; [|intros ?]
    | apply keeps_when
    | apply keeps_try_catch
    | apply keeps_if
    | match goal with
      | |- keeps _ (match ?x with _ => _ end) => destruct x
      end
    | apply keeps_emit; intros ? ?
    | apply keeps_update; intros ? ? ].

Ltac keeps_structure := keeps_with fail.

Section Shared.

Context {X : Type}.

(** renderCardBlob: one rasterization when the first succeeds, otherwise
    exactly two, and the second decides between the bytes and the
    exception. *)
Lemma renderCardBlob_cases (b : Browser.t) (w : World X) :
  match toBlob b 3, toBlob b 2 with
  | BlobOk blob, _ =>
      renderCardBlob b w = (Some blob, did w [ToBlob 3])
  | _, BlobOk blob =>
      renderCardBlob b w = (Some blob, did w [ToBlob 3; ToBlob 2])
  | _, _ =>
      renderCardBlob b w = (None, did w [ToBlob 3; ToBlob 2])
  end.
Proof.
  unfold renderCardBlob, call_toBlob, emit, did, Exec.bind, Exec.try_catch,
    Exec.modify, Exec.ret, Exec.throw.
  destruct (toBlob b 3), (toBlob b 2); simpl; rewrite <- ?app_assoc; reflexivity.
Qed.

Lemma renderCardBlob_rasterizations (b : Browser.t) (w : World X) :
  rasterizations (trace (snd (renderCardBlob b w)))
  = (rasterizations (trace w) ++ attempts b)%list.
Proof.
  pose proof (renderCardBlob_cases b w) as H. unfold attempts.
  destruct (toBlob b 3), (toBlob b 2); rewrite H; simpl;
    now rewrite rasterizations_app.
Qed.

Lemma still_emit (e : Effect) (r : list nat) (w : World X) :
  rasterizations [e] = [] ->
  rasterizations (trace w) = r -> rasterizations (trace (did w [e])) = r.
Proof.
  intros He Hw. simpl. now rewrite rasterizations_app, He, app_nil_r.
Qed.

Lemma anchorDownload_still (b : Browser.t) (blob : Blob) (f : string) :
  still (@anchorDownload X b blob f).
Proof.
  intros r. unfold anchorDownload. keeps_structure; now apply still_emit.
Qed.

Lemma blobToDataURL_still (b : Browser.t) (blob : Blob) :
  still (@blobToDataURL X b blob).
Proof. intros r. unfold blobToDataURL. keeps_structure. Qed.

Lemma balanced_emit (e : Effect) (w : World X) :
  created [e] = revoked [e] -> balanced w -> balanced (did w [e]).
Proof.
  unfold balanced. intros He Hw. simpl.
  now rewrite created_app, revoked_app, He, Hw.
Qed.

Lemma anchorDownload_balanced (b : Browser.t) (blob : Blob) (f : string) :
  keeps balanced (@anchorDownload X b blob f).
Proof.
  intros w Hw. unfold anchorDownload, emit, Exec.bind, Exec.modify, balanced in *.
  simpl. rewrite !created_app, !revoked_app, Hw. simpl.
  now rewrite <- !app_assoc.
Qed.

Lemma renderCardBlob_balanced (b : Browser.t) :
  keeps balanced (@renderCardBlob X b).
Proof.
  unfold renderCardBlob, call_toBlob.
  keeps_structure; now apply balanced_emit.
Qed.

Lemma none_closed_emit (e : Effect) (w : World X) :
  closes_window e = false -> none_closed w -> none_closed (did w [e]).
Proof.
  unfold none_closed. intros He Hw. simpl.
  now rewrite existsb_app, Hw, orb_false_l; simpl; rewrite He.
Qed.

Lemma none_opened_emit (e : Effect) (w : World X) :
  opens_window e = false -> none_opened w -> none_opened (did w [e]).
Proof.
  unfold none_opened. intros He Hw. simpl.
  now rewrite existsb_app, Hw, orb_false_l; simpl; rewrite He.
Qed.

Lemma waitForImages_mounted (w : World X) :
  stageMounted (ui w) = true -> waitForImages w = (Some tt, w).
Proof.
  intros H. unfold waitForImages, Exec.bind, Exec.get, Exec.when.
  now rewrite H.
Qed.

(** The shape the tab page and the overlay page give to an export: wait
    for the images, note the status, rasterize, deliver; the handler and
    the cleanup rasterize nothing. *)
Lemma guarded_export_rasterizations
      (b : Browser.t) (f : State X -> State X)
      (post : Blob -> Exec.M (World X) unit)
      (handler : Exec.M (World X) unit) (cleanup : World X -> World X)
      (w : World X) :
  (forall blob, still (post blob)) -> still handler ->
  (forall w', rasterizations (trace (cleanup w')) = rasterizations (trace w')) ->
  stageMounted (ui w) = true ->
  rasterizations
    (trace (Exec.exec
              (Exec.finally
                 (Exec.try_catch
                    (waitForImages ;; update f ;;
                     blob <- renderCardBlob b ;; post blob)%exec
                    handler)
                 cleanup) w))
  = (rasterizations (trace w) ++ attempts b)%list.
Proof.
  intros Hpost Hhandler Hcleanup Hm.
  unfold Exec.exec, Exec.finally, Exec.try_catch.
  unfold Exec.bind at 1. rewrite (waitForImages_mounted w Hm).
  unfold Exec.bind at 1. cbn [update Exec.modify].
  unfold Exec.bind at 1.
  set (w1 := mkWorld _ _).
  pose proof (renderCardBlob_rasterizations b w1) as Hr.
  change (rasterizations (trace w1)) with (rasterizations (trace w)) in Hr.
  destruct (renderCardBlob b w1) as [[blob|] w2]; cbn [snd] in Hr.
  - pose proof (Hpost blob _ w2 Hr) as Ha. cbn beta in Ha.
    destruct (post blob w2) as [[[]|] w3]; cbn [snd fst] in *.
    + now rewrite Hcleanup.
    + pose proof (Hhandler _ w3 Ha) as Hc. cbn beta in Hc.
      destruct (handler w3) as [? w4]. cbn [snd] in *. now rewrite Hcleanup.
  - pose proof (Hhandler _ w2 Hr) as Hc. cbn beta in Hc.
    destruct (handler w2) as [? w4]. cbn [snd] in *. now rewrite Hcleanup.
Qed.

End Shared.

(** A property kept by both halves of an export is kept by the export. *)
Ltac by_halves download begin sync Hs Hr Hw :=
  unfold download, begin;
  match goal with
  | |- context [if ?c then _ else _] => destruct c; [exact Hw|]
  end;
  match goal with
  | |- context [sync ?b ?f ?w] =>
      let E := fresh "E" in
      pose proof (Hs b f w Hw) as E;
      destruct (sync b f w) as [[?|] ?]; cbn [snd] in E;
      [apply Hr, E | exact E]
  end.

Ltac leaves :=
  first [ eassumption
        | apply balanced_emit; [reflexivity | assumption]
        | apply none_closed_emit; [reflexivity | assumption]
        | apply none_opened_emit; [reflexivity | assumption] ].

(** *** The tab page (part_001) *)

Module Tab.

Import PageTab.

Lemma tab_resume_rasterizations (b : Browser.t) (t : Task) (w : World) :
  stageMounted (ui w) = true ->
  rasterizations (trace (Exec.exec (download_resume b t) w))
  = (rasterizations (trace w) ++ attempts b)%list.
Proof.
  intros Hm. unfold download_resume, download_try.
  apply guarded_export_rasterizations; [| | |exact Hm].
  - intros blob r. unfold fillTabWithImage.
    keeps_with ltac:(first [ apply anchorDownload_still
                           | apply blobToDataURL_still ]);
      first [now apply still_emit | assumption].
  - intros r. unfold download_catch.
    keeps_structure; first [now apply still_emit | assumption].
  - intros w'. unfold download_finally. cbn [trace].
    now rewrite rasterizations_app, app_nil_r.
Qed.

Ltac unfold_tab :=
  unfold download_resume, download_try, download_catch, download_sync,
    fillTabWithImage, waitForImages, blobToDataURL.

Lemma tab_download_balanced (b : Browser.t) (w : World) :
  balanced w -> balanced (download b w).
Proof.
  assert (Hs : forall b f, keeps balanced (download_sync b f)).
  { intros b0 f. unfold_tab. keeps_structure; leaves. }
  assert (Hr : forall b t, keeps balanced (download_resume b t)).
  { intros b0 t. unfold_tab. apply keeps_finally.
    - keeps_with ltac:(first [ apply renderCardBlob_balanced
                             | apply anchorDownload_balanced ]); leaves.
    - intros w0 Hw0. unfold download_finally.
      apply (balanced_emit (SetTimeout 5000%N ClearExportStatus)
               (mkWorld (setExporting false (ui w0)) (trace w0)) eq_refl Hw0). }
  intros Hw. by_halves download download_begin download_sync Hs Hr Hw.
Qed.

Lemma tab_download_none_closed (b : Browser.t) (w : World) :
  none_closed w -> none_closed (download b w).
Proof.
  assert (Hs : forall b f, keeps none_closed (download_sync b f)).
  { intros b0 f. unfold_tab. keeps_structure; leaves. }
  assert (Hr : forall b t, keeps none_closed (download_resume b t)).
  { intros b0 t. unfold_tab. unfold renderCardBlob, call_toBlob, anchorDownload.
    apply keeps_finally.
    - keeps_structure; leaves.
    - intros w0 Hw0. unfold download_finally.
      apply (none_closed_emit (SetTimeout 5000%N ClearExportStatus)
               (mkWorld (setExporting false (ui w0)) (trace w0)) eq_refl Hw0). }
  intros Hw. by_halves download download_begin download_sync Hs Hr Hw.
Qed.

Lemma tab_download_loading (b : Browser.t) (w : World) :
  loading (ui (download b w)) = loading (ui w).
Proof.
  remember (loading (ui w)) as l eqn:Hl. symmetry in Hl. revert Hl.
  assert (Hs : forall b f, keeps (fun w => loading (ui w) = l) (download_sync b f)).
  { intros b0 f. unfold_tab. keeps_structure; leaves. }
  assert (Hr : forall b t, keeps (fun w => loading (ui w) = l) (download_resume b t)).
  { intros b0 t. unfold_tab. unfold renderCardBlob, call_toBlob, anchorDownload.
    apply keeps_finally; [keeps_structure; leaves | intros w0 Hw0; exact Hw0]. }
  intros Hw. by_halves download download_begin download_sync Hs Hr Hw.
Qed.

Lemma tab_resume_exporting (b : Browser.t) (t : Task) (w : World) :
  exporting (ui (Exec.exec (download_resume b t) w)) = false.
Proof.
  unfold Exec.exec, download_resume, Exec.finally.
  now destruct (Exec.try_catch (download_try b t) (download_catch b t) w).
Qed.

Lemma tab_sync_result (b : Browser.t) (f : string) (w : World) :
  exists t tr,
    download_sync b f w
    = (Some t,
       mkWorld (setExportStatus "Renderingâ€¦" (setExporting true (ui w)))
               (trace w ++ tr))
    /\ rasterizations tr = [].
Proof.
  unfold download_sync, emit, update, Exec.bind, Exec.when, Exec.modify,
    Exec.ret.
  destruct (ios b); cbn.
  - destruct (window_open b && negb (closed b AfterOpen) && write_ok b LoadingPage);
      cbn; rewrite <- ?app_assoc; do 2 eexists; split; reflexivity.
  - exists (Build_Task false f false), []. now rewrite app_nil_r.
Qed.

Lemma tab_download_rasterizations (b : Browser.t) (s : State) :
  stageMounted s = true -> exporting s = false ->
  rasterizations (trace (download b (fresh s))) = attempts b.
Proof.
  intros Hm He. unfold download, download_begin, fresh. cbn [ui].
  rewrite Hm, He. cbn [negb orb].
  destruct (tab_sync_result b (filename_of s) (mkWorld s [])) as (t & tr & -> & Htr).
  rewrite tab_resume_rasterizations by exact Hm.
  cbn [trace app]. now rewrite Htr.
Qed.

(** When the export throws, the tab receives the failure page. *)
Lemma tab_failure_page (b : Browser.t) (t : Task) (w : World) :
  task_preTab t = true -> closed b AfterAwaits = false ->
  write_ok b FailedPage = true ->
  fst (download_try b t w) = None ->
  In (DocumentWrite FailedPage) (trace (Exec.exec (download_resume b t) w)).
Proof.
  intros Hp Hc Hw Hfail.
  unfold Exec.exec, download_resume, Exec.finally, Exec.try_catch.
  destruct (download_try b t w) as [[[]|] w1]; [discriminate|].
  unfold download_catch, download_finally, emit, update, Exec.bind, Exec.when,
    Exec.modify.
  rewrite Hp, Hc, Hw. cbn. rewrite !in_app_iff. cbn. auto.
Qed.

Lemma tab_begin_guard (b : Browser.t) (w : World) :
  exporting (ui w) = true -> download_begin b w = (w, None).
Proof. intros H. unfold download_begin. now rewrite H, orb_true_r. Qed.

Lemma tab_begin_started (b : Browser.t) (w w' : World) (t : Task) :
  download_begin b w = (w', Some t) -> exporting (ui w') = true.
Proof.
  unfold download_begin. destruct (_ || _); [discriminate|].
  destruct (tab_sync_result b (filename_of (ui w)) w) as (t' & tr & -> & _).
  now intros [= <- _].
Qed.

End Tab.

(** *** The overlay page (page.js, second document) *)

Module Overlay.

Import PageOverlay.

Ltac unfold_overlay :=
  unfold download_resume, download_try, download_catch, download_sync,
    waitForImages, blobToDataURL.

Lemma overlay_resume_rasterizations (b : Browser.t) (t : Task) (w : World) :
  stageMounted (ui w) = true ->
  rasterizations (trace (Exec.exec (download_resume b t) w))
  = (rasterizations (trace w) ++ attempts b)%list.
Proof.
  intros Hm. unfold download_resume, download_try.
  apply guarded_export_rasterizations; [| | |exact Hm].
  - intros blob r.
    keeps_with ltac:(first [ apply anchorDownload_still
                           | apply blobToDataURL_still ]);
      first [now apply still_emit | assumption].
  - intros r. unfold download_catch.
    keeps_structure; first [now apply still_emit | assumption].
  - intros w'. unfold download_finally. cbn [trace].
    now rewrite rasterizations_app, app_nil_r.
Qed.

Lemma overlay_download_balanced (b : Browser.t) (w : World) :
  balanced w -> balanced (download b w).
Proof.
  assert (Hs : forall b f, keeps balanced (download_sync b f)).
  { intros b0 f. unfold_overlay. keeps_structure; leaves. }
  assert (Hr : forall b t, keeps balanced (download_resume b t)).
  { intros b0 t. unfold_overlay. apply keeps_finally.
    - keeps_with ltac:(first [ apply renderCardBlob_balanced
                             | apply anchorDownload_balanced ]); leaves.
    - intros w0 Hw0. unfold download_finally.
      apply (balanced_emit (SetTimeout 4000%N ClearExportStatus)
               (mkWorld (setExporting false (ui w0)) (trace w0)) eq_refl Hw0). }
  intros Hw. by_halves download download_begin download_sync Hs Hr Hw.
Qed.

Lemma overlay_download_none_opened (b : Browser.t) (w : World) :
  none_opened w -> none_opened (download b w).
Proof.
  assert (Hs : forall b f, keeps none_opened (download_sync b f)).
  { intros b0 f. unfold_overlay. keeps_structure; leaves. }
  assert (Hr : forall b t, keeps none_opened (download_resume b t)).
  { intros b0 t. unfold_overlay. unfold renderCardBlob, call_toBlob, anchorDownload.
    apply keeps_finally.
    - keeps_structure; leaves.
    - intros w0 Hw0. unfold download_finally.
      apply (none_opened_emit (SetTimeout 4000%N ClearExportStatus)
               (mkWorld (setExporting false (ui w0)) (trace w0)) eq_refl Hw0). }
  intros Hw. by_halves download download_begin download_sync Hs Hr Hw.
Qed.

Lemma overlay_download_loading (b : Browser.t) (w : World) :
  loading (ui (download b w)) = loading (ui w).
Proof.
  remember (loading (ui w)) as l eqn:Hl. symmetry in Hl. revert Hl.
  assert (Hs : forall b f, keeps (fun w => loading (ui w) = l) (download_sync b f)).
  { intros b0 f. unfold_overlay. keeps_structure; leaves. }
  assert (Hr : forall b t, keeps (fun w => loading (ui w) = l) (download_resume b t)).
  { intros b0 t. unfold_overlay. unfold renderCardBlob, call_toBlob, anchorDownload.
    apply keeps_finally; [keeps_structure; leaves | intros w0 Hw0; exact Hw0]. }
  intros Hw. by_halves download download_begin download_sync Hs Hr Hw.
Qed.

Lemma overlay_resume_exporting (b : Browser.t) (t : Task) (w : World) :
  exporting (ui (Exec.exec (download_resume b t) w)) = false.
Proof.
  unfold Exec.exec, download_resume, Exec.finally.
  now destruct (Exec.try_catch (download_try b t) download_catch w).
Qed.

Lemma overlay_sync_result (b : Browser.t) (f : string) (w : World) :
  download_sync b f w
  = (Some (Build_Task (ios b) f),
     mkWorld (setExportStatus "Rendering…" (setExporting true (ui w)))
             (trace w)).
Proof. reflexivity. Qed.

Lemma overlay_download_rasterizations (b : Browser.t) (s : State) :
  stageMounted s = true -> exporting s = false ->
  rasterizations (trace (download b (fresh s))) = attempts b.
Proof.
  intros Hm He. unfold download, download_begin, fresh. cbn [ui].
  rewrite Hm, He. cbn [negb orb]. rewrite overlay_sync_result.
  now rewrite overlay_resume_rasterizations by exact Hm.
Qed.

Lemma overlay_begin_guard (b : Browser.t) (w : World) :
  exporting (ui w) = true -> download_begin b w = (w, None).
Proof. intros H. unfold download_begin. now rewrite H, orb_true_r. Qed.

Lemma overlay_begin_started (b : Browser.t) (w w' : World) (t : Task) :
  download_begin b w = (w', Some t) -> exporting (ui w') = true.
Proof.
  unfold download_begin. destruct (_ || _); [discriminate|].
  rewrite overlay_sync_result. now intros [= <- _].
Qed.

End Overlay.

(** *** The share page (page.js, first document) *)

Module Share.

Import PageShare.

Ltac unfold_share :=
  unfold download_resume, download_try, download_catch, download_sync,
    close_popup, waitForImages, call_toBlob.

Lemma share_deliver_balanced (b : Browser.t) (t : Task) (blob : Blob) :
  keeps balanced (deliver b t blob).
Proof.
  intros w Hw. unfold deliver, emit, Exec.bind, Exec.modify, balanced in *.
  destruct (task_ios t && task_popup t); simpl;
    rewrite !created_app, !revoked_app, Hw; simpl;
    now rewrite <- !app_assoc.
Qed.

Lemma share_download_balanced (b : Browser.t) (w : World) :
  balanced w -> balanced (download b w).
Proof.
  assert (Hs : forall b f, keeps balanced (download_sync b f)).
  { intros b0 f. unfold_share. keeps_structure; leaves. }
  assert (Hr : forall b t, keeps balanced (download_resume b t)).
  { intros b0 t. unfold_share. apply keeps_finally.
    - keeps_with ltac:(apply share_deliver_balanced); leaves.
    - intros w0 Hw0. exact Hw0. }
  intros Hw. by_halves download download_begin download_sync Hs Hr Hw.
Qed.

Lemma share_download_loading (b : Browser.t) (w : World) :
  loading (ui (download b w)) = loading (ui w).
Proof.
  remember (loading (ui w)) as l eqn:Hl. symmetry in Hl. revert Hl.
  assert (Hs : forall b f, keeps (fun w => loading (ui w) = l) (download_sync b f)).
  { intros b0 f. unfold_share. keeps_structure; leaves. }
  assert (Hr : forall b t, keeps (fun w => loading (ui w) = l) (download_resume b t)).
  { intros b0 t. unfold_share. unfold deliver.
    apply keeps_finally; [keeps_structure; leaves | intros w0 Hw0; exact Hw0]. }
  intros Hw. by_halves download download_begin download_sync Hs Hr Hw.
Qed.

Lemma share_resume_exporting (b : Browser.t) (t : Task) (w : World) :
  exporting (ui (Exec.exec (download_resume b t) w)) = false.
Proof.
  unfold Exec.exec, download_resume, Exec.finally.
  now destruct (Exec.try_catch (download_try b t) (download_catch t) w).
Qed.

(** The popup is closed when the export throws. *)
Lemma share_popup_closed_on_failure (b : Browser.t) (t : Task) (w : World) :
  task_popup t = true ->
  fst (download_try b t w) = None ->
  In WindowClose (trace (Exec.exec (download_resume b t) w)).
Proof.
  intros Hp Hfail.
  unfold Exec.exec, download_resume, Exec.finally, Exec.try_catch.
  destruct (download_try b t w) as [[[]|] w1]; [discriminate|].
  unfold download_catch, close_popup, emit, Exec.bind, Exec.when, Exec.modify.
  rewrite Hp. cbn. rewrite !in_app_iff. cbn. auto.
Qed.

(** The popup is closed after a share. *)
Lemma share_popup_closed_after_share (b : Browser.t) (t : Task) (w : World)
      (blob : Blob) :
  task_popup t = true -> stageMounted (ui w) = true ->
  toBlob b 3 = BlobOk blob -> canShare b = true -> share b = true ->
  In WindowClose (trace (Exec.exec (download_resume b t) w)).
Proof.
  intros Hp Hm Hb Hc Hs.
  unfold Exec.exec, download_resume, Exec.finally, Exec.try_catch,
    download_try.
  unfold Exec.bind at 1. rewrite (waitForImages_mounted w Hm).
  unfold call_toBlob, close_popup, emit, Exec.bind, Exec.when, Exec.modify,
    Exec.ret.
  cbn. rewrite Hb, Hc, Hs, Hp. cbn. rewrite !in_app_iff. cbn. auto.
Qed.

End Share.

(** *** At most one export in flight *)

Module Exclusive.

Import Session.

Section Page.

Context {X Task : Type}.
Variable download_begin : Browser.t -> World X -> World X * option Task.
Variable download_resume : Browser.t -> Task -> Exec.M (World X) unit.
Variables reset clearStatus closeOverlay : State X -> State X.

(** What the guard on [exporting] provides. *)
Hypothesis begin_guard :
  forall b w, exporting (ui w) = true -> download_begin b w = (w, None).
Hypothesis begin_started :
  forall b w w' t, download_begin b w = (w', Some t) ->
                   exporting (ui w') = true.
Hypothesis reset_exporting : forall s, exporting (reset s) = exporting s.
Hypothesis clearStatus_exporting :
  forall s, exporting (clearStatus s) = exporting s.
Hypothesis closeOverlay_exporting :
  forall s, exporting (closeOverlay s) = exporting s.

Let Sys := @Sys X Task.
Let step := step download_begin download_resume reset clearStatus closeOverlay.

Lemma generateCard_begin_exporting (s : State X) :
  exporting (fst (generateCard_begin s)) = exporting s.
Proof.
  unfold generateCard_begin.
  destruct (String.eqb _ _); [reflexivity|].
  destruct (String.eqb _ _); reflexivity.
Qed.

Lemma remove_nth_single {A} (i : nat) (l : list A) (x : A) :
  List.length l <= 1 -> nth_error l i = Some x -> remove_nth i l = [].
Proof.
  destruct l as [|y [|z l]]; simpl; intros Hl Hn; try lia.
  - now destruct i.
  - destruct i as [|i]; [reflexivity|]. now destruct i.
Qed.

Lemma step_inv (sys : Sys) (e : Event) : inv sys -> inv (step sys e).
Proof.
  intros [Hlen Hflag]. destruct e; unfold step, Session.step, on_ui, inv;
    cbn [exports world ui].
  - split; [exact Hlen | exact Hflag].
  - split; [exact Hlen | exact Hflag].
  - pose proof (generateCard_begin_exporting (ui (world sys))) as Hg.
    destruct (generateCard_begin (ui (world sys))) as [s' [u|]];
      cbn [fst exports world ui] in *; rewrite Hg; now split.
  - destruct (nth_error (lookups sys) i); cbn [exports world ui]; now split.
  - destruct (exports sys) as [|t0 rest] eqn:Hex.
    + destruct (download_begin b (world sys)) as [w' [t|]] eqn:Hb;
        cbn [exports world ui].
      * split; [simpl; lia|]. intros _. eapply begin_started, Hb.
      * split; [simpl; lia | congruence].
    + rewrite (begin_guard b (world sys)) by (apply Hflag; discriminate).
      cbn [exports world ui]. split; [exact Hlen | exact Hflag].
  - destruct (nth_error (exports sys) i) as [t|] eqn:Hn;
      cbn [exports world ui]; [|now split].
    rewrite (remove_nth_single _ _ _ Hlen Hn). split; [simpl; lia | congruence].
  - rewrite reset_exporting. now split.
  - rewrite clearStatus_exporting. now split.
  - rewrite closeOverlay_exporting. now split.
Qed.

Lemma run_inv (events : list Event) (sys : Sys) :
  inv sys -> inv (fold_left step events sys).
Proof.
  revert sys. induction events as [|e events IH]; intros sys H; [exact H|].
  simpl. apply IH, step_inv, H.
Qed.

Lemma click_refused (sys : Sys) (b : Browser.t) :
  inv sys -> exports sys <> [] -> step sys (DownloadClicked b) = sys.
Proof.
  intros [_ Hflag] Hex. unfold step, Session.step.
  rewrite (begin_guard b (world sys) (Hflag Hex)). now destruct sys.
Qed.

End Page.

End Exclusive.

(** *** Retry, guard and clean-up *)

Lemma attempts_failed (b : Browser.t) : failed (toBlob b 3) -> attempts b = [3; 2].
Proof.
  unfold attempts, failed. intros H.
  destruct (toBlob b 3) as [| |blob]; try reflexivity. now elim (H blob).
Qed.

(** C2, as it holds.  renderCardBlob, through which the tab page and the
    overlay page export, retries a failed rasterization at pixel ratio 3
    exactly once, at pixel ratio 2, and then returns the bytes or throws;
    an export of these two pages rasterizes at ratios 3 and 2 and never a
    third time. *)
Theorem renderCardBlob_retries_once :
  (forall X (b : Browser.t) (w : World X),
      failed (toBlob b 3) ->
      rasterizations (trace (snd (renderCardBlob b w)))
      = (rasterizations (trace w) ++ [3; 2])%list
      /\ (forall blob, toBlob b 2 = BlobOk blob ->
                       fst (renderCardBlob b w) = Some blob)
      /\ (failed (toBlob b 2) -> fst (renderCardBlob b w) = None))
  /\ (forall b s,
        stageMounted s = true -> exporting s = false ->
        failed (toBlob b 3) ->
        rasterizations (trace (PageTab.download b (fresh s))) = [3; 2])
  /\ (forall b s,
        stageMounted s = true -> exporting s = false ->
        failed (toBlob b 3) ->
        rasterizations (trace (PageOverlay.download b (fresh s))) = [3; 2]).
Proof.
  split; [|split].
  - intros X b w H3. pose proof (renderCardBlob_cases b w) as Hc.
    unfold failed in *.
    destruct (toBlob b 3) as [| |blob3] eqn:E3; [| |now elim (H3 blob3)];
      (destruct (toBlob b 2) as [| |blob2] eqn:E2; rewrite Hc; cbn;
       rewrite ?rasterizations_app; cbn;
       repeat split; intros; try congruence;
       match goal with
       | H : forall blob, _ <> _ |- _ => now elim (H blob2)
       | _ => idtac
       end).
  - intros b s Hm He H3.
    now rewrite Tab.tab_download_rasterizations, attempts_failed.
  - intros b s Hm He H3.
    now rewrite Overlay.overlay_download_rasterizations, attempts_failed.
Qed.

Lemma renderCardBlob_retries_once_witness :
  rasterizations (trace (PageTab.download Demo.desktop_retry (fresh (Demo.shown ""))))
  = [3; 2]
  /\ fst (renderCardBlob Demo.desktop_retry (fresh (Demo.shown "")))
     = Some Demo.png.
Proof.
  destruct renderCardBlob_retries_once as (Hr & Ht & _). split.
  - apply Ht; [reflexivity | reflexivity | intros blob; discriminate].
  - apply (Hr _ Demo.desktop_retry (fresh (Demo.shown ""))).
    + intros blob. discriminate.
    + reflexivity.
Defined.

(** C2 fails on the share page: its export rasterizes once at ratio 3 and,
    when that yields nothing, reports the failure without a retry. *)
Lemma share_page_does_not_retry :
  toBlob Demo.desktop_retry 3 = BlobNull
  /\ stageMounted (Demo.shown tt) = true
  /\ rasterizations
       (trace (PageShare.download Demo.desktop_retry (fresh (Demo.shown tt))))
     = [3]
  /\ In (Alert "Export failed on iOS. Try again.")
        (trace (PageShare.download Demo.desktop_retry (fresh (Demo.shown tt)))).
Proof. vm_compute. intuition. Qed.

(** C7, as it holds.  On the tab page and on the overlay page, whatever
    the handlers run and in whatever order, at most one export is in
    flight, and a click on download while one is in flight changes
    nothing. *)
Theorem guarded_pages_run_one_export_at_a_time :
  (forall (s0 : PageTab.State) events,
      let sys := Session.tab_run events (Session.start s0) in
      List.length (Session.exports sys) <= 1
      /\ forall b, Session.exports sys <> [] ->
                   Session.tab_step sys (Session.DownloadClicked b) = sys)
  /\ (forall (s0 : PageOverlay.State) events,
        let sys := Session.overlay_run events (Session.start s0) in
        List.length (Session.exports sys) <= 1
        /\ forall b, Session.exports sys <> [] ->
                     Session.overlay_step sys (Session.DownloadClicked b) = sys).
Proof.
  split; intros s0 events sys.
  - assert (Hinv : Session.inv sys).
    { apply (Exclusive.run_inv PageTab.download_begin PageTab.download_resume
               PageTab.reset (PageTab.setExportStatus "") (fun s => s)
               Tab.tab_begin_guard Tab.tab_begin_started);
        try reflexivity.
      split; [simpl; lia | intros H; now elim H]. }
    split; [apply Hinv|]. intros b Hex.
    apply (Exclusive.click_refused _ _ _ _ _ Tab.tab_begin_guard _ _ Hinv Hex).
  - assert (Hinv : Session.inv sys).
    { apply (Exclusive.run_inv PageOverlay.download_begin
               PageOverlay.download_resume PageOverlay.reset
               (PageOverlay.setExportStatus "")
               (PageOverlay.setIosSaveDataURL None)
               Overlay.overlay_begin_guard Overlay.overlay_begin_started);
        try reflexivity.
      split; [simpl; lia | intros H; now elim H]. }
    split; [apply Hinv|]. intros b Hex.
    apply (Exclusive.click_refused _ _ _ _ _ Overlay.overlay_begin_guard _ _ Hinv Hex).
Qed.

Lemma guarded_pages_run_one_export_at_a_time_witness :
  let sys := Session.tab_run Demo.single_click (Session.start PageTab.initial) in
  List.length (Session.exports sys) = 1
  /\ Session.tab_step sys (Session.DownloadClicked Demo.desktop) = sys.
Proof.
  cbv zeta. split; [reflexivity|].
  apply (proj1 guarded_pages_run_one_export_at_a_time PageTab.initial
           Demo.single_click).
  discriminate.
Defined.

(** C7 fails on the share page: its download tests the stage only, and a
    second click starts a second export while the first is in flight. *)
Lemma share_page_starts_two_exports :
  List.length
    (Session.exports
       (Session.share_run Demo.double_click (Session.start PageShare.initial)))
  = 2.
Proof. reflexivity. Qed.

(** C8, as it holds.  Every object URL an export creates is scheduled for
    revocation on the same path, on the three pages.  The overlay page
    opens no window.  The popup the share page opens in advance is closed
    when the export throws and after a share.  The tab the tab page opens
    in advance is never closed by the export; when the export throws it
    receives the failure page. *)
Theorem exports_revoke_urls_and_share_page_closes_popup :
  (forall b s,
      created (trace (PageTab.download b (fresh s)))
      = revoked (trace (PageTab.download b (fresh s))))
  /\ (forall b s,
        created (trace (PageOverlay.download b (fresh s)))
        = revoked (trace (PageOverlay.download b (fresh s))))
  /\ (forall b s,
        created (trace (PageShare.download b (fresh s)))
        = revoked (trace (PageShare.download b (fresh s))))
  /\ (forall b s,
        existsb opens_window (trace (PageOverlay.download b (fresh s))) = false)
  /\ (forall b t w,
        PageShare.task_popup t = true ->
        fst (PageShare.download_try b t w) = None ->
        In WindowClose (trace (Exec.exec (PageShare.download_resume b t) w)))
  /\ (forall b t w blob,
        PageShare.task_popup t = true -> stageMounted (ui w) = true ->
        toBlob b 3 = BlobOk blob -> canShare b = true -> share b = true ->
        In WindowClose (trace (Exec.exec (PageShare.download_resume b t) w)))
  /\ (forall b s,
        existsb closes_window (trace (PageTab.download b (fresh s))) = false)
  /\ (forall b t w,
        PageTab.task_preTab t = true -> closed b AfterAwaits = false ->
        write_ok b FailedPage = true ->
        fst (PageTab.download_try b t w) = None ->
        In (DocumentWrite FailedPage)
           (trace (Exec.exec (PageTab.download_resume b t) w))).
Proof.
  repeat match goal with |- _ /\ _ => split end.
  - intros b s. now apply Tab.tab_download_balanced.
  - intros b s. now apply Overlay.overlay_download_balanced.
  - intros b s. now apply Share.share_download_balanced.
  - intros b s. now apply Overlay.overlay_download_none_opened.
  - apply Share.share_popup_closed_on_failure.
  - apply Share.share_popup_closed_after_share.
  - intros b s. now apply Tab.tab_download_none_closed.
  - apply Tab.tab_failure_page.
Qed.

(** An iPhone on which the share page opened its popup and the
    rasterization throws. *)
Lemma exports_revoke_urls_and_share_page_closes_popup_witness :
  let t := {| PageShare.task_ios := true; PageShare.task_popup := true;
              PageShare.task_fileName := "ritual-card-Example.png" |} in
  In WindowClose
     (trace (Exec.exec (PageShare.download_resume Demo.iphone_failing t)
                       (fresh (Demo.shown tt))))
  /\ In (DocumentWrite FailedPage)
        (trace (Exec.exec
                  (PageTab.download_resume Demo.iphone_failing
                     {| PageTab.task_ios := true;
                        PageTab.task_filename := "ritual-card-Example.png";
                        PageTab.task_preTab := true |})
                  (fresh (Demo.shown "")))).
Proof.
  cbv zeta.
  destruct exports_revoke_urls_and_share_page_closes_popup
    as (_ & _ & _ & _ & Hclose & _ & _ & Hpage).
  split; [apply Hclose | apply Hpage]; reflexivity.
Defined.

(** C8 fails on the tab page: on an iPhone where the tab opens and the
    rasterization throws twice, the export ends in failure and the tab it
    opened in advance is still open. *)
Lemma tab_page_leaves_its_tab_open :
  let w := PageTab.download Demo.iphone_failing (fresh (Demo.shown "")) in
  window_open Demo.iphone_failing = true
  /\ In (WindowOpen "about:blank" "_blank") (trace w)
  /\ PageTab.exportStatus (ui w) = "Export failed â€” tap to retry"
  /\ ~ In WindowClose (trace w).
Proof.
  cbv zeta. repeat split; try reflexivity.
  - vm_compute. auto.
  - intros H.
    pose proof (Tab.tab_download_none_closed Demo.iphone_failing
                  (fresh (Demo.shown "")) eq_refl) as Hn.
    unfold none_closed in Hn.
    assert (Ht : existsb closes_window
                   (trace (PageTab.download Demo.iphone_failing
                             (fresh (Demo.shown "")))) = true).
    { apply existsb_exists. exists WindowClose. split; [exact H | reflexivity]. }
    congruence.
Qed.

Lemma download_exporting_tab (b : Browser.t) (w : PageTab.World) :
  exporting (ui w) = false -> exporting (ui (PageTab.download b w)) = false.
Proof.
  intros He. unfold PageTab.download, PageTab.download_begin.
  destruct (_ || _); [exact He|].
  destruct (Tab.tab_sync_result b (filename_of (ui w)) w) as (t & tr & -> & _).
  apply Tab.tab_resume_exporting.
Qed.

Lemma download_exporting_overlay (b : Browser.t) (w : PageOverlay.World) :
  exporting (ui w) = false -> exporting (ui (PageOverlay.download b w)) = false.
Proof.
  intros He. unfold PageOverlay.download, PageOverlay.download_begin.
  destruct (_ || _); [exact He|].
  rewrite Overlay.overlay_sync_result. apply Overlay.overlay_resume_exporting.
Qed.

Lemma download_exporting_share (b : Browser.t) (w : PageShare.World) :
  exporting (ui w) = false -> exporting (ui (PageShare.download b w)) = false.
Proof.
  intros He. unfold PageShare.download, PageShare.download_begin.
  destruct (negb _); [exact He|].
  destruct (PageShare.download_sync b (filename_of (ui w)) w) as [[t|] w'] eqn:E.
  - apply Share.share_resume_exporting.
  - unfold PageShare.download_sync, emit, update, Exec.bind, Exec.modify,
      Exec.ret in E. destruct (ios b); discriminate.
Qed.

Lemma initial_when_idle {X} (s : State X) (x : X) :
  handle s = "" -> selectedRole s = "" -> loading s = false ->
  exporting s = false -> error s = "" -> profile s = initialProfile ->
  showCard s = false -> extra s = x -> s = initialState x.
Proof. destruct s; simpl; intros; subst; reflexivity. Qed.

(** C9.  reset puts the handle, the role, the profile record, the error
    message, the export status and the card flag back to their initial
    values in every state; with no lookup and no export in flight, and so
    after any export that ran to its end, the state after reset is the
    initial state. *)
Theorem reset_restores_initial_values :
  (forall s : PageTab.State,
      let r := PageTab.reset s in
      handle r = "" /\ selectedRole r = "" /\ error r = ""
      /\ PageTab.exportStatus r = "" /\ showCard r = false
      /\ profile r
         = {| username := ""; displayName := JsVal.Str "USERNAME";
              avatarUrl := JsVal.Str ""; bio := JsVal.Str "Stay Ritualized";
              followers := JsVal.Null; following := JsVal.Null;
              tweets := JsVal.Null |}
      /\ (loading s = false -> exporting s = false -> r = PageTab.initial)
      /\ (forall b, loading s = false -> exporting s = false ->
                    PageTab.reset (ui (PageTab.download b (fresh s)))
                    = PageTab.initial))
  /\ (forall s : PageOverlay.State,
        let r := PageOverlay.reset s in
        handle r = "" /\ selectedRole r = "" /\ error r = ""
        /\ PageOverlay.exportStatus (extra r) = ""
        /\ PageOverlay.iosSaveDataURL (extra r) = None
        /\ showCard r = false
        /\ profile r
           = {| username := ""; displayName := JsVal.Str "USERNAME";
                avatarUrl := JsVal.Str ""; bio := JsVal.Str "Stay Ritualized";
                followers := JsVal.Null; following := JsVal.Null;
                tweets := JsVal.Null |}
        /\ (loading s = false -> exporting s = false -> r = PageOverlay.initial)
        /\ (forall b, loading s = false -> exporting s = false ->
                      PageOverlay.reset (ui (PageOverlay.download b (fresh s)))
                      = PageOverlay.initial))
  /\ (forall s : PageShare.State,
        let r := PageShare.reset s in
        handle r = "" /\ selectedRole r = "" /\ error r = ""
        /\ showCard r = false
        /\ profile r
           = {| username := ""; displayName := JsVal.Str "USERNAME";
                avatarUrl := JsVal.Str ""; bio := JsVal.Str "Stay Ritualized";
                followers := JsVal.Null; following := JsVal.Null;
                tweets := JsVal.Null |}
        /\ (loading s = false -> exporting s = false -> r = PageShare.initial)
        /\ (forall b, loading s = false -> exporting s = false ->
                      PageShare.reset (ui (PageShare.download b (fresh s)))
                      = PageShare.initial)).
Proof.
  split; [|split]; intros s; cbv zeta;
    repeat match goal with |- _ /\ _ => split; [reflexivity|] end.
  - split.
    + intros Hl He. now apply initial_when_idle.
    + intros b Hl He. apply initial_when_idle; try reflexivity.
      * cbn. now rewrite Tab.tab_download_loading.
      * cbn. now apply download_exporting_tab.
  - split.
    + intros Hl He. now apply initial_when_idle.
    + intros b Hl He. apply initial_when_idle; try reflexivity.
      * cbn. now rewrite Overlay.overlay_download_loading.
      * cbn. now apply download_exporting_overlay.
  - split.
    + intros Hl He. apply initial_when_idle; try reflexivity; try assumption.
      now destruct (extra (PageShare.reset s)).
    + intros b Hl He. apply initial_when_idle; try reflexivity.
      * cbn. now rewrite Share.share_download_loading.
      * cbn. now apply download_exporting_share.
      * now destruct (extra _).
Qed.

(** reset after a successful export of the generated card. *)
Lemma reset_restores_initial_values_witness :
  PageTab.exportStatus (ui (PageTab.download Demo.desktop (fresh (Demo.shown ""))))
  = "Downloaded! âœ“"
  /\ PageTab.reset (ui (PageTab.download Demo.desktop (fresh (Demo.shown ""))))
     = PageTab.initial.
Proof.
  split; [reflexivity|].
  apply (proj1 reset_restores_initial_values (Demo.shown "")); reflexivity.
Defined.

(** *** What an export leaves alone *)

Import TripleFacts.

Section Form.
Context {X : Type}.
Variable c : string * string * bool * string * Profile * bool.

Lemma renderCardBlob_form (b : Browser.t) : keeps (form_is c) (@renderCardBlob X b).
Proof. unfold renderCardBlob, call_toBlob. keeps_structure; assumption. Qed.

Lemma anchorDownload_form (b : Browser.t) (blob : Blob) (f : string) :
  keeps (form_is c) (@anchorDownload X b blob f).
Proof. unfold anchorDownload. keeps_structure; assumption. Qed.

End Form.

Lemma tab_sync_form c (b : Browser.t) (f : string) :
  keeps (form_is c) (PageTab.download_sync b f).
Proof. unfold PageTab.download_sync. keeps_structure; assumption. Qed.

Lemma tab_resume_form c (b : Browser.t) (t : PageTab.Task) :
  keeps (form_is c) (PageTab.download_resume b t).
Proof.
  unfold PageTab.download_resume, PageTab.download_try, PageTab.download_catch,
    PageTab.fillTabWithImage, waitForImages, blobToDataURL.
  apply keeps_finally; [|intros w0 Hw0; exact Hw0].
  keeps_with ltac:(first [ apply renderCardBlob_form
                         | apply anchorDownload_form ]); assumption.
Qed.

Lemma overlay_sync_form c (b : Browser.t) (f : string) :
  keeps (form_is c) (PageOverlay.download_sync b f).
Proof. unfold PageOverlay.download_sync. keeps_structure; assumption. Qed.

Lemma overlay_resume_form c (b : Browser.t) (t : PageOverlay.Task) :
  keeps (form_is c) (PageOverlay.download_resume b t).
Proof.
  unfold PageOverlay.download_resume, PageOverlay.download_try,
    PageOverlay.download_catch, waitForImages, blobToDataURL.
  apply keeps_finally; [|intros w0 Hw0; exact Hw0].
  keeps_with ltac:(first [ apply renderCardBlob_form
                         | apply anchorDownload_form ]); assumption.
Qed.

Lemma share_sync_form c (b : Browser.t) (f : string) :
  keeps (form_is c) (PageShare.download_sync b f).
Proof. unfold PageShare.download_sync. keeps_structure; assumption. Qed.

Lemma share_resume_form c (b : Browser.t) (t : PageShare.Task) :
  keeps (form_is c) (PageShare.download_resume b t).
Proof.
  unfold PageShare.download_resume, PageShare.download_try,
    PageShare.download_catch, PageShare.deliver, PageShare.close_popup,
    waitForImages, call_toBlob.
  apply keeps_finally; [|intros w0 Hw0; exact Hw0].
  keeps_structure; assumption.
Qed.

Lemma tab_begin_form (b : Browser.t) (w w' : PageTab.World) r :
  PageTab.download_begin b w = (w', r) -> formData (ui w') = formData (ui w).
Proof.
  unfold PageTab.download_begin. destruct (_ || _); [now intros [= <- _]|].
  pose proof (tab_sync_form (formData (ui w)) b (filename_of (ui w)) w eq_refl) as H.
  destruct (PageTab.download_sync b (filename_of (ui w)) w) as [r0 w0].
  intros [= <- _]. exact H.
Qed.

Lemma overlay_begin_form (b : Browser.t) (w w' : PageOverlay.World) r :
  PageOverlay.download_begin b w = (w', r) -> formData (ui w') = formData (ui w).
Proof.
  unfold PageOverlay.download_begin. destruct (_ || _); [now intros [= <- _]|].
  pose proof (overlay_sync_form (formData (ui w)) b (filename_of (ui w)) w eq_refl) as H.
  destruct (PageOverlay.download_sync b (filename_of (ui w)) w) as [r0 w0].
  intros [= <- _]. exact H.
Qed.

Lemma share_begin_form (b : Browser.t) (w w' : PageShare.World) r :
  PageShare.download_begin b w = (w', r) -> formData (ui w') = formData (ui w).
Proof.
  unfold PageShare.download_begin. destruct (negb _); [now intros [= <- _]|].
  pose proof (share_sync_form (formData (ui w)) b (filename_of (ui w)) w eq_refl) as H.
  destruct (PageShare.download_sync b (filename_of (ui w)) w) as [r0 w0].
  intros [= <- _]. exact H.
Qed.

(** X12.  An export, on each of the three pages and whatever the browser
    does, writes none of the handle, the role, the loading flag, the error
    message, the profile record and the card flag. *)
Theorem export_leaves_the_form_alone :
  (forall b w, formData (ui (PageTab.download b w)) = formData (ui w))
  /\ (forall b w, formData (ui (PageOverlay.download b w)) = formData (ui w))
  /\ (forall b w, formData (ui (PageShare.download b w)) = formData (ui w)).
Proof.
  split; [|split]; intros b w.
  - unfold PageTab.download.
    pose proof (tab_begin_form b w) as Hb.
    destruct (PageTab.download_begin b w) as [w' [t|]];
      [|exact (Hb _ _ eq_refl)].
    exact (tab_resume_form _ b t w' (Hb _ _ eq_refl)).
  - unfold PageOverlay.download.
    pose proof (overlay_begin_form b w) as Hb.
    destruct (PageOverlay.download_begin b w) as [w' [t|]];
      [|exact (Hb _ _ eq_refl)].
    exact (overlay_resume_form _ b t w' (Hb _ _ eq_refl)).
  - unfold PageShare.download.
    pose proof (share_begin_form b w) as Hb.
    destruct (PageShare.download_begin b w) as [w' [t|]];
      [|exact (Hb _ _ eq_refl)].
    exact (share_resume_form _ b t w' (Hb _ _ eq_refl)).
Qed.

(** *** The flag *)

(** X13.  Once an export has passed its guard, the flag is lowered when it
    ends, whatever throws on the way; an export called with the flag down
    ends with the flag down. *)
Theorem export_ends_with_the_flag_down :
  (forall b t w,
      exporting (ui (Exec.exec (PageTab.download_resume b t) w)) = false)
  /\ (forall b t w,
        exporting (ui (Exec.exec (PageOverlay.download_resume b t) w)) = false)
  /\ (forall b t w,
        exporting (ui (Exec.exec (PageShare.download_resume b t) w)) = false)
  /\ (forall b w, exporting (ui w) = false ->
                  exporting (ui (PageTab.download b w)) = false)
  /\ (forall b w, exporting (ui w) = false ->
                  exporting (ui (PageOverlay.download b w)) = false)
  /\ (forall b w, exporting (ui w) = false ->
                  exporting (ui (PageShare.download b w)) = false).
Proof.
  repeat match goal with |- _ /\ _ => split end.
  - apply Tab.tab_resume_exporting.
  - apply Overlay.overlay_resume_exporting.
  - apply Share.share_resume_exporting.
  - apply download_exporting_tab.
  - apply download_exporting_overlay.
  - apply download_exporting_share.
Qed.

Lemma export_ends_with_the_flag_down_witness :
  exporting (ui (PageTab.download Demo.iphone_failing (fresh (Demo.shown ""))))
  = false.
Proof.
  destruct export_ends_with_the_flag_down as (_ & _ & _ & H & _).
  now apply H.
Defined.

(** *** Rasterizations *)

Lemma share_resume_rasterizations (b : Browser.t) (t : PageShare.Task)
      (w : PageShare.World) :
  stageMounted (ui w) = true ->
  rasterizations (trace (Exec.exec (PageShare.download_resume b t) w))
  = (rasterizations (trace w) ++ [3])%list.
Proof.
  intros Hm.
  set (R := (rasterizations (trace w) ++ [3])%list).
  apply (triple_exec (fun w0 => w0 = w) (PageShare.download_resume b t)
           (fun _ => rastered R) (rastered R) (rastered R));
    [| auto | auto | reflexivity].
  unfold PageShare.download_resume.
  apply (triple_finally _ _ _ (fun _ => rastered R) _ (rastered R));
    [| intros a s H; exact H | intros s H; exact H].
  apply (triple_try_catch _ _ _ _ (rastered R)).
  - unfold PageShare.download_try.
    apply (triple_bind _ _ _ (fun _ w0 => w0 = w)).
    + intros s ->. now rewrite (waitForImages_mounted w Hm).
    + intros _.
      apply (triple_bind _ _ _ (fun _ => rastered R)).
      * unfold call_toBlob.
        apply (triple_bind _ _ _ (fun _ => rastered R)).
        -- apply triple_modify. intros s ->. unfold rastered, R. cbn [trace].
           now rewrite rasterizations_app.
        -- intros _. destruct (toBlob b 3);
             [apply triple_throw | apply triple_ret | apply triple_ret]; auto.
      * intros [blob|]; [|apply triple_throw; auto].
        apply keeps_triple. unfold PageShare.deliver, PageShare.close_popup.
        keeps_structure; first [now apply still_emit | assumption].
  - apply keeps_triple.
    unfold PageShare.download_catch, PageShare.close_popup.
    keeps_structure; first [now apply still_emit | assumption].
Qed.

Lemma share_sync (b : Browser.t) (f : string) (w : PageShare.World) :
  PageShare.download_sync b f w
  = (Some {| PageShare.task_ios := ios b;
             PageShare.task_popup := ios b && window_open b;
             PageShare.task_fileName := f |},
     mkWorld (setExporting true (ui w)) (trace w ++ PageShare.shareOpening b)).
Proof.
  unfold PageShare.download_sync, PageShare.shareOpening, emit, update, Exec.bind,
    Exec.modify, Exec.ret.
  destruct (ios b); cbn; [reflexivity | now rewrite app_nil_r].
Qed.

(** X14.  An export rasterizes at most twice on the tab page and on the
    overlay page, and then at the ratios 3 and 2 in this order; it
    rasterizes once, at ratio 3, when the first attempt yields the bytes,
    and always once on the share page; a call that does not pass the guard
    rasterizes nothing. *)
Theorem export_rasterizes_at_most_twice (b : Browser.t) :
  (forall s,
      rasterizations (trace (PageTab.download b (fresh s)))
      = if stageMounted s && negb (exporting s) then attempts b else [])
  /\ (forall s,
        rasterizations (trace (PageOverlay.download b (fresh s)))
        = if stageMounted s && negb (exporting s) then attempts b else [])
  /\ (forall s,
        rasterizations (trace (PageShare.download b (fresh s)))
        = if stageMounted s then [3] else [])
  /\ List.length (attempts b) <= 2
  /\ (forall blob, toBlob b 3 = BlobOk blob -> attempts b = [3]).
Proof.
  repeat match goal with |- _ /\ _ => split end.
  - intros s. destruct (stageMounted s) eqn:Hm; [destruct (exporting s) eqn:He|].
    + unfold PageTab.download, PageTab.download_begin, fresh. cbn [ui].
      now rewrite Hm, He.
    + now apply Tab.tab_download_rasterizations.
    + unfold PageTab.download, PageTab.download_begin, fresh. cbn [ui].
      now rewrite Hm.
  - intros s. destruct (stageMounted s) eqn:Hm; [destruct (exporting s) eqn:He|].
    + unfold PageOverlay.download, PageOverlay.download_begin, fresh. cbn [ui].
      now rewrite Hm, He.
    + now apply Overlay.overlay_download_rasterizations.
    + unfold PageOverlay.download, PageOverlay.download_begin, fresh. cbn [ui].
      now rewrite Hm.
  - intros s. unfold PageShare.download, PageShare.download_begin, fresh.
    cbn [ui]. destruct (stageMounted s) eqn:Hm; [|reflexivity]. cbn [negb].
    rewrite share_sync, share_resume_rasterizations by exact Hm.
    cbn [trace app]. unfold PageShare.shareOpening. now destruct (ios b).
  - unfold attempts. destruct (toBlob b 3); simpl; lia.
  - intros blob H. unfold attempts. now rewrite H.
Qed.

Lemma export_rasterizes_at_most_twice_witness :
  rasterizations (trace (PageTab.download Demo.desktop (fresh (Demo.shown ""))))
  = [3].
Proof.
  destruct (export_rasterizes_at_most_twice Demo.desktop)
    as (Htab & _ & _ & _ & Hone).
  rewrite Htab. apply (Hone Demo.png). reflexivity.
Defined.

(** *** The two ways of delivery *)

Lemma touches_app (t1 t2 : list Effect) :
  existsb touches_window (t1 ++ t2)
  = existsb touches_window t1 || existsb touches_window t2.
Proof. apply existsb_app. Qed.

Lemma anchorClicks_app (t1 t2 : list Effect) :
  anchorClicks (t1 ++ t2) = (anchorClicks t1 ++ anchorClicks t2)%list.
Proof.
  induction t1 as [|e t1 IH]; [reflexivity|].
  destruct e; simpl; rewrite IH; reflexivity.
Qed.

Section Quiet.
Context {X : Type}.

Lemma windowless_emit (e : Effect) (w : World X) :
  touches_window e = false -> windowless w -> windowless (did w [e]).
Proof.
  unfold windowless. intros He Hw. simpl.
  now rewrite touches_app, Hw; simpl; rewrite He.
Qed.

Lemma urlless_emit (e : Effect) (w : World X) :
  created [e] = [] -> anchorClicks [e] = [] -> urlless w -> urlless (did w [e]).
Proof.
  unfold urlless. intros H1 H2 [Hc Ha]. simpl.
  now rewrite created_app, anchorClicks_app, Hc, Ha, H1, H2.
Qed.

End Quiet.

Ltac quiet :=
  first [ eassumption
        | apply windowless_emit; [reflexivity | assumption]
        | apply urlless_emit; [reflexivity | reflexivity | assumption] ].

Lemma tab_desktop_windowless (b : Browser.t) (w : PageTab.World) :
  ios b = false -> windowless w -> windowless (PageTab.download b w).
Proof.
  intros Hios Hw. unfold PageTab.download, PageTab.download_begin.
  destruct (_ || _); [exact Hw|].
  unfold PageTab.download_sync. rewrite Hios.
  cbn [Exec.bind Exec.ret update Exec.modify].
  unfold Exec.bind, Exec.ret, update, Exec.modify. cbn [fst snd].
  set (w1 := mkWorld _ _).
  assert (H1 : windowless w1) by exact Hw. clearbody w1.
  revert w1 H1. change (keeps windowless
    (PageTab.download_resume b
       {| PageTab.task_ios := false; PageTab.task_filename := filename_of (ui w);
          PageTab.task_preTab := false |})).
  unfold PageTab.download_resume, PageTab.download_try, PageTab.download_catch.
  cbn [PageTab.task_ios PageTab.task_preTab andb].
  unfold waitForImages, renderCardBlob, call_toBlob, anchorDownload.
  apply keeps_finally.
  - keeps_structure; quiet.
  - intros w0 H0. unfold PageTab.download_finally.
    apply (windowless_emit (SetTimeout 5000%N ClearExportStatus)
             (mkWorld (setExporting false (ui w0)) (trace w0)) eq_refl H0).
Qed.

Lemma tab_ios_urlless (b : Browser.t) (w : PageTab.World) :
  ios b = true -> urlless w -> urlless (PageTab.download b w).
Proof.
  intros Hios Hw. unfold PageTab.download, PageTab.download_begin.
  destruct (_ || _); [exact Hw|].
  assert (Hs : triple urlless (PageTab.download_sync b (filename_of (ui w)))
                 (fun t w' => PageTab.task_ios t = true /\ urlless w')
                 (fun _ => False)).
  { unfold PageTab.download_sync. rewrite Hios. intros w0 H0.
    unfold Exec.bind, Exec.when, Exec.ret, emit, update, Exec.modify.
    destruct (window_open b && negb (closed b AfterOpen) && write_ok b LoadingPage);
      cbn; (split; [reflexivity|]); unfold urlless in *; cbn;
      rewrite !created_app, !anchorClicks_app; destruct H0 as [-> ->];
      split; reflexivity. }
  specialize (Hs w Hw).
  destruct (PageTab.download_sync b (filename_of (ui w)) w) as [[t|] w1];
    [|contradiction].
  destruct Hs as [Ht H1]. revert w1 H1.
  change (keeps urlless (PageTab.download_resume b t)).
  unfold PageTab.download_resume, PageTab.download_try, PageTab.download_catch,
    PageTab.fillTabWithImage.
  rewrite Ht.
  unfold waitForImages, renderCardBlob, call_toBlob, blobToDataURL.
  apply keeps_finally.
  - keeps_structure; quiet.
  - intros w0 H0. unfold PageTab.download_finally.
    apply (urlless_emit (SetTimeout 5000%N ClearExportStatus)
             (mkWorld (setExporting false (ui w0)) (trace w0)) eq_refl eq_refl H0).
Qed.

Lemma overlay_windowless (b : Browser.t) (w : PageOverlay.World) :
  windowless w -> windowless (PageOverlay.download b w).
Proof.
  assert (Hs : forall b f, keeps windowless (PageOverlay.download_sync b f)).
  { intros b0 f. unfold PageOverlay.download_sync. keeps_structure; quiet. }
  assert (Hr : forall b t, keeps windowless (PageOverlay.download_resume b t)).
  { intros b0 t.
    unfold PageOverlay.download_resume, PageOverlay.download_try,
      PageOverlay.download_catch, waitForImages, blobToDataURL,
      renderCardBlob, call_toBlob, anchorDownload.
    apply keeps_finally.
    - keeps_structure; quiet.
    - intros w0 H0. unfold PageOverlay.download_finally.
      apply (windowless_emit (SetTimeout 4000%N ClearExportStatus)
               (mkWorld (setExporting false (ui w0)) (trace w0)) eq_refl H0). }
  intros Hw.
  by_halves PageOverlay.download PageOverlay.download_begin
            PageOverlay.download_sync Hs Hr Hw.
Qed.

Lemma overlay_ios_urlless (b : Browser.t) (w : PageOverlay.World) :
  ios b = true -> urlless w -> urlless (PageOverlay.download b w).
Proof.
  intros Hios Hw. unfold PageOverlay.download, PageOverlay.download_begin.
  destruct (_ || _); [exact Hw|].
  rewrite Overlay.overlay_sync_result. rewrite Hios.
  set (w1 := mkWorld _ _).
  assert (H1 : urlless w1) by exact Hw. clearbody w1. revert w1 H1.
  change (keeps urlless
            (PageOverlay.download_resume b
               {| PageOverlay.task_ios := true;
                  PageOverlay.task_filename := filename_of (ui w) |})).
  unfold PageOverlay.download_resume, PageOverlay.download_try,
    PageOverlay.download_catch.
  cbn [PageOverlay.task_ios].
  unfold waitForImages, renderCardBlob, call_toBlob, blobToDataURL.
  apply keeps_finally.
  - keeps_structure; quiet.
  - intros w0 H0. unfold PageOverlay.download_finally.
    apply (urlless_emit (SetTimeout 4000%N ClearExportStatus)
             (mkWorld (setExporting false (ui w0)) (trace w0)) eq_refl eq_refl H0).
Qed.

(** X15.  Off iOS the tab page touches no window; on iOS the tab page and
    the overlay page create no object URL and click no anchor; the overlay
    page touches no window on any platform. *)
Theorem delivery_follows_the_platform (b : Browser.t) :
  (ios b = false ->
   forall s, existsb touches_window (trace (PageTab.download b (fresh s))) = false)
  /\ (ios b = true ->
      forall s, created (trace (PageTab.download b (fresh s))) = []
                /\ anchorClicks (trace (PageTab.download b (fresh s))) = [])
  /\ (forall s,
        existsb touches_window (trace (PageOverlay.download b (fresh s))) = false)
  /\ (ios b = true ->
      forall s, created (trace (PageOverlay.download b (fresh s))) = []
                /\ anchorClicks (trace (PageOverlay.download b (fresh s))) = []).
Proof.
  repeat match goal with |- _ /\ _ => split end.
  - intros H s. now apply tab_desktop_windowless.
  - intros H s. now apply tab_ios_urlless.
  - intros s. now apply overlay_windowless.
  - intros H s. now apply overlay_ios_urlless.
Qed.

Lemma delivery_follows_the_platform_witness :
  existsb touches_window
    (trace (PageTab.download Demo.desktop (fresh (Demo.shown "")))) = false
  /\ created (trace (PageTab.download Demo.iphone (fresh (Demo.shown "")))) = [].
Proof.
  split.
  - apply (proj1 (delivery_follows_the_platform Demo.desktop) eq_refl).
  - apply (proj1 (proj2 (delivery_follows_the_platform Demo.iphone)) eq_refl).
Defined.

(** *** The status line *)

Section Last.
Context {S : Type}.

Lemma triple_any {A} (m : M S A) :
  triple (fun _ => True) m (fun _ _ => True) (fun _ => True).
Proof. intros s _. now destruct (m s) as [[a|] s']. Qed.

(** What a sequence establishes when it completes is what its last part
    establishes. *)
Lemma triple_last {A B} (m : M S A) (k : A -> M S B) (Q : B -> S -> Prop) :
  (forall a, triple (fun _ => True) (k a) Q (fun _ => True)) ->
  triple (fun _ => True) (bind m k) Q (fun _ => True).
Proof.
  intros H. apply (triple_bind _ _ _ (fun _ _ => True)); [apply triple_any|].
  exact H.
Qed.

End Last.

Ltac to_the_last :=
  repeat first
    [ apply triple_last; intros ?
    | match goal with
      | |- triple _ (if ?c then _ else _) _ _ => destruct c
      end ].

Lemma tab_try_status (b : Browser.t) (t : PageTab.Task) :
  triple (fun _ => True) (PageTab.download_try b t)
    (fun _ w =>
       PageTab.exportStatus (ui w)
       = if PageTab.task_ios t then "Long-press the image to save it âœ“"
         else "Downloaded! âœ“")
    (fun _ => True).
Proof.
  unfold PageTab.download_try. to_the_last;
    apply triple_modify; intros; reflexivity.
Qed.

Lemma overlay_try_status (b : Browser.t) (t : PageOverlay.Task) :
  triple (fun _ => True) (PageOverlay.download_try b t)
    (fun _ w =>
       PageOverlay.exportStatus (extra (ui w))
       = if PageOverlay.task_ios t then "Hold the image to save ✓"
         else "Downloaded! ✓")
    (fun _ => True).
Proof.
  unfold PageOverlay.download_try. to_the_last;
    apply triple_modify; intros; reflexivity.
Qed.

(** X16.  On the tab page and on the overlay page an export that passed the
    guard ends with the message of its outcome in the status line (saved,
    downloaded, or failed), and its last effect is the timer that clears the
    line, after 5 s and after 4 s. *)
Theorem export_reports_its_outcome :
  (forall b t w,
      let w' := Exec.exec (PageTab.download_resume b t) w in
      (exists tr, trace w' = (tr ++ [SetTimeout 5000%N ClearExportStatus])%list)
      /\ PageTab.exportStatus (ui w')
         = match fst (PageTab.download_try b t w) with
           | Some _ =>
               if PageTab.task_ios t then "Long-press the image to save it âœ“"
               else "Downloaded! âœ“"
           | None => "Export failed â€” tap to retry"
           end)
  /\ (forall b t w,
        let w' := Exec.exec (PageOverlay.download_resume b t) w in
        (exists tr, trace w' = (tr ++ [SetTimeout 4000%N ClearExportStatus])%list)
        /\ PageOverlay.exportStatus (extra (ui w'))
           = match fst (PageOverlay.download_try b t w) with
             | Some _ =>
                 if PageOverlay.task_ios t then "Hold the image to save ✓"
                 else "Downloaded! ✓"
             | None => "Export failed — try again"
             end).
Proof.
  split; intros b t w; cbv zeta.
  - unfold Exec.exec, PageTab.download_resume, Exec.finally, Exec.try_catch.
    pose proof (tab_try_status b t w I) as H.
    destruct (PageTab.download_try b t w) as [[[]|] w1]; cbn [fst snd] in *.
    + split; [now eexists | exact H].
    + unfold PageTab.download_catch, Exec.bind, Exec.when, emit, update,
        Exec.modify, Exec.ret.
      destruct (_ && _); cbn; split; try reflexivity; now eexists.
  - unfold Exec.exec, PageOverlay.download_resume, Exec.finally, Exec.try_catch.
    pose proof (overlay_try_status b t w I) as H.
    destruct (PageOverlay.download_try b t w) as [[[]|] w1]; cbn [fst snd] in *.
    + split; [now eexists | exact H].
    + unfold PageOverlay.download_catch, Exec.bind, emit, update,
        Exec.modify, Exec.ret.
      cbn; split; try reflexivity; now eexists.
Qed.

(** *** Anchor downloads *)

Lemma renderCardBlob_result {X} (b : Browser.t) (w : World X) :
  renderCardBlob b w = (rendered b, did w (map ToBlob (attempts b))).
Proof.
  pose proof (renderCardBlob_cases b w) as H. unfold rendered, attempts.
  destruct (toBlob b 3), (toBlob b 2); exact H.
Qed.

Lemma tab_resume_anchor (b : Browser.t) (t : PageTab.Task) (w : PageTab.World)
      (blob : Blob) :
  stageMounted (ui w) = true -> PageTab.task_ios t = false ->
  rendered b = Some blob ->
  Exec.exec (PageTab.download_resume b t) w
  = mkWorld (setExporting false (PageTab.setExportStatus "Downloaded! âœ“" (ui w)))
            (trace w ++ map ToBlob (attempts b)
             ++ anchorSteps b blob (PageTab.task_filename t)
             ++ [SetTimeout 5000%N ClearExportStatus]).
Proof.
  intros Hm Ht Hb.
  unfold Exec.exec, PageTab.download_resume, Exec.finally, Exec.try_catch,
    PageTab.download_try.
  unfold Exec.bind at 1. rewrite (waitForImages_mounted w Hm).
  unfold Exec.bind at 1. cbn [update Exec.modify].
  unfold Exec.bind at 1. rewrite renderCardBlob_result, Hb, Ht.
  unfold anchorDownload, anchorSteps, did, emit, update, Exec.bind, Exec.modify,
    PageTab.download_finally.
  cbn. now rewrite <- !app_assoc.
Qed.

Lemma overlay_resume_anchor (b : Browser.t) (t : PageOverlay.Task)
      (w : PageOverlay.World) (blob : Blob) :
  stageMounted (ui w) = true -> PageOverlay.task_ios t = false ->
  rendered b = Some blob ->
  Exec.exec (PageOverlay.download_resume b t) w
  = mkWorld (setExporting false
               (PageOverlay.setExportStatus "Downloaded! ✓" (ui w)))
            (trace w ++ map ToBlob (attempts b)
             ++ anchorSteps b blob (PageOverlay.task_filename t)
             ++ [SetTimeout 4000%N ClearExportStatus]).
Proof.
  intros Hm Ht Hb.
  unfold Exec.exec, PageOverlay.download_resume, Exec.finally, Exec.try_catch,
    PageOverlay.download_try.
  unfold Exec.bind at 1. rewrite (waitForImages_mounted w Hm).
  unfold Exec.bind at 1. cbn [update Exec.modify].
  unfold Exec.bind at 1. rewrite renderCardBlob_result, Hb, Ht.
  unfold anchorDownload, anchorSteps, did, emit, update, Exec.bind, Exec.modify,
    PageOverlay.download_finally.
  cbn. now rewrite <- !app_assoc.
Qed.

(** X17.  Off iOS, an export of the tab page or of the overlay page whose
    rasterization yields the bytes does, after the rasterizations, exactly
    this: it creates one object URL, clicks one anchor on it whose file name
    is [ritual-card-<handle>.png], schedules the revocation, sets the status
    line to the message of success and the timer that clears it. *)
Theorem anchor_download_offers_one_file (b : Browser.t) (blob : Blob) :
  ios b = false -> rendered b = Some blob ->
  (forall s : PageTab.State,
      stageMounted s = true -> exporting s = false ->
      PageTab.download b (fresh s)
      = mkWorld (PageTab.setExportStatus "Downloaded! âœ“" s)
                (map ToBlob (attempts b) ++ anchorSteps b blob (filename_of s)
                 ++ [SetTimeout 5000%N ClearExportStatus]))
  /\ (forall s : PageOverlay.State,
        stageMounted s = true -> exporting s = false ->
        PageOverlay.download b (fresh s)
        = mkWorld (PageOverlay.setExportStatus "Downloaded! ✓" s)
                  (map ToBlob (attempts b) ++ anchorSteps b blob (filename_of s)
                   ++ [SetTimeout 4000%N ClearExportStatus])).
Proof.
  intros Hios Hb. split; intros s Hm He.
  - unfold PageTab.download, PageTab.download_begin, fresh. cbn [ui].
    rewrite Hm, He. cbn [negb orb].
    unfold PageTab.download_sync. rewrite Hios.
    unfold Exec.bind, Exec.ret, update, Exec.modify. cbn [fst snd ui trace].
    erewrite tab_resume_anchor; [| exact Hm | reflexivity | exact Hb].
    cbn [ui trace app PageTab.task_filename]. f_equal.
    destruct s. cbn in He. subst. reflexivity.
  - unfold PageOverlay.download, PageOverlay.download_begin, fresh. cbn [ui].
    rewrite Hm, He. cbn [negb orb].
    rewrite Overlay.overlay_sync_result, Hios.
    erewrite overlay_resume_anchor; [| exact Hm | reflexivity | exact Hb].
    cbn [ui trace app PageOverlay.task_filename]. f_equal.
    destruct s as [? ? ? ? ? ? ? []]. cbn in He. subst. reflexivity.
Qed.

Lemma anchor_download_offers_one_file_witness :
  anchorClicks (trace (PageTab.download Demo.desktop (fresh (Demo.shown ""))))
  = [("blob:https://card.example/1", "ritual-card-Example.png")].
Proof.
  rewrite (proj1 (anchor_download_offers_one_file Demo.desktop Demo.png
                    eq_refl eq_refl) (Demo.shown "") eq_refl eq_refl).
  reflexivity.
Defined.

(** *** iOS *)

(** X18.  On iOS, an export of the tab page whose rasterization yields the
    bytes and whose reader yields the data URL opens its tab before anything
    else, and hands the data URL to exactly one place: the page written into
    the tab, else the address of the tab when the writing is refused, else a
    new window when the tab is missing or closed. *)
Theorem tab_page_hands_over_the_data_url (b : Browser.t) (blob : Blob)
        (d : string) (s : PageTab.State) :
  ios b = true -> rendered b = Some blob -> readAsDataURL b blob = Some d ->
  stageMounted s = true -> exporting s = false ->
  PageTab.download b (fresh s)
  = mkWorld (PageTab.setExportStatus "Long-press the image to save it âœ“" s)
            (PageTab.tabOpening b ++ map ToBlob (attempts b)
             ++ [PageTab.tabFilling b d (filename_of s);
                 SetTimeout 5000%N ClearExportStatus]).
Proof.
  intros Hios Hb Hd Hm He.
  unfold PageTab.download, PageTab.download_begin, fresh. cbn [ui].
  rewrite Hm, He. cbn [negb orb].
  unfold PageTab.download_sync. rewrite Hios.
  set (c := window_open b && negb (closed b AfterOpen) && write_ok b LoadingPage).
  assert (Hsync :
    forall w : PageTab.World,
      (preTab <- (emit (WindowOpen "about:blank" "_blank") ;;
                  Exec.when c (emit (DocumentWrite LoadingPage)) ;;
                  Exec.ret (window_open b)) ;;
       update (setExporting true) ;;
       update (PageTab.setExportStatus "Renderingâ€¦") ;;
       Exec.ret {| PageTab.task_ios := true;
                   PageTab.task_filename := filename_of s;
                   PageTab.task_preTab := preTab |})%exec w
      = (Some {| PageTab.task_ios := true;
                 PageTab.task_filename := filename_of s;
                 PageTab.task_preTab := window_open b |},
         mkWorld (PageTab.setExportStatus "Renderingâ€¦" (setExporting true (ui w)))
                 (trace w ++ WindowOpen "about:blank" "_blank"
                  :: (if c then [DocumentWrite LoadingPage] else [])))).
  { intros w. unfold Exec.bind, Exec.when, Exec.ret, emit, update, Exec.modify.
    destruct c; cbn; now rewrite <- ?app_assoc. }
  rewrite Hsync. cbn [ui trace app].
  set (w1 := mkWorld _ _).
  unfold Exec.exec, PageTab.download_resume, Exec.finally, Exec.try_catch,
    PageTab.download_try.
  unfold Exec.bind at 1. rewrite (waitForImages_mounted w1 Hm).
  unfold Exec.bind at 1. cbn [update Exec.modify].
  unfold Exec.bind at 1. rewrite renderCardBlob_result, Hb.
  cbn [PageTab.task_ios PageTab.task_preTab PageTab.task_filename].
  unfold blobToDataURL. rewrite Hd.
  unfold PageTab.fillTabWithImage, PageTab.tabFilling, PageTab.tabOpening, did, emit, update,
    Exec.bind, Exec.modify, Exec.ret, PageTab.download_finally.
  fold c.
  destruct (negb (window_open b) || closed b AfterAwaits);
    [|destruct (write_ok b (ImagePage d (filename_of s)))];
    cbn; rewrite <- ?app_assoc; cbn;
    f_equal; try reflexivity;
    destruct s; cbn in He; subst; reflexivity.
Qed.

Lemma tab_page_hands_over_the_data_url_witness :
  In (DocumentWrite
        (ImagePage "data:image/png;base64,iVBORw==" "ritual-card-Example.png"))
     (trace (PageTab.download Demo.iphone (fresh (Demo.shown "")))).
Proof.
  rewrite (tab_page_hands_over_the_data_url Demo.iphone Demo.png
             "data:image/png;base64,iVBORw==" (Demo.shown "")
             eq_refl eq_refl eq_refl eq_refl eq_refl).
  cbn. auto 10.
Defined.

(** *** The overlay *)

Lemma overlay_try_url (b : Browser.t) (t : PageOverlay.Task) (v : option string) :
  triple (fun w => PageOverlay.overlayURL w = v) (PageOverlay.download_try b t)
    (fun _ w =>
       if PageOverlay.task_ios t then
         exists blob d,
           rendered b = Some blob /\ readAsDataURL b blob = Some d
           /\ PageOverlay.overlayURL w = Some d
       else PageOverlay.overlayURL w = v)
    (fun w => PageOverlay.overlayURL w = v).
Proof.
  unfold PageOverlay.download_try.
  apply (triple_bind _ _ _ (fun _ w => PageOverlay.overlayURL w = v)).
  { apply keeps_triple. unfold waitForImages. keeps_structure; assumption. }
  intros _.
  apply (triple_bind _ _ _ (fun _ w => PageOverlay.overlayURL w = v)).
  { apply keeps_triple. keeps_structure; assumption. }
  intros _.
  apply (triple_bind _ _ _
           (fun blob w => rendered b = Some blob /\ PageOverlay.overlayURL w = v)).
  { intros w Hw. rewrite renderCardBlob_result.
    destruct (rendered b) as [blob|]; [split; [reflexivity | exact Hw] | exact Hw]. }
  intros blob. destruct (PageOverlay.task_ios t).
  - apply (triple_bind _ _ _
             (fun _ w => rendered b = Some blob /\ PageOverlay.overlayURL w = v)).
    { apply triple_modify. intros w [H1 H2]. split; [exact H1 | exact H2]. }
    intros _.
    apply (triple_bind _ _ _
             (fun d w => rendered b = Some blob /\ readAsDataURL b blob = Some d
                         /\ PageOverlay.overlayURL w = v)).
    { unfold blobToDataURL. intros w [H1 H2].
      destruct (readAsDataURL b blob) as [d|]; cbn; auto. }
    intros d.
    apply (triple_bind _ _ _
             (fun _ w => rendered b = Some blob /\ readAsDataURL b blob = Some d
                         /\ PageOverlay.overlayURL w = Some d)).
    { apply triple_modify. intros w (H1 & H2 & H3). repeat split; assumption. }
    intros _. apply triple_modify. intros w (H1 & H2 & H3).
    exists blob, d. repeat split; assumption.
  - apply (triple_weaken (fun w => PageOverlay.overlayURL w = v) _ _
             (fun _ w => PageOverlay.overlayURL w = v) _ (fun w => PageOverlay.overlayURL w = v));
      [| now intros w [_ H] | auto | auto].
    apply keeps_triple. unfold anchorDownload. keeps_structure; assumption.
Qed.

(** X19.  On the overlay page an export sets the data URL of the overlay
    only when it runs on iOS and succeeds, and then to the data URL the
    reader made of the rendered bytes; off iOS and on every failure the
    overlay is as it was. *)
Theorem overlay_shows_only_an_ios_success (b : Browser.t)
        (t : PageOverlay.Task) (w : PageOverlay.World) :
  let w' := Exec.exec (PageOverlay.download_resume b t) w in
  match fst (PageOverlay.download_try b t w), PageOverlay.task_ios t with
  | Some _, true =>
      exists blob d,
        rendered b = Some blob /\ readAsDataURL b blob = Some d
        /\ PageOverlay.overlayURL w' = Some d
  | _, _ => PageOverlay.overlayURL w' = PageOverlay.overlayURL w
  end.
Proof.
  cbv zeta.
  unfold Exec.exec, PageOverlay.download_resume, Exec.finally, Exec.try_catch.
  pose proof (overlay_try_url b t (PageOverlay.overlayURL w) w eq_refl) as H.
  destruct (PageOverlay.download_try b t w) as [[[]|] w1]; cbn [fst snd] in *.
  - destruct (PageOverlay.task_ios t); exact H.
  - exact H.
Qed.

(** *** The share page *)

(** X20.  On the share page, an export whose rasterization yields the bytes:
    with the share sheet, shares the file, closes the popup and creates no
    object URL; without it, creates one object URL and hands it to the popup
    when there is one (revoking after 60 s), else to an anchor named
    [ritual-card-<handle>.png] (revoking after 2 s), also on iOS when the
    popup was blocked. *)
Theorem share_page_delivers (b : Browser.t) (blob : Blob) (s : PageShare.State) :
  stageMounted s = true -> toBlob b 3 = BlobOk blob ->
  (canShare b = true -> share b = true ->
   PageShare.download b (fresh s)
   = mkWorld (setExporting false s)
             (PageShare.shareOpening b ++ [ToBlob 3; Share (filename_of s)]
              ++ (if ios b && window_open b then [WindowClose] else [])))
  /\ (canShare b = false ->
      PageShare.download b (fresh s)
      = mkWorld (setExporting false s)
                (PageShare.shareOpening b ++ ToBlob 3 :: PageShare.shareHandover b blob (filename_of s))).
Proof.
  intros Hm Hb.
  assert (Hstart :
    PageShare.download b (fresh s)
    = Exec.exec
        (PageShare.download_resume b
           {| PageShare.task_ios := ios b;
              PageShare.task_popup := ios b && window_open b;
              PageShare.task_fileName := filename_of s |})
        (mkWorld (setExporting true s) (PageShare.shareOpening b))).
  { unfold PageShare.download, PageShare.download_begin, fresh. cbn [ui].
    rewrite Hm. cbn [negb]. now rewrite share_sync. }
  rewrite Hstart. clear Hstart.
  set (w1 := mkWorld _ _).
  assert (Hw : waitForImages w1 = (Some tt, w1))
    by exact (waitForImages_mounted w1 Hm).
  split.
  - intros Hc Hs.
    unfold Exec.exec, PageShare.download_resume, Exec.finally, Exec.try_catch,
      PageShare.download_try.
    unfold Exec.bind at 1. rewrite Hw.
    unfold call_toBlob. rewrite Hb, Hc, Hs.
    unfold PageShare.close_popup, PageShare.download_finally, emit, Exec.bind,
      Exec.when, Exec.modify, Exec.ret.
    cbn. destruct (ios b && window_open b); cbn; rewrite <- ?app_assoc;
      reflexivity.
  - intros Hc.
    unfold Exec.exec, PageShare.download_resume, Exec.finally, Exec.try_catch,
      PageShare.download_try.
    unfold Exec.bind at 1. rewrite Hw.
    unfold call_toBlob. rewrite Hb, Hc.
    unfold PageShare.deliver, PageShare.shareHandover, PageShare.download_finally, emit,
      Exec.bind, Exec.modify, Exec.ret.
    destruct (ios b), (window_open b); cbn; rewrite <- ?app_assoc; reflexivity.
Qed.

Lemma share_page_delivers_witness :
  anchorClicks (trace (PageShare.download Demo.desktop (fresh (Demo.shown tt))))
  = [("blob:https://card.example/1", "ritual-card-Example.png")].
Proof.
  rewrite (proj2 (share_page_delivers Demo.desktop Demo.png (Demo.shown tt)
                    eq_refl eq_refl) eq_refl).
  reflexivity.
Defined.

(** X21.  On the share page every failure after the guard, on any platform,
    ends with the alert that names iOS, and with the flag down. *)
Theorem share_page_alerts_on_every_failure (b : Browser.t)
        (t : PageShare.Task) (w : PageShare.World) :
  fst (PageShare.download_try b t w) = None ->
  let w' := Exec.exec (PageShare.download_resume b t) w in
  (exists tr, trace w' = (tr ++ [Alert "Export failed on iOS. Try again."])%list)
  /\ exporting (ui w') = false.
Proof.
  intros Hfail. cbv zeta.
  unfold Exec.exec, PageShare.download_resume, Exec.finally, Exec.try_catch.
  destruct (PageShare.download_try b t w) as [[[]|] w1]; [discriminate|].
  unfold PageShare.download_catch, PageShare.close_popup, emit, Exec.bind,
    Exec.when, Exec.modify, Exec.ret.
  destruct (PageShare.task_popup t); cbn; split; try reflexivity; now eexists.
Qed.

Lemma share_page_alerts_on_every_failure_witness :
  exists tr,
    trace (Exec.exec
             (PageShare.download_resume Demo.desktop_retry
                {| PageShare.task_ios := false; PageShare.task_popup := false;
                   PageShare.task_fileName := "ritual-card-Example.png" |})
             (fresh (Demo.shown tt)))
    = (tr ++ [Alert "Export failed on iOS. Try again."])%list.
Proof.
  apply (share_page_alerts_on_every_failure Demo.desktop_retry
           {| PageShare.task_ios := false; PageShare.task_popup := false;
              PageShare.task_fileName := "ritual-card-Example.png" |}
           (fresh (Demo.shown tt))).
  reflexivity.
Defined.

(** *** An export that resumes without a card *)

Lemma waitForImages_unmounted {X} (w : World X) :
  stageMounted (ui w) = false -> waitForImages w = (None, w).
Proof.
  intros H. unfold waitForImages, Exec.bind, Exec.get, Exec.when.
  now rewrite H.
Qed.

(** X22.  An export that resumes when the card is no longer rendered, as
    after a reset during its first wait, rasterizes nothing and creates no
    object URL; it reports the failure (status line on the tab page and on
    the overlay page, alert on the share page) and lowers the flag. *)
Theorem export_without_a_card_fails_cleanly :
  (forall b t (w : PageTab.World),
      stageMounted (ui w) = false ->
      let w' := Exec.exec (PageTab.download_resume b t) w in
      rasterizations (trace w') = rasterizations (trace w)
      /\ created (trace w') = created (trace w)
      /\ PageTab.exportStatus (ui w') = "Export failed â€” tap to retry"
      /\ exporting (ui w') = false)
  /\ (forall b t (w : PageOverlay.World),
        stageMounted (ui w) = false ->
        let w' := Exec.exec (PageOverlay.download_resume b t) w in
        rasterizations (trace w') = rasterizations (trace w)
        /\ created (trace w') = created (trace w)
        /\ PageOverlay.exportStatus (extra (ui w')) = "Export failed — try again"
        /\ exporting (ui w') = false)
  /\ (forall b t (w : PageShare.World),
        stageMounted (ui w) = false ->
        let w' := Exec.exec (PageShare.download_resume b t) w in
        rasterizations (trace w') = rasterizations (trace w)
        /\ created (trace w') = created (trace w)
        /\ In (Alert "Export failed on iOS. Try again.") (trace w')
        /\ exporting (ui w') = false).
Proof.
  split; [|split]; intros b t w Hm; cbv zeta.
  - assert (E : Exec.exec (PageTab.download_resume b t) w
                = PageTab.download_finally (snd (PageTab.download_catch b t w))).
    { unfold Exec.exec, PageTab.download_resume, Exec.finally, Exec.try_catch,
        PageTab.download_try.
      unfold Exec.bind at 1. rewrite (waitForImages_unmounted w Hm).
      now destruct (PageTab.download_catch b t w). }
    rewrite E.
    unfold PageTab.download_catch, PageTab.download_finally, emit, update,
      Exec.bind, Exec.when, Exec.modify, Exec.ret.
    destruct (_ && _); cbn;
      rewrite ?rasterizations_app, ?created_app; cbn;
      rewrite ?app_nil_r; repeat split.
  - assert (E : Exec.exec (PageOverlay.download_resume b t) w
                = PageOverlay.download_finally
                    (snd (PageOverlay.download_catch w))).
    { unfold Exec.exec, PageOverlay.download_resume, Exec.finally,
        Exec.try_catch, PageOverlay.download_try.
      unfold Exec.bind at 1. rewrite (waitForImages_unmounted w Hm).
      now destruct (PageOverlay.download_catch w). }
    rewrite E.
    unfold PageOverlay.download_catch, PageOverlay.download_finally, emit,
      update, Exec.bind, Exec.modify, Exec.ret.
    cbn; rewrite ?rasterizations_app, ?created_app; cbn;
      rewrite ?app_nil_r; repeat split.
  - assert (E : Exec.exec (PageShare.download_resume b t) w
                = PageShare.download_finally
                    (snd (PageShare.download_catch t w))).
    { unfold Exec.exec, PageShare.download_resume, Exec.finally,
        Exec.try_catch, PageShare.download_try.
      unfold Exec.bind at 1. rewrite (waitForImages_unmounted w Hm).
      now destruct (PageShare.download_catch t w). }
    rewrite E.
    unfold PageShare.download_catch, PageShare.close_popup,
      PageShare.download_finally, emit, Exec.bind, Exec.when, Exec.modify,
      Exec.ret.
    destruct (PageShare.task_popup t); cbn;
      rewrite ?rasterizations_app, ?created_app; cbn;
      rewrite ?app_nil_r; repeat split;
      rewrite ?in_app_iff; cbn; auto.
Qed.

Lemma export_without_a_card_fails_cleanly_witness :
  PageTab.exportStatus
    (ui (Exec.exec
           (PageTab.download_resume Demo.desktop
              {| PageTab.task_ios := false;
                 PageTab.task_filename := "ritual-card-Example.png";
                 PageTab.task_preTab := false |})
           (fresh PageTab.initial)))
  = "Export failed â€” tap to retry".
Proof.
  apply (proj1 export_without_a_card_fails_cleanly Demo.desktop _
           (fresh PageTab.initial) eq_refl).
Defined.

(** *** States a session reaches *)

Module Reachable.
Import Session.
Local Open Scope string_scope.

Section Page.

Context {X Task : Type}.
Variable download_begin : Browser.t -> World X -> World X * option Task.
Variable download_resume : Browser.t -> Task -> Exec.M (World X) unit.
Variables reset clearStatus closeOverlay : State X -> State X.

Let Sys := @Sys X Task.
Let step := step download_begin download_resume reset clearStatus closeOverlay.

Section Flag.

Hypothesis begin_guard :
  forall b w, exporting (ui w) = true -> download_begin b w = (w, None).
Hypothesis begin_started :
  forall b w w' t, download_begin b w = (w', Some t) ->
                   exporting (ui w') = true.
Hypothesis begin_refused :
  forall b w w', download_begin b w = (w', None) -> w' = w.
Hypothesis resume_lowers :
  forall b t w, exporting (ui (Exec.exec (download_resume b t) w)) = false.
Hypothesis reset_exporting : forall s, exporting (reset s) = exporting s.
Hypothesis clearStatus_exporting :
  forall s, exporting (clearStatus s) = exporting s.
Hypothesis closeOverlay_exporting :
  forall s, exporting (closeOverlay s) = exporting s.

Lemma step_flagged (sys : Sys) (e : Event) : flagged sys -> flagged (step sys e).
Proof.
  intros [Hlen Hflag]. destruct e; unfold step, Session.step, on_ui, flagged;
    cbn [exports world ui].
  - split; [exact Hlen | exact Hflag].
  - split; [exact Hlen | exact Hflag].
  - pose proof (Exclusive.generateCard_begin_exporting (ui (world sys))) as Hg.
    destruct (generateCard_begin (ui (world sys))) as [s' [u|]];
      cbn [fst exports world ui] in *; rewrite Hg; now split.
  - destruct (nth_error (lookups sys) i); cbn [exports world ui]; now split.
  - destruct (download_begin b (world sys)) as [w' [t|]] eqn:Hb;
      cbn [exports world ui].
    + destruct (exporting (ui (world sys))) eqn:He.
      * rewrite (begin_guard b _ He) in Hb. discriminate.
      * assert (Hex : exports sys = []).
        { destruct (exports sys); [reflexivity|].
          assert (false = true) by (apply Hflag; discriminate). discriminate. }
        rewrite Hex. split; [simpl; lia|].
        rewrite (begin_started _ _ _ _ Hb). split; [discriminate | reflexivity].
    + rewrite (begin_refused _ _ _ Hb). split; [exact Hlen | exact Hflag].
  - destruct (nth_error (exports sys) i) as [t|] eqn:Hn;
      cbn [exports world ui]; [|now split].
    rewrite (Exclusive.remove_nth_single _ _ _ Hlen Hn), resume_lowers.
    split; [simpl; lia|]. split; [discriminate | intros H; now elim H].
  - rewrite reset_exporting. now split.
  - rewrite clearStatus_exporting. now split.
  - rewrite closeOverlay_exporting. now split.
Qed.

Lemma run_flagged (events : list Event) (sys : Sys) :
  flagged sys -> flagged (fold_left step events sys).
Proof.
  revert sys. induction events as [|e events IH]; intros sys H; [exact H|].
  simpl. apply IH, step_flagged, H.
Qed.

End Flag.

Section Shown.

Hypothesis begin_form :
  forall b w w' r, download_begin b w = (w', r) ->
                   formData (ui w') = formData (ui w).
Hypothesis resume_form :
  forall b t w, formData (ui (Exec.exec (download_resume b t) w))
                = formData (ui w).
Hypothesis reset_hides : forall s, showCard (reset s) = false.
Hypothesis clearStatus_form : forall s, formData (clearStatus s) = formData s.
Hypothesis closeOverlay_form : forall s, formData (closeOverlay s) = formData s.

Lemma presentable_card (w w' : World X) ls (es es' : list Task) :
  profile (ui w') = profile (ui w) -> showCard (ui w') = showCard (ui w) ->
  presentable (mkSys w es ls) -> presentable (mkSys w' es' ls).
Proof.
  unfold presentable. cbn [lookups world].
  intros Hp Hs [Hl Hc]. rewrite Hp, Hs. now split.
Qed.

Lemma presentable_form (w w' : World X) ls (es es' : list Task) :
  formData (ui w') = formData (ui w) ->
  presentable (mkSys w es ls) -> presentable (mkSys w' es' ls).
Proof.
  unfold formData. intros [= _ _ _ _ Hp Hs]. now apply presentable_card.
Qed.

Lemma remove_nth_Forall {A} (P : A -> Prop) (i : nat) (l : list A) :
  Forall P l -> Forall P (remove_nth i l).
Proof.
  intros H. revert i. induction H as [|x l Hx Hl IH]; intros i.
  - now destruct i.
  - destruct i; simpl; [exact Hl | constructor; [exact Hx | apply IH]].
Qed.

Lemma step_presentable (sys : Sys) (e : Event) :
  presentable sys -> presentable (step sys e).
Proof.
  intros Hp. destruct sys as [w es ls].
  destruct e; unfold step, Session.step, on_ui; cbn [exports world lookups].
  - revert Hp. now apply presentable_card.
  - revert Hp. now apply presentable_card.
  - unfold generateCard_begin. cbn [handle setError selectedRole].
    destruct (String.eqb (normalizeHandle (handle (ui w))) "") eqn:E1;
      [revert Hp; now apply presentable_card|].
    destruct (String.eqb (selectedRole (ui w)) "");
      [revert Hp; now apply presentable_card|].
    destruct Hp as [Hl Hc]. split; cbn [lookups world ui].
    + apply Forall_app. split; [exact Hl|].
      constructor; [now apply String.eqb_neq | constructor].
    + exact Hc.
  - destruct (nth_error ls i) as [u|] eqn:Hn; [|exact Hp].
    destruct Hp as [Hl Hc]. split; cbn [lookups world ui].
    + now apply remove_nth_Forall.
    + intros _.
      change (profile (generateCard_settle u r (ui w)))
        with (resolveProfile u r).
      assert (Hu : u <> "").
      { apply nth_error_In in Hn. rewrite Forall_forall in Hl. now apply Hl. }
      destruct (CardFacts.resolveProfile_sound u r Hu) as (H1 & H2 & H3 & _).
      rewrite H1. auto.
  - pose proof (begin_form b w) as Hb.
    destruct (download_begin b w) as [w' [t|]];
      specialize (Hb _ _ eq_refl); revert Hp; now apply presentable_form.
  - destruct (nth_error es i) as [t|]; [|exact Hp].
    revert Hp. apply presentable_form. apply resume_form.
  - destruct Hp as [Hl _]. split; [exact Hl|]. cbn [world ui].
    now rewrite reset_hides.
  - revert Hp. apply presentable_form. apply clearStatus_form.
  - revert Hp. apply presentable_form. apply closeOverlay_form.
Qed.

Lemma run_presentable (events : list Event) (sys : Sys) :
  presentable sys -> presentable (fold_left step events sys).
Proof.
  revert sys. induction events as [|e events IH]; intros sys H; [exact H|].
  simpl. apply IH, step_presentable, H.
Qed.

End Shown.

End Page.

Lemma tab_begin_refused (b : Browser.t) (w w' : PageTab.World) :
  PageTab.download_begin b w = (w', None) -> w' = w.
Proof.
  unfold PageTab.download_begin. destruct (_ || _); [now intros [= <-]|].
  destruct (Tab.tab_sync_result b (filename_of (ui w)) w) as (t & tr & -> & _).
  discriminate.
Qed.

Lemma overlay_begin_refused (b : Browser.t) (w w' : PageOverlay.World) :
  PageOverlay.download_begin b w = (w', None) -> w' = w.
Proof.
  unfold PageOverlay.download_begin. destruct (_ || _); [now intros [= <-]|].
  rewrite Overlay.overlay_sync_result. discriminate.
Qed.

(** X23.  On the tab page and on the overlay page, in every state a session
    reaches from a state with the flag down, the flag is up exactly while an
    export is in flight: the download button is disabled for as long as an
    export runs and no longer. *)
Theorem flag_is_up_exactly_while_exporting :
  (forall (s0 : PageTab.State) events,
      exporting s0 = false ->
      let sys := Session.tab_run events (Session.start s0) in
      exporting (ui (world sys)) = true <-> exports sys <> [])
  /\ (forall (s0 : PageOverlay.State) events,
        exporting s0 = false ->
        let sys := Session.overlay_run events (Session.start s0) in
        exporting (ui (world sys)) = true <-> exports sys <> []).
Proof.
  split; intros s0 events He sys.
  - apply (run_flagged PageTab.download_begin PageTab.download_resume
             PageTab.reset (PageTab.setExportStatus "") (fun s => s)
             Tab.tab_begin_guard Tab.tab_begin_started tab_begin_refused
             Tab.tab_resume_exporting);
      try reflexivity.
    split; [simpl; lia|]. cbn. rewrite He.
    split; [discriminate | intros H; now elim H].
  - apply (run_flagged PageOverlay.download_begin PageOverlay.download_resume
             PageOverlay.reset (PageOverlay.setExportStatus "")
             (PageOverlay.setIosSaveDataURL None)
             Overlay.overlay_begin_guard Overlay.overlay_begin_started
             overlay_begin_refused Overlay.overlay_resume_exporting);
      try reflexivity.
    split; [simpl; lia|]. cbn. rewrite He.
    split; [discriminate | intros H; now elim H].
Qed.

Lemma flag_is_up_exactly_while_exporting_witness :
  exporting
    (ui (world (Session.tab_run Demo.single_click (Session.start PageTab.initial))))
  = true.
Proof.
  apply (proj1 flag_is_up_exactly_while_exporting PageTab.initial
           Demo.single_click eq_refl).
  discriminate.
Defined.

Lemma filename_with_handle {X} (s : State X) :
  username (profile s) <> "" ->
  filename_of s = "ritual-card-" ++ username (profile s) ++ ".png".
Proof.
  intros H. unfold filename_of.
  destruct (String.eqb (username (profile s)) "") eqn:E;
    [apply String.eqb_eq in E; contradiction | reflexivity].
Qed.

Lemma start_presentable {X Task} (s0 : State X) :
  showCard s0 = false -> presentable (@Session.start X Task s0).
Proof.
  intros H. split; [constructor|]. cbn. rewrite H. discriminate.
Qed.

(** X24.  On each of the three pages, in every state a session reaches from
    a state without a card, a card that is shown has a record with a handle
    that is not empty, a name and a bio that are truthy; the file an export
    offers is then named after the handle, never [ritual-card-card.png]. *)
Theorem shown_card_has_a_handle :
  (forall (s0 : PageTab.State) events,
      showCard s0 = false ->
      let s := ui (world (Session.tab_run events (Session.start s0))) in
      showCard s = true ->
      username (profile s) <> ""
      /\ JsVal.truthy (displayName (profile s)) = true
      /\ JsVal.truthy (bio (profile s)) = true
      /\ filename_of s = "ritual-card-" ++ username (profile s) ++ ".png")
  /\ (forall (s0 : PageOverlay.State) events,
        showCard s0 = false ->
        let s := ui (world (Session.overlay_run events (Session.start s0))) in
        showCard s = true ->
        username (profile s) <> ""
        /\ JsVal.truthy (displayName (profile s)) = true
        /\ JsVal.truthy (bio (profile s)) = true
        /\ filename_of s = "ritual-card-" ++ username (profile s) ++ ".png")
  /\ (forall (s0 : PageShare.State) events,
        showCard s0 = false ->
        let s := ui (world (Session.share_run events (Session.start s0))) in
        showCard s = true ->
        username (profile s) <> ""
        /\ JsVal.truthy (displayName (profile s)) = true
        /\ JsVal.truthy (bio (profile s)) = true
        /\ filename_of s = "ritual-card-" ++ username (profile s) ++ ".png").
Proof.
  split; [|split]; intros s0 events H0 s Hs.
  - assert (Hp : presentable (Session.tab_run events (Session.start s0))).
    { apply (run_presentable PageTab.download_begin PageTab.download_resume
               PageTab.reset (PageTab.setExportStatus "") (fun s => s)
               tab_begin_form
               (fun b t w => tab_resume_form _ b t w eq_refl));
        try reflexivity.
      now apply start_presentable. }
    destruct Hp as [_ Hc]. destruct (Hc Hs) as (H1 & H2 & H3).
    repeat split; try assumption. now apply filename_with_handle.
  - assert (Hp : presentable (Session.overlay_run events (Session.start s0))).
    { apply (run_presentable PageOverlay.download_begin
               PageOverlay.download_resume PageOverlay.reset
               (PageOverlay.setExportStatus "")
               (PageOverlay.setIosSaveDataURL None)
               overlay_begin_form
               (fun b t w => overlay_resume_form _ b t w eq_refl));
        try reflexivity.
      now apply start_presentable. }
    destruct Hp as [_ Hc]. destruct (Hc Hs) as (H1 & H2 & H3).
    repeat split; try assumption. now apply filename_with_handle.
  - assert (Hp : presentable (Session.share_run events (Session.start s0))).
    { apply (run_presentable PageShare.download_begin
               PageShare.download_resume PageShare.reset
               (fun s => s) (fun s => s)
               share_begin_form
               (fun b t w => share_resume_form _ b t w eq_refl));
        try reflexivity.
      now apply start_presentable. }
    destruct Hp as [_ Hc]. destruct (Hc Hs) as (H1 & H2 & H3).
    repeat split; try assumption. now apply filename_with_handle.
Qed.

(** X25.  On the tab page and on the overlay page, where Enter in the input
    starts a lookup also while another is in flight, a reset does not cancel
    a lookup in flight: when the lookup settles after the reset, its record
    is stored and the card flag raised while no role is selected, so that
    the page renders neither the form nor the card. *)
Theorem reset_does_not_cancel_a_lookup (i : nat) (u : string)
        (r : FetchResult) :
  (forall sys : @Sys string PageTab.Task,
      nth_error (lookups sys) i = Some u ->
      let s := ui (world (Session.tab_step (Session.tab_step sys ResetClicked)
                            (LookupSettled i r))) in
      profile s = resolveProfile u r
      /\ formShown s = false /\ renderCard s = None)
  /\ (forall sys : @Sys PageOverlay.Extra PageOverlay.Task,
        nth_error (lookups sys) i = Some u ->
        let s := ui (world (Session.overlay_step
                              (Session.overlay_step sys ResetClicked)
                              (LookupSettled i r))) in
        profile s = resolveProfile u r
        /\ formShown s = false /\ renderCard s = None).
Proof.
  split; intros sys Hn; cbv zeta.
  - unfold Session.tab_step, Session.step, on_ui. cbn [lookups world ui].
    rewrite Hn. cbn [world ui]. split; [reflexivity|].
    now apply CardFacts.settle_without_role.
  - unfold Session.overlay_step, Session.step, on_ui. cbn [lookups world ui].
    rewrite Hn. cbn [world ui]. split; [reflexivity|].
    now apply CardFacts.settle_without_role.
Qed.

(** Enter pressed twice, the first lookup settles and the card is shown;
    then the card is reset and the second lookup settles. *)
Lemma reset_does_not_cancel_a_lookup_witness :
  let shown :=
    Session.tab_run
      [ Typed "@Example "; Picked "Mage"; GenerateClicked; GenerateClicked;
        LookupSettled 0 (Demo.profile_api "") ]
      (Session.start PageTab.initial) in
  let s :=
    ui (world (Session.tab_step (Session.tab_step shown ResetClicked)
                 (LookupSettled 0 (Demo.profile_api "")))) in
  stageMounted (ui (world shown)) = true
  /\ formShown s = false /\ renderCard s = None.
Proof.
  cbv zeta. split; [reflexivity|].
  apply (proj1 (reset_does_not_cancel_a_lookup 0 "Example"
                  (Demo.profile_api ""))
           (Session.tab_run
              [ Typed "@Example "; Picked "Mage"; GenerateClicked;
                GenerateClicked; LookupSettled 0 (Demo.profile_api "") ]
              (Session.start PageTab.initial))).
  reflexivity.
Defined.

Lemma shown_card_has_a_handle_witness :
  filename_of
    (ui (world (Session.tab_run Demo.single_click (Session.start PageTab.initial))))
  = "ritual-card-Example.png".
Proof.
  destruct (proj1 shown_card_has_a_handle PageTab.initial Demo.single_click
              eq_refl eq_refl) as (_ & _ & _ & H).
  rewrite H. reflexivity.
Defined.

End Reachable.

End ExportFacts.
